(** * x0v3rt: workspace file store and search indexer

    A shallow embedding of [electron/file-manager.js] and of the
    [SearchIndexer] class it loads as [./search-indexer], followed by the
    properties of the path resolver, the version store, the front-matter
    codec, the search index and the change watcher.

    JavaScript strings are modelled as [string] (8-bit characters: the
    ASCII part of the JS behaviour), numbers that count things as [nat] or
    [N].  Paths follow the POSIX flavour of Node's [path] module. *)

From Stdlib Require Import String Ascii List Bool Arith NArith Lia.
From stdpp Require Import gmap strings list fin_maps.

Local Open Scope string_scope.
Local Open Scope list_scope.
Set Warnings "-register-all".

(** ** Outcomes of fallible operations *)

Inductive error : Type :=
| NoFolderOpen          (* Error('No folder open') *)
| InvalidFilename       (* Error('Invalid filename') *)
| RestrictedMeta        (* Error('Access to metadata folder is restricted') *)
| NoPreviousVersions    (* Error('No previous versions') *)
| InvalidSourcePath     (* Error('Invalid source path') *)
| ENOENT                (* fs error with code ENOENT *)
| EISDIR                (* fs error: the path names a directory *)
| TypeError.            (* property access on null *)

Inductive result (A : Type) : Type :=
| Ok (a : A)
| Err (e : error).
Arguments Ok {A} a.
Arguments Err {A} e.

Definition bind {A B : Type} (r : result A) (k : A -> result B) : result B :=
  match r with
  | Ok a => k a
  | Err e => Err e
  end.

Notation "'let*' x ':=' r 'in' k" := (bind r (fun x => k))
  (at level 10, x pattern, r at level 200, k at level 200, only parsing).

(** ** JavaScript string primitives *)

Definition chr_slash : ascii := "/"%char.
Definition chr_dot : ascii := "."%char.
Definition chr_nl : ascii := "010"%char.

(** [s.startsWith(p)] *)
Fixpoint startsWith (s p : string) : bool :=
  match p with
  | EmptyString => true
  | String c p' =>
      match s with
      | EmptyString => false
      | String d s' => Ascii.eqb c d && startsWith s' p'
      end
  end.

(** [s.slice(n)] for [0 <= n] *)
Fixpoint drop_str (n : nat) (s : string) : string :=
  match n, s with
  | O, _ => s
  | S n', String _ s' => drop_str n' s'
  | S _, EmptyString => EmptyString
  end.

Definition str_rev (s : string) : string :=
  string_of_list_ascii (List.rev (list_ascii_of_string s)).

(** [s.endsWith(p)] *)
Definition endsWith (s p : string) : bool :=
  startsWith (str_rev s) (str_rev p).

(** [s.split(sep)] for a one-character separator; never the empty list *)
Fixpoint split (sep : ascii) (s : string) : list string :=
  match s with
  | EmptyString => [EmptyString]
  | String c s' =>
      if Ascii.eqb c sep then EmptyString :: split sep s'
      else match split sep s' with
           | [] => [String c EmptyString]
           | w :: ws => String c w :: ws
           end
  end.

(** [xs.join(sep)] *)
Definition join (sep : string) (xs : list string) : string :=
  String.concat sep xs.

(** [xs.includes(x)] on strings *)
Definition includes (xs : list string) (x : string) : bool :=
  existsb (String.eqb x) xs.

Definition lower_char (c : ascii) : ascii :=
  let n := nat_of_ascii c in
  if (65 <=? n)%nat && (n <=? 90)%nat then ascii_of_nat (n + 32) else c.

(** [s.toLowerCase()] *)
Fixpoint toLowerCase (s : string) : string :=
  match s with
  | EmptyString => EmptyString
  | String c s' => String (lower_char c) (toLowerCase s')
  end.

(** the class [\s] *)
Definition is_space (c : ascii) : bool :=
  let n := nat_of_ascii c in
  ((9 <=? n)%nat && (n <=? 13)%nat) || (n =? 32)%nat.

(** ** Node's [path] module, POSIX flavour

    The functions of [require('path')] that the program calls, after
    Node's [lib/path.js]; every path is cut at its separators and handled
    segment by segment. *)

Module Path.

(** [normalizeString]: the segments between separators are pushed on a
    stack; empty segments and [.] are dropped, [..] pops a segment that
    is not itself [..], and is kept only when [allowAboveRoot].  The
    stack is held in reverse. *)
Definition step (allowAboveRoot : bool) (stack : list string) (seg : string)
  : list string :=
  if String.eqb seg "" || String.eqb seg "." then stack
  else if String.eqb seg ".." then
    match stack with
    | top :: rest =>
        if String.eqb top ".." then
          (if allowAboveRoot then ".." :: stack else stack)
        else rest
    | [] => if allowAboveRoot then [".."] else []
    end
  else seg :: stack.

Definition normalizeSegs (allowAboveRoot : bool) (segs : list string)
  : list string :=
  List.rev (fold_left (step allowAboveRoot) segs []).

Definition normalizeString (p : string) (allowAboveRoot : bool) : string :=
  join "/" (normalizeSegs allowAboveRoot (split chr_slash p)).

Definition isAbsolute (p : string) : bool := startsWith p "/".

Definition normalize (p : string) : string :=
  if String.eqb p "" then "."
  else
    let abs := isAbsolute p in
    let trailingSeparator := endsWith p "/" in
    let q := normalizeString p (negb abs) in
    if String.eqb q "" then
      (if abs then "/" else if trailingSeparator then "./" else ".")
    else
      let q' := if trailingSeparator then q +:+ "/" else q in
      if abs then "/" +:+ q' else q'.

(** [resolve(...args)]: the arguments are taken from the right until an
    absolute one is met; the working directory [cwd] is used last. *)
Fixpoint resolve_acc (rargs : list string) (acc : string) : string * bool :=
  match rargs with
  | [] => (acc, false)
  | p :: rest =>
      if String.eqb p "" then resolve_acc rest acc
      else
        let acc' := p +:+ "/" +:+ acc in
        if isAbsolute p then (acc', true) else resolve_acc rest acc'
  end.

Definition resolve (cwd : string) (args : list string) : string :=
  let '(resolvedPath, resolvedAbsolute) :=
    resolve_acc (List.rev (cwd :: args)) "" in
  let q := normalizeString resolvedPath (negb resolvedAbsolute) in
  if resolvedAbsolute then "/" +:+ q
  else if String.eqb q "" then "." else q.

Definition join_paths (args : list string) : string :=
  match List.filter (fun a => negb (String.eqb a "")) args with
  | [] => "."
  | parts => normalize (join "/" parts)
  end.

Fixpoint strip_common (from to : list string) : list string * list string :=
  match from, to with
  | f :: from', t :: to' =>
      if String.eqb f t then strip_common from' to' else (from, to)
  | _, _ => (from, to)
  end.

(** the segments of an absolute, resolved path *)
Definition segments (p : string) : list string :=
  List.filter (fun a => negb (String.eqb a "")) (split chr_slash p).

(** [relative(from, to)] *)
Definition relative (cwd from to : string) : string :=
  if String.eqb from to then ""
  else
    let from' := resolve cwd [from] in
    let to' := resolve cwd [to] in
    if String.eqb from' to' then ""
    else
      let '(up, down) := strip_common (segments from') (segments to') in
      join "/" (List.map (fun _ => "..") up ++ down).

(** the last component of a path, trailing separators dropped *)
Fixpoint last_nonempty (segs : list string) (acc : string) : string :=
  match segs with
  | [] => acc
  | s :: rest => last_nonempty rest (if String.eqb s "" then acc else s)
  end.

Definition lastComponent (p : string) : string :=
  last_nonempty (split chr_slash p) "".

(** index of the last [.] of [s], if any *)
Fixpoint last_dot (s : string) (i : nat) (found : option nat) : option nat :=
  match s with
  | EmptyString => found
  | String c s' =>
      last_dot s' (S i) (if Ascii.eqb c chr_dot then Some i else found)
  end.

(** [extname(p)]: from the last dot of the last component, unless that
    dot is its first character or the component is [..] *)
Definition extname (p : string) : string :=
  let b := lastComponent p in
  match last_dot b 0 None with
  | None => ""
  | Some 0 => ""
  | Some i => if String.eqb b ".." then "" else drop_str i b
  end.

Fixpoint take_str (n : nat) (s : string) : string :=
  match n, s with
  | O, _ => EmptyString
  | S n', String c s' => String c (take_str n' s')
  | S _, EmptyString => EmptyString
  end.

(** [basename(p)] and [basename(p, suffix)] *)
Definition basename (p : string) (suffix : option string) : string :=
  let b := lastComponent p in
  match suffix with
  | None => b
  | Some ext =>
      if String.eqb ext "" then b
      else if String.eqb ext p then ""
      else if endsWith b ext && negb (String.eqb b ext)
      then take_str (String.length b - String.length ext) b
      else b
  end.

(** [dirname(p)] for a normalized path *)
Fixpoint drop_last (segs : list string) : list string :=
  match segs with
  | [] => []
  | [_] => []
  | s :: rest => s :: drop_last rest
  end.

Definition dirname (p : string) : string :=
  if String.eqb p "" then "."
  else
    let segs := segments p in
    match drop_last segs with
    | [] => if isAbsolute p then "/" else "."
    | d => (if isAbsolute p then "/" else "") +:+ join "/" d
    end.

End Path.

(** ** Path resolution ([resolveSafePath], [isMetaPath]) *)

Definition META_DIRNAME : string := ".x0v3rt".
Definition PREVIOUS_DIRNAME : string := ".previous".

Definition isMetaPath (cwd notesDir targetPath : string) : bool :=
  let rel := Path.relative cwd notesDir targetPath in
  includes (split chr_slash rel) META_DIRNAME.

Definition resolveSafePath (cwd : string) (notesDir : option string)
    (filename : string) (allowMeta : bool) : result string :=
  match notesDir with
  | None => Err NoFolderOpen
  | Some nd =>
      let normalized := Path.normalize filename in
      let resolved := Path.resolve cwd [nd; normalized] in
      if negb (startsWith resolved nd) then Err InvalidFilename
      else if isMetaPath cwd nd resolved && negb allowMeta then Err RestrictedMeta
      else Ok resolved
  end.

(** ** Values handled by the YAML and JSON libraries *)

Inductive jsval : Type :=
| JNull
| JBool (b : bool)
| JNum (n : Z)
| JStr (s : string)
| JArr (items : list jsval)
| JObj (fields : list (string * jsval)).

(** JavaScript truthiness, as used by [yaml.load(raw) || null] *)
Definition truthy (v : jsval) : bool :=
  match v with
  | JNull => false
  | JBool b => b
  | JNum n => negb (Z.eqb n 0)
  | JStr s => negb (String.eqb s "")
  | JArr _ | JObj _ => true
  end.

(** [typeof v === 'object'] for a truthy [v] *)
Definition is_object (v : jsval) : bool :=
  match v with
  | JArr _ | JObj _ => true
  | _ => false
  end.

(** [obj[k] = v]: an existing key keeps its place *)
Fixpoint obj_set (k : string) (v : jsval) (fields : list (string * jsval))
  : list (string * jsval) :=
  match fields with
  | [] => [(k, v)]
  | (k', v') :: rest =>
      if String.eqb k k' then (k, v) :: rest else (k', v') :: obj_set k v rest
  end.

(** [{...target, ...source}] *)
Definition obj_spread (target source : list (string * jsval))
  : list (string * jsval) :=
  fold_left (fun acc kv => obj_set (fst kv) (snd kv) acc) source target.

Record search_result : Type := {
  res_path : string;
  res_filename : string;
  res_snippet : string;
  res_rank : Z
}.

(** ** The search database ([files] and [files_fts]) *)

Record file_row : Type := {
  row_id : N;
  row_path : string;
  row_filename : string;
  row_extension : string;
  row_size : N;
  row_modified_at : N;
  row_indexed_at : N;
  row_front_matter : option string
}.

Record fts_row : Type := {
  fts_filename : string;
  fts_content : string;
  fts_front_matter : string
}.

(** The content of [search.db].  [files] is kept in rowid order;
    [sqlite_sequence] is the AUTOINCREMENT high-water mark of [files.id];
    the two flags say whether the [front_matter] column exists in each
    table (databases written by an older release lack it). *)
Record database : Type := {
  files : list file_row;
  files_fts : gmap N fts_row;
  sqlite_sequence : N;
  files_has_front_matter : bool;
  fts_has_front_matter : bool
}.

(** The libraries and the process environment the store runs on:
    js-yaml, [JSON.stringify], the FTS5 [MATCH] query of [search]
    ([None] when the statement throws) and [process.cwd()]. *)
Record platform : Type := {
  yaml_load : string -> option jsval;
  yaml_dump : jsval -> string;
  json_stringify : jsval -> string;
  fts_match : database -> string -> nat -> option (list search_result);
  cwd : string
}.

(** Readings of the clock taken by one operation *)
Record clock : Type := {
  iso : string;        (* new Date().toISOString() *)
  epoch_ms : N;        (* Date.now() *)
  local_stamp : string (* formatFrontMatterTimestamp() *)
}.

(** ** Front matter: the fence pattern [/^---\s*\n([\s\S]*?)\n---\s*\n?/] *)

Definition nl : string := String chr_nl EmptyString.
Definition fence : string := "---".
Definition closing_fence : string := nl +:+ fence.

(** the byte-order mark U+FEFF, in its UTF-8 encoding *)
Definition BOM : string :=
  String (ascii_of_nat 239) (String (ascii_of_nat 187)
    (String (ascii_of_nat 191) EmptyString)).

Fixpoint skip_spaces (s : string) : string :=
  match s with
  | String c s' => if is_space c then skip_spaces s' else s
  | EmptyString => EmptyString
  end.

(** the lazy group [([\s\S]*?)] followed by the closing fence: the text
    before the first closing fence, and the text after it *)
Fixpoint find_fence (s : string) : option (string * string) :=
  if startsWith s closing_fence then Some (EmptyString, drop_str 4 s)
  else
    match s with
    | EmptyString => None
    | String c s' =>
        match find_fence s' with
        | Some (before, after) => Some (String c before, after)
        | None => None
        end
    end.

(** what follows the opening [---]: the greedy [\s*] gives characters
    back until a newline ends it and a closing fence is found behind *)
Fixpoint open_fence (s : string) : option (string * string) :=
  match s with
  | String c s' =>
      if is_space c then
        match open_fence s' with
        | Some r => Some r
        | None => if Ascii.eqb c chr_nl then find_fence s' else None
        end
      else None
  | EmptyString => None
  end.

(** [trimmed.match(...)]: the captured group and [trimmed.slice(match[0].length)] *)
Definition match_front_matter (trimmed : string) : option (string * string) :=
  match open_fence (drop_str 3 trimmed) with
  | Some (raw, after) => Some (raw, skip_spaces after)
  | None => None
  end.

Definition strip_bom (content : string) : string :=
  if startsWith content BOM then drop_str 3 content else content.

Record front_matter : Type := {
  data : option jsval;
  body : string;
  raw : option string;
  hasFrontMatter : bool
}.

Definition no_front_matter (content : string) : front_matter :=
  {| data := None; body := content; raw := None; hasFrontMatter := false |}.

Definition parseFrontMatter (P : platform) (content : string) : front_matter :=
  let trimmed := strip_bom content in
  if negb (startsWith trimmed fence) then no_front_matter content
  else
    match match_front_matter trimmed with
    | None => no_front_matter content
    | Some (raw, rest) =>
        let data :=
          match yaml_load P raw with
          | Some v => if truthy v then Some v else None
          | None => None
          end in
        {| data := data; body := rest; raw := Some raw; hasFrontMatter := true |}
    end.

Definition buildFrontMatter (P : platform) (d : jsval) : string :=
  let yamlText := yaml_dump P d in
  fence +:+ nl +:+ yamlText +:+ fence +:+ nl +:+ nl.

(** ** SearchIndexer *)

Definition TEXT_EXTENSIONS : list string :=
  [".md"; ".txt"; ".json"; ".js"; ".py"; ".sql"; ".html"; ".css"; ".yaml";
   ".yml"; ".sh"; ".bash"; ".xml"; ".csv"].

Definition MAX_INDEXED_SIZE : N := 1024 * 1024.

Record indexer : Type := {
  workspaceDir : string;
  db : option database
}.

(** [new SearchIndexer(workspaceDir)] *)
Definition newIndexer (workspaceDir : string) : indexer :=
  {| workspaceDir := workspaceDir; db := None |}.

Definition empty_database : database :=
  {| files := []; files_fts := ∅; sqlite_sequence := 0;
     files_has_front_matter := true; fts_has_front_matter := true |}.

(** [createTables]: [stored] is the content of the database file, [None]
    when the file is new. *)
Definition createTables (stored : option database) : database :=
  match stored with
  | None => empty_database
  | Some d =>
      (* ALTER TABLE files ADD COLUMN front_matter *)
      let d1 :=
        {| files := files d; files_fts := files_fts d;
           sqlite_sequence := sqlite_sequence d;
           files_has_front_matter := true;
           fts_has_front_matter := fts_has_front_matter d |} in
      (* SELECT front_matter FROM files_fts throws: DROP and CREATE *)
      if fts_has_front_matter d1 then d1
      else
        {| files := files d1; files_fts := ∅;
           sqlite_sequence := sqlite_sequence d1;
           files_has_front_matter := true;
           fts_has_front_matter := true |}
  end.

(** [initialize()] *)
Definition initialize (ix : indexer) (stored : option database) : indexer :=
  {| workspaceDir := workspaceDir ix; db := Some (createTables stored) |}.

(** [SearchIndexer.parseFrontMatter(content, ext)] *)
Definition indexer_parseFrontMatter (P : platform) (content ext : string)
  : string * string :=
  if negb (String.eqb ext ".md") then (EmptyString, content)
  else
    let trimmed := strip_bom content in
    if negb (startsWith trimmed fence) then (EmptyString, content)
    else
      match match_front_matter trimmed with
      | None => (EmptyString, content)
      | Some (frontMatterRaw, rest) =>
          let frontMatterText :=
            match yaml_load P frontMatterRaw with
            | Some parsed =>
                if truthy parsed && is_object parsed
                then json_stringify P parsed else frontMatterRaw
            | None => frontMatterRaw
            end in
          (frontMatterText, rest)
      end.

Definition max_row_id (rows : list file_row) : N :=
  fold_right (fun r m => N.max (row_id r) m) 0%N rows.

Definition find_by_path (p : string) (rows : list file_row) : option file_row :=
  List.find (fun r => String.eqb (row_path r) p) rows.

(** [INSERT INTO files ... ON CONFLICT(path) DO UPDATE ... RETURNING id]:
    the row in conflict keeps its id and its path *)
Definition update_row (r x : file_row) : file_row :=
  {| row_id := row_id x; row_path := row_path x;
     row_filename := row_filename r; row_extension := row_extension r;
     row_size := row_size r; row_modified_at := row_modified_at r;
     row_indexed_at := row_indexed_at r;
     row_front_matter := row_front_matter r |}.

Definition upsert_file (d : database) (r : file_row) : database * N :=
  match find_by_path (row_path r) (files d) with
  | Some old =>
      ({| files := List.map (fun x => if String.eqb (row_path x) (row_path r)
                                      then update_row r x else x) (files d);
          files_fts := files_fts d; sqlite_sequence := sqlite_sequence d;
          files_has_front_matter := files_has_front_matter d;
          fts_has_front_matter := fts_has_front_matter d |}, row_id old)
  | None =>
      let id := N.succ (N.max (sqlite_sequence d) (max_row_id (files d))) in
      ({| files := files d ++
                   [{| row_id := id; row_path := row_path r;
                       row_filename := row_filename r;
                       row_extension := row_extension r;
                       row_size := row_size r;
                       row_modified_at := row_modified_at r;
                       row_indexed_at := row_indexed_at r;
                       row_front_matter := row_front_matter r |}];
          files_fts := files_fts d; sqlite_sequence := id;
          files_has_front_matter := files_has_front_matter d;
          fts_has_front_matter := fts_has_front_matter d |}, id)
  end.

Definition set_fts (d : database) (fts : gmap N fts_row) : database :=
  {| files := files d; files_fts := fts;
     sqlite_sequence := sqlite_sequence d;
     files_has_front_matter := files_has_front_matter d;
     fts_has_front_matter := fts_has_front_matter d |}.

Definition set_db (ix : indexer) (d : database) : indexer :=
  {| workspaceDir := workspaceDir ix; db := Some d |}.

(** What [fs.stat] and [fs.readFile] observe at a path *)
Inductive fs_obs : Type :=
| Missing                                   (* fs.stat throws *)
| Seen (size mtimeMs : N) (content : option string).
                                            (* [None]: fs.readFile throws *)

(** the statements of [indexFile] once the file has been read *)
Definition index_statements (d : database) (now : N)
    (relativePath filename ext : string) (size mtimeMs : N)
    (frontMatterText body : string) : database * bool :=
  if negb (files_has_front_matter d) then (d, false)
  else
    let '(d1, fileId) :=
      upsert_file d
        {| row_id := 0; row_path := relativePath; row_filename := filename;
           row_extension := ext; row_size := size;
           row_modified_at := mtimeMs; row_indexed_at := now;
           row_front_matter := Some frontMatterText |} in
    let d2 := set_fts d1 (delete fileId (files_fts d1)) in
    if negb (fts_has_front_matter d2) then (d2, false)
    else
      (set_fts d2
         (<[fileId := {| fts_filename := filename; fts_content := body;
                         fts_front_matter := frontMatterText |}]>
            (files_fts d2)), true).

(** [indexFile(filepath)]; every exception ends in [return false] *)
Definition indexFile (P : platform) (now : N) (ix : indexer)
    (filepath : string) (obs : fs_obs) : indexer * bool :=
  match obs with
  | Missing => (ix, false)
  | Seen size mtimeMs content =>
      let filename := Path.basename filepath None in
      let ext := toLowerCase (Path.extname filepath) in
      if negb (includes TEXT_EXTENSIONS ext) then (ix, false)
      else if (MAX_INDEXED_SIZE <? size)%N then (ix, false)
      else
        match content with
        | None => (ix, false)
        | Some content =>
            let '(frontMatterText, body) :=
              indexer_parseFrontMatter P content ext in
            let relativePath := Path.relative (cwd P) (workspaceDir ix) filepath in
            match db ix with
            | None => (ix, false)
            | Some d =>
                let '(d', ok) :=
                  index_statements d now relativePath filename ext size
                    mtimeMs frontMatterText body in
                (set_db ix d', ok)
            end
        end
  end.

(** [DELETE FROM files WHERE path = ? RETURNING id], then the FTS row *)
Definition remove_statements (d : database) (relativePath : string) : database :=
  match find_by_path relativePath (files d) with
  | Some r =>
      {| files := List.filter
                    (fun x => negb (String.eqb (row_path x) relativePath))
                    (files d);
         files_fts := delete (row_id r) (files_fts d);
         sqlite_sequence := sqlite_sequence d;
         files_has_front_matter := files_has_front_matter d;
         fts_has_front_matter := fts_has_front_matter d |}
  | None => d
  end.

(** [removeFile(filepath)] *)
Definition removeFile (P : platform) (ix : indexer) (filepath : string)
  : result indexer :=
  let relativePath := Path.relative (cwd P) (workspaceDir ix) filepath in
  match db ix with
  | None => Err TypeError
  | Some d => Ok (set_db ix (remove_statements d relativePath))
  end.

(** A directory as [readdir(dir, { withFileTypes: true })] and the calls
    below it see it. *)
Inductive dirent : Type :=
| DFile (name : string) (size mtimeMs : N) (content : option string)
| DDir (name : string) (entries : option (list dirent))   (* [None]: readdir throws *)
| DOther (name : string).                                 (* links, sockets, ... *)

Definition is_hidden (name : string) : bool := startsWith name ".".

(** [indexDirectory(dir)] *)
Fixpoint indexEntry (P : platform) (now : N) (dir : string) (e : dirent)
    (ix : indexer) : indexer :=
  match e with
  | DDir name entries =>
      let fullPath := Path.join_paths [dir; name] in
      if is_hidden name then ix
      else
        match entries with
        | None => ix
        | Some es =>
            fold_left (fun acc e' => indexEntry P now fullPath e' acc) es ix
        end
  | DFile name size mtimeMs content =>
      let fullPath := Path.join_paths [dir; name] in
      fst (indexFile P now ix fullPath (Seen size mtimeMs content))
  | DOther _ => ix
  end.

Definition indexDirectory (P : platform) (now : N) (dir : string)
    (entries : option (list dirent)) (ix : indexer) : indexer :=
  match entries with
  | None => ix
  | Some es => fold_left (fun acc e => indexEntry P now dir e acc) es ix
  end.

(** [rebuildIndex()]; [root] is the content of the workspace directory *)
Definition rebuildIndex (P : platform) (now : N) (ix : indexer)
    (root : option (list dirent)) : result indexer :=
  match db ix with
  | None => Err TypeError
  | Some d =>
      let cleared :=
        {| files := []; files_fts := ∅;
           sqlite_sequence := sqlite_sequence d;
           files_has_front_matter := files_has_front_matter d;
           fts_has_front_matter := fts_has_front_matter d |} in
      Ok (indexDirectory P now (workspaceDir ix) root (set_db ix cleared))
  end.

(** *** [search] *)

Definition str_trim_end (s : string) : string :=
  str_rev (skip_spaces (str_rev s)).

(** [s.trim()] *)
Definition trim (s : string) : string := str_trim_end (skip_spaces s).

(** [s.split(/\s+/)]; [in_gap] says that the previous character was
    part of a separator *)
Fixpoint split_spaces (in_gap : bool) (s : string) : list string :=
  match s with
  | EmptyString => [EmptyString]
  | String c s' =>
      if is_space c then
        if in_gap then split_spaces true s'
        else EmptyString :: split_spaces true s'
      else
        match split_spaces false s' with
        | w :: ws => String c w :: ws
        | [] => [String c EmptyString]
        end
  end.

Definition dquote : string := String (ascii_of_nat 34) EmptyString.

(** the FTS5 query: every term quoted and starred, joined by [OR] *)
Definition ftsQuery (query : string) : string :=
  join " OR "
    (List.map (fun term => dquote +:+ term +:+ dquote +:+ "*")
       (split_spaces false (trim query))).

(** SQLite's [LIKE]: [%] matches any run, [_] any one character, letters
    match without regard to case *)
Fixpoint like (pattern : string) : string -> bool :=
  match pattern with
  | EmptyString => fun s => String.eqb s EmptyString
  | String c pattern' =>
      if Ascii.eqb c "%"%char then
        fix any (s : string) : bool :=
          like pattern' s ||
          match s with
          | EmptyString => false
          | String _ s' => any s'
          end
      else if Ascii.eqb c "_"%char then
        fun s =>
          match s with
          | EmptyString => false
          | String _ s' => like pattern' s'
          end
      else
        fun s =>
          match s with
          | EmptyString => false
          | String d s' =>
              Ascii.eqb (lower_char c) (lower_char d) && like pattern' s'
          end
  end.

(** [SELECT path, filename, '' as snippet, 0 as rank FROM files
     WHERE filename LIKE ? OR path LIKE ? LIMIT ?] *)
Definition like_search (d : database) (query : string) (limit : nat)
  : list search_result :=
  let pattern := "%" +:+ query +:+ "%" in
  firstn limit
    (List.map
       (fun r => {| res_path := row_path r; res_filename := row_filename r;
                    res_snippet := EmptyString; res_rank := 0%Z |})
       (List.filter
          (fun r => like pattern (row_filename r) || like pattern (row_path r))
          (files d))).

Definition is_blank (query : string) : bool :=
  String.eqb query EmptyString || (String.length (trim query) =? 0)%nat.

(** [search(query, limit)]; with [this.db] null both the statement in the
    [try] block and the one in the [catch] block throw *)
Definition search (P : platform) (ix : indexer) (query : string) (limit : nat)
  : result (list search_result) :=
  if is_blank query then Ok []
  else
    match db ix with
    | None => Err TypeError
    | Some d =>
        match fts_match P d (ftsQuery query) limit with
        | Some results => Ok results
        | None => Ok (like_search d query limit)
        end
    end.

Definition DEFAULT_LIMIT : nat := 20.


(** ** The workspace store ([file-manager.js]) *)

Inductive fnode : Type :=
| FFile (content : string)
| FDir.

(** The module state and the disk.  [fs] holds the entries outside the
    metadata directory (and that directory itself) by absolute path;
    [meta_dirs] holds the directories below the metadata directory, each
    with its regular files by name; [index_builds] counts the runs of
    [buildIndex] (cache overwritten, [index.json] written, windows
    notified). *)
Record store : Type := {
  notesDir : option string;
  fs : gmap string fnode;
  meta_dirs : gmap string (gmap string string);
  searchIndexer : option indexer;
  index_builds : nat
}.

Definition set_fs (s : store) (f : gmap string fnode) : store :=
  {| notesDir := notesDir s; fs := f; meta_dirs := meta_dirs s;
     searchIndexer := searchIndexer s; index_builds := index_builds s |}.

Definition set_meta_dirs (s : store) (m : gmap string (gmap string string))
  : store :=
  {| notesDir := notesDir s; fs := fs s; meta_dirs := m;
     searchIndexer := searchIndexer s; index_builds := index_builds s |}.

Definition set_searchIndexer (s : store) (ix : option indexer) : store :=
  {| notesDir := notesDir s; fs := fs s; meta_dirs := meta_dirs s;
     searchIndexer := ix; index_builds := index_builds s |}.

(** the directories from the root down to [p] itself *)
Fixpoint path_inits (absolute : bool) (prefix : list string) (segs : list string)
  : list string :=
  match segs with
  | [] => []
  | seg :: rest =>
      let here := prefix ++ [seg] in
      ((if absolute then "/" else "") +:+ join "/" here)
        :: path_inits absolute here rest
  end.

(** [fs.mkdir(dir, { recursive: true })] outside the metadata directory:
    missing directories are created, existing entries are left alone *)
Definition mkdir_p (f : gmap string fnode) (dir : string) : gmap string fnode :=
  fold_left
    (fun acc d => match acc !! d with
                  | Some _ => acc
                  | None => <[d := FDir]> acc
                  end)
    (path_inits (Path.isAbsolute dir) [] (Path.segments dir)) f.

(** [ensureNotesDir(notesDir)] *)
Definition ensureNotesDir (s : store) : store :=
  match notesDir s with
  | None => s
  | Some nd => set_fs s (mkdir_p (fs s) nd)
  end.

(** [ensureMetaDir()] *)
Definition ensureMetaDir (s : store) : store * option string :=
  match notesDir s with
  | None => (s, None)
  | Some nd =>
      let metaDir := Path.join_paths [nd; META_DIRNAME] in
      (set_fs s (mkdir_p (fs s) metaDir), Some metaDir)
  end.

(** [filename.replace(/[\\/]/g, '_')] *)
Fixpoint safeName (filename : string) : string :=
  match filename with
  | EmptyString => EmptyString
  | String c rest =>
      String (if Ascii.eqb c chr_slash || Ascii.eqb c "\"%char then "_"%char else c)
        (safeName rest)
  end.

(** [getPreviousDir(filename)] *)
Definition getPreviousDir (s : store) (filename : string) : store * option string :=
  match ensureMetaDir s with
  | (s1, None) => (s1, None)
  | (s1, Some metaDir) =>
      let previousDir :=
        Path.join_paths [metaDir; PREVIOUS_DIRNAME; safeName filename] in
      let dirs := meta_dirs s1 in
      (set_meta_dirs s1
         (match dirs !! previousDir with
          | Some _ => dirs
          | None => <[previousDir := ∅]> dirs
          end), Some previousDir)
  end.

(** the regular files of a directory below the metadata directory *)
Definition meta_dir (s : store) (dir : string) : gmap string string :=
  default ∅ (meta_dirs s !! dir).

(** [fs.writeFile(path.join(dir, name), content)] below the metadata directory *)
Definition write_meta (s : store) (dir name content : string) : store :=
  set_meta_dirs s (<[dir := <[name := content]> (meta_dir s dir)]> (meta_dirs s)).

(** [fs.readFile(filepath, 'utf-8')] with ENOENT turned into [null] *)
Definition read_or_null (s : store) (filepath : string) : result (option string) :=
  match fs s !! filepath with
  | None => Ok None
  | Some (FFile c) => Ok (Some c)
  | Some FDir => Err EISDIR
  end.

(** [s.replace(/[:.]/g, '-')] *)
Fixpoint dashed (s : string) : string :=
  match s with
  | EmptyString => EmptyString
  | String c rest =>
      String (if Ascii.eqb c ":"%char || Ascii.eqb c chr_dot then "-"%char else c)
        (dashed rest)
  end.

(** [buildIndex()] *)
Definition buildIndex (s : store) : store :=
  match notesDir s with
  | None => s
  | Some _ =>
      let s1 := ensureNotesDir s in
      let s2 := fst (ensureMetaDir s1) in
      {| notesDir := notesDir s2; fs := fs s2; meta_dirs := meta_dirs s2;
         searchIndexer := searchIndexer s2;
         index_builds := S (index_builds s2) |}
  end.

(** what the indexer sees at a path of the store *)
Definition observe (s : store) (mtimeMs : N) (filepath : string) : fs_obs :=
  match fs s !! filepath with
  | Some (FFile c) => Seen (N.of_nat (String.length c)) mtimeMs (Some c)
  | Some FDir => Seen 0 mtimeMs None
  | None => Missing
  end.

(** the front matter given to a note that has none *)
Definition synthesized (title now : string)
    (systemDefaults userDefaults : list (string * jsval)) : jsval :=
  JObj (obj_spread
          (obj_spread
             [("title", JStr title); ("created_timestamp", JStr now);
              ("modified_timestamp", JStr now)]
             systemDefaults)
          userDefaults).

(** the front-matter policy of [writeFile] for a [.md] file *)
Definition with_front_matter (P : platform) (t : clock)
    (systemDefaults userDefaults : list (string * jsval))
    (filename ext content : string) (previousContent : option string) : string :=
  if hasFrontMatter (parseFrontMatter P content) then content
  else
    let existing :=
      match previousContent with
      | Some pc => if String.eqb pc EmptyString then None
                   else Some (parseFrontMatter P pc)
      | None => None
      end in
    match existing with
    | Some e =>
        if hasFrontMatter e then
          match data e, raw e with
          | Some d, _ => buildFrontMatter P d +:+ content
          | None, Some r => fence +:+ nl +:+ r +:+ nl +:+ fence +:+ nl +:+ nl +:+ content
          | None, None => content
          end
        else
          buildFrontMatter P
            (synthesized (Path.basename filename (Some ext)) (local_stamp t)
               systemDefaults userDefaults) +:+ content
    | None =>
        buildFrontMatter P
          (synthesized (Path.basename filename (Some ext)) (local_stamp t)
             systemDefaults userDefaults) +:+ content
    end.

(** [writeFile(filename, content)]: the new store and the content written.
    An operation that throws is modelled by its error alone. *)
Definition writeFile (P : platform) (t : clock)
    (systemDefaults userDefaults : list (string * jsval))
    (s : store) (filename content : string) : result (store * string) :=
  let s0 := ensureNotesDir s in
  let* filepath := resolveSafePath (cwd P) (notesDir s0) filename false in
  let ext := toLowerCase (Path.extname filename) in
  let* previousContent := read_or_null s0 filepath in
  let content :=
    if String.eqb ext ".md"
    then with_front_matter P t systemDefaults userDefaults filename ext
           content previousContent
    else content in
  let s1 :=
    match previousContent with
    | Some pc =>
        if negb (String.eqb pc content) then
          match getPreviousDir s0 filename with
          | (s', Some previousDir) =>
              write_meta s' previousDir (dashed (iso t) +:+ ".md") pc
          | (s', None) => s'
          end
        else s0
    | None => s0
    end in
  let s2 := set_fs s1 (<[filepath := FFile content]>
                         (mkdir_p (fs s1) (Path.dirname filepath))) in
  let s3 :=
    match searchIndexer s2 with
    | Some ix =>
        set_searchIndexer s2
          (Some (fst (indexFile P (epoch_ms t) ix filepath
                        (observe s2 (epoch_ms t) filepath))))
    | None => s2
    end in
  Ok (buildIndex s3, content).

(** [entries.sort()] on strings: ascending code-unit order *)
Fixpoint insert_sorted (x : string) (l : list string) : list string :=
  match l with
  | [] => [x]
  | y :: l' => if String.leb x y then x :: l else y :: insert_sorted x l'
  end.

Definition js_sort (l : list string) : list string :=
  fold_right insert_sorted [] l.

(** [fs.readdir(dir)] below the metadata directory *)
Definition readdir_meta (s : store) (dir : string) : list string :=
  List.map fst (map_to_list (meta_dir s dir)).

(** [undoFile(filename)]: the new store and the restored content.  The
    directory of the document is taken to exist. *)
Definition undoFile (P : platform) (t : clock) (s : store) (filename : string)
  : result (store * string) :=
  match getPreviousDir s filename with
  | (_, None) => Err NoPreviousVersions
  | (s0, Some previousDir) =>
      let entries := readdir_meta s0 previousDir in
      match entries with
      | [] => Err NoPreviousVersions
      | _ :: _ =>
          let sorted :=
            List.rev (js_sort (List.filter (fun e => endsWith e ".md") entries)) in
          match sorted with
          | [] => Err NoPreviousVersions
          | latest :: _ =>
              match meta_dir s0 previousDir !! latest with
              | None => Err ENOENT
              | Some restoredContent =>
                  let* filepath :=
                    resolveSafePath (cwd P) (notesDir s0) filename false in
                  let* currentContent := read_or_null s0 filepath in
                  let s1 :=
                    match currentContent with
                    | Some cc =>
                        if negb (String.eqb cc restoredContent)
                        then write_meta s0 previousDir
                               (dashed (iso t) +:+ "-redo.md") cc
                        else s0
                    | None => s0
                    end in
                  let s2 := set_fs s1 (<[filepath := FFile restoredContent]> (fs s1)) in
                  Ok (buildIndex s2, restoredContent)
              end
          end
      end
  end.

(** [p] is [dir] or lies below it *)
Definition under (dir p : string) : bool :=
  String.eqb p dir || startsWith p (dir +:+ "/").

(** [deleteFile(filename)]; a failure of [removeFile] is logged by the
    [catch] handler *)
Definition deleteFile (P : platform) (s : store) (filename : string)
  : result store :=
  let* filepath := resolveSafePath (cwd P) (notesDir s) filename false in
  match fs s !! filepath with
  | None => Err ENOENT
  | Some node =>
      let fs' :=
        match node with
        | FDir => filter (fun kv => under filepath (fst kv) = false) (fs s)
        | FFile _ => delete filepath (fs s)
        end in
      let s1 := set_fs s fs' in
      let s2 :=
        match searchIndexer s1 with
        | Some ix =>
            match removeFile P ix filepath with
            | Ok ix' => set_searchIndexer s1 (Some ix')
            | Err _ => s1
            end
        | None => s1
        end in
      Ok (buildIndex s2)
  end.

(** the decimal digits of a counter, as a template literal prints them *)
Definition digit (n : nat) : ascii := ascii_of_nat (48 + n).

Fixpoint decimal_fuel (fuel n : nat) (acc : string) : string :=
  match fuel with
  | O => acc
  | S fuel' =>
      let acc' := String (digit (n mod 10)) acc in
      if (n / 10 =? 0)%nat then acc' else decimal_fuel fuel' (n / 10) acc'
  end.

Definition decimal (n : nat) : string := decimal_fuel (S n) n EmptyString.

(** the name tried at a given counter value *)
Definition numbered (dir base ext : string) (counter : nat) : string :=
  Path.join_paths [dir; base +:+ " (" +:+ decimal counter +:+ ")" +:+ ext].

(** the [while (true)] loop of [getUniquePath]; [None] when [fuel]
    iterations have not reached the [return] *)
Fixpoint getUniquePath_loop (fuel : nat) (f : gmap string fnode)
    (dir base ext candidate : string) (counter : nat) : option string :=
  match fuel with
  | O => None
  | S fuel' =>
      match f !! candidate with
      | Some _ =>
          getUniquePath_loop fuel' f dir base ext
            (numbered dir base ext counter) (S counter)
      | None => Some candidate
      end
  end.

Definition getUniquePath (fuel : nat) (f : gmap string fnode)
    (targetPath : string) : option string :=
  let dir := Path.dirname targetPath in
  let ext := Path.extname targetPath in
  let base := Path.basename targetPath (Some ext) in
  getUniquePath_loop fuel f dir base ext targetPath 1.

(** [importFile(sourcePath, targetDir)]: the new store and the relative
    path returned; [None] when the loop of [getUniquePath] needs more
    than [fuel] iterations *)
Definition importFile (P : platform) (fuel : nat) (s : store)
    (sourcePath targetDir : string) : option (result (store * string)) :=
  match notesDir s with
  | None => Some (Err NoFolderOpen)
  | Some nd =>
      if String.eqb sourcePath EmptyString then Some (Err InvalidSourcePath)
      else
        match (if String.eqb targetDir EmptyString then Ok nd
               else resolveSafePath (cwd P) (notesDir s) targetDir false) with
        | Err e => Some (Err e)
        | Ok safeTargetDir =>
            let baseName := Path.basename sourcePath None in
            match getUniquePath fuel (fs s)
                    (Path.join_paths [safeTargetDir; baseName]) with
            | None => None
            | Some targetPath =>
                let f1 := mkdir_p (fs s) (Path.dirname targetPath) in
                match f1 !! sourcePath with
                | None => Some (Err ENOENT)
                | Some FDir => Some (Err EISDIR)
                | Some (FFile c) =>
                    let s1 := set_fs s (<[targetPath := FFile c]> f1) in
                    Some (Ok (buildIndex s1,
                              Path.relative (cwd P) nd targetPath))
                end
            end
        end
  end.

(** ** The change watcher ([startWatcher]) *)

Definition DEBOUNCE_MS : nat := 250.

(** The event loop around the watcher: the store, the time in
    milliseconds, the pending timeouts ([id] to due time), the next
    timeout id and the module variable [watcherTimer]. *)
Record app : Type := {
  app_store : store;
  app_now : nat;
  timers : gmap nat nat;
  next_timer : nat;
  watcherTimer : option nat
}.

(** the timeouts due at [t] run their callback, [buildIndex()], and time
    moves on to [t] *)
Definition advance (a : app) (t : nat) : app :=
  let due := filter (fun kv => snd kv <= t) (timers a) in
  {| app_store := Nat.iter (size due) buildIndex (app_store a);
     app_now := Nat.max (app_now a) t;
     timers := filter (fun kv => ~ snd kv <= t) (timers a);
     next_timer := next_timer a;
     watcherTimer := watcherTimer a |}.

(** the listener passed to [fs.watch] *)
Definition on_watch_event (P : platform) (a : app) (filename : option string)
  : app :=
  match filename, notesDir (app_store a) with
  | Some f, Some nd =>
      if String.eqb f EmptyString then a
      else
        let targetPath := Path.join_paths [nd; f] in
        if isMetaPath (cwd P) nd targetPath then a
        else
          let cleared :=
            match watcherTimer a with
            | Some id => delete id (timers a)
            | None => timers a
            end in
          {| app_store := app_store a;
             app_now := app_now a;
             timers := <[next_timer a := app_now a + DEBOUNCE_MS]> cleared;
             next_timer := S (next_timer a);
             watcherTimer := Some (next_timer a) |}
  | _, _ => a
  end.

(** a file-system event reported at time [fst ev] *)
Definition deliver (P : platform) (a : app) (ev : nat * option string) : app :=
  on_watch_event P (advance a (fst ev)) (snd ev).

Definition run_events (P : platform) (a : app) (evs : list (nat * option string))
  : app :=
  fold_left (deliver P) evs a.

(** ** Vocabulary of the properties *)

Definition row_ids (d : database) : list N := List.map row_id (files d).
Definition row_paths (d : database) : list string := List.map row_path (files d).

(** the constraints of the schema: [id] is the primary key, [path] is UNIQUE *)
Definition keys_unique (d : database) : Prop :=
  NoDup (row_ids d) /\ NoDup (row_paths d).

(** the ids of [files] are the rowids of [files_fts] *)
Definition fts_consistent (d : database) : Prop :=
  dom (files_fts d) = (list_to_set (row_ids d) : gset N).

Definition current_schema (d : database) : Prop :=
  files_has_front_matter d = true /\ fts_has_front_matter d = true.

Definition index_ok (d : database) : Prop :=
  keys_unique d /\ current_schema d /\ fts_consistent d.

Definition indexer_ok (ix : indexer) : Prop :=
  exists d, db ix = Some d /\ index_ok d.

(** A regular file met below the workspace root: its path, the names of
    the directories that lead to it, its own name, size and content. *)
Record candidate : Type := {
  c_path : string;
  c_dirs : list string;
  c_name : string;
  c_size : N;
  c_content : option string
}.

Fixpoint entry_files (dir : string) (dirs : list string) (e : dirent)
  : list candidate :=
  match e with
  | DFile name size _ content =>
      [{| c_path := Path.join_paths [dir; name]; c_dirs := dirs;
          c_name := name; c_size := size; c_content := content |}]
  | DDir name (Some es) =>
      flat_map (entry_files (Path.join_paths [dir; name]) (dirs ++ [name])) es
  | DDir _ None => []
  | DOther _ => []
  end.

Definition workspace_files (ws : string) (root : option (list dirent))
  : list candidate :=
  match root with
  | Some es => flat_map (entry_files ws []) es
  | None => []
  end.

Definition recognized (path : string) : bool :=
  includes TEXT_EXTENSIONS (toLowerCase (Path.extname path)).

Definition readable (c : candidate) : bool :=
  match c_content c with
  | Some _ => true
  | None => false
  end.

(** the files the walk of [rebuildIndex] indexes: no directory above them
    is dot-named, the extension is recognized, the size is at most 1 MiB
    and the file can be read *)
Definition indexed_by_walk (c : candidate) : bool :=
  negb (existsb is_hidden (c_dirs c)) && recognized (c_path c)
  && (c_size c <=? MAX_INDEXED_SIZE)%N && readable c.

(** the files named by the specification: not hidden (neither the file
    nor a directory above it), outside the metadata subtree, recognized
    extension, at most 1 MiB *)
Definition eligible_by_spec (c : candidate) : bool :=
  negb (existsb is_hidden (c_dirs c)) && negb (is_hidden (c_name c))
  && negb (includes (c_dirs c) META_DIRNAME)
  && recognized (c_path c) && (c_size c <=? MAX_INDEXED_SIZE)%N.

Definition relative_paths (P : platform) (ws : string) (cs : list candidate)
  : list string :=
  List.map (fun c => Path.relative (cwd P) ws (c_path c)) cs.

(** ** Sample data for the worked examples *)

(** a platform whose YAML library knows one document and whose FTS5
    statement always throws *)
Definition sample_platform : platform :=
  {| yaml_load := fun s => if String.eqb s "title: x"
                           then Some (JObj [("title", JStr "x")]) else None;
     yaml_dump := fun _ => "title: x" +:+ nl;
     json_stringify := fun _ => "{}";
     fts_match := fun _ _ _ => None;
     cwd := "/" |}.

Definition fresh_indexer : indexer := initialize (newIndexer "/ws") None.

(** a database written by a release whose FTS table had no
    [front_matter] column *)
Definition old_database : database :=
  {| files := [{| row_id := 1; row_path := "a.md"; row_filename := "a.md";
                  row_extension := ".md"; row_size := 5;
                  row_modified_at := 0; row_indexed_at := 0;
                  row_front_matter := None |}];
     files_fts := {[ 1%N := {| fts_filename := "a.md"; fts_content := "hello";
                               fts_front_matter := "" |} ]};
     sqlite_sequence := 1;
     files_has_front_matter := false;
     fts_has_front_matter := false |}.

Definition hidden_note_root : option (list dirent) :=
  Some [DFile ".todo.md" 5 0 (Some "hello")].

Definition sample_root : option (list dirent) :=
  Some [DFile "a.md" 5 0 (Some "hello");
        DFile "big.txt" 2000000 0 (Some "");
        DFile "photo.png" 10 0 (Some "");
        DDir ".x0v3rt" (Some [DFile "index.json" 2 0 (Some "{}")]);
        DDir "sub" (Some [DFile "b.txt" 3 0 (Some "abc");
                          DFile ".env.json" 2 0 (Some "{}")])].

(** a query made of white space only *)
Fixpoint all_spaces (s : string) : bool :=
  match s with
  | EmptyString => true
  | String c s' => is_space c && all_spaces s'
  end.

(** ** Vocabulary of the path properties *)

Fixpoint has_char (c : ascii) (s : string) : bool :=
  match s with
  | EmptyString => false
  | String d s' => Ascii.eqb d c || has_char c s'
  end.

(** a directory or file name: not empty, no separator, neither [.] nor [..] *)
Definition plain_name (s : string) : bool :=
  negb (String.eqb s "") && negb (has_char chr_slash s)
  && negb (String.eqb s ".") && negb (String.eqb s "..").

(** the root is an absolute path in normal form *)
Definition normalized_root (nd : string) : bool :=
  String.eqb nd ("/" +:+ join "/" (Path.segments nd))
  && forallb plain_name (Path.segments nd).

(** a segment as [normalizeString] leaves it: not empty, no separator *)
Definition seg_ok (w : string) : Prop :=
  w <> EmptyString /\ has_char chr_slash w = false.

Definition has_dotdot_segment (p : string) : bool :=
  includes (split chr_slash p) "..".

Fixpoint segs_prefix (r s : list string) : bool :=
  match r, s with
  | [], _ => true
  | x :: r', y :: s' => String.eqb x y && segs_prefix r' s'
  | _ :: _, [] => false
  end.

(** [p] is [root] or lies below it, segment by segment *)
Definition descendant (root p : string) : bool :=
  segs_prefix (Path.segments root) (Path.segments p).

(** [s] leaves [r] at its last segment, for a name that starts with that
    segment and goes on (a sibling such as [notes-old] of [notes]) *)
Fixpoint continues_last (r s : list string) : bool :=
  match r, s with
  | [x], y :: _ => startsWith y x && negb (String.eqb x y)
  | x :: r', y :: s' => String.eqb x y && continues_last r' s'
  | _, _ => false
  end.

Definition sample_store : store :=
  {| notesDir := Some "/ws"; fs := {[ "/ws" := FDir ]}; meta_dirs := ∅;
     searchIndexer := Some fresh_indexer; index_builds := 0 |}.

Definition clock_at (second : string) (ms : N) : clock :=
  {| iso := "2026-01-01T00:00:" +:+ second +:+ ".000Z"; epoch_ms := ms;
     local_stamp := "2026-01-01 0000" |}.

(** [s.includes(p)] on text *)
Fixpoint occurs (p s : string) : bool :=
  startsWith s p ||
  match s with
  | EmptyString => false
  | String _ s' => occurs p s'
  end.

(** the first character of [s], if any, is white space *)
Definition starts_with_space (s : string) : bool :=
  match s with
  | String c _ => is_space c
  | EmptyString => false
  end.

(** ** Vocabulary of the version store *)

(** the directory of the snapshots of [filename] *)
Definition previousDir_of (nd filename : string) : string :=
  Path.join_paths [Path.join_paths [nd; META_DIRNAME]; PREVIOUS_DIRNAME;
                   safeName filename].

(** the store before the write is committed: the snapshot, if one is due *)
Definition snapshot_step (t : clock) (s0 : store) (filename : string)
    (previousContent : option string) (content : string) : store :=
  match previousContent with
  | Some pc =>
      if negb (String.eqb pc content) then
        match getPreviousDir s0 filename with
        | (s', Some previousDir) =>
            write_meta s' previousDir (dashed (iso t) +:+ ".md") pc
        | (s', None) => s'
        end
      else s0
  | None => s0
  end.

(** [name] sorts after every [.md] entry of a snapshot directory: the
    clock has moved on since the snapshots in it were taken *)
Definition newest (name : string) (entries : list string) : bool :=
  forallb (fun e => negb (endsWith e ".md") || String.ltb e name) entries.

Definition store_of (r : result (store * string)) : store :=
  match r with
  | Ok (s, _) => s
  | Err _ => sample_store
  end.

Definition sample_written_once : store :=
  store_of (writeFile sample_platform (clock_at "01" 1) [] [] sample_store
              "a.txt" "X").

Definition sample_written_twice : store :=
  store_of (writeFile sample_platform (clock_at "02" 2) [] []
              sample_written_once "a.txt" "Y").

(** ** Vocabulary of the watcher properties *)

(** an event the listener acts on: a file name is given and the path is
    no metadata path *)
Definition qualifies (P : platform) (nd : string) (filename : option string)
  : bool :=
  match filename with
  | Some f =>
      negb (String.eqb f EmptyString)
      && negb (isMetaPath (cwd P) nd (Path.join_paths [nd; f]))
  | None => false
  end.

(** a burst after an event at [prev]: every event qualifies and comes
    less than 250 ms after the one before *)
Fixpoint burst (P : platform) (nd : string) (prev : nat)
    (evs : list (nat * option string)) : bool :=
  match evs with
  | [] => true
  | (t, f) :: rest =>
      (prev <=? t)%nat && (t <? prev + DEBOUNCE_MS)%nat && qualifies P nd f
      && burst P nd t rest
  end.

Definition last_time (prev : nat) (evs : list (nat * option string)) : nat :=
  List.last (List.map fst evs) prev.

Definition import_store : store :=
  {| notesDir := Some "/ws";
     fs := {[ "/ws" := FDir; "/ws/a.txt" := FFile "old";
              "/ws/a (1).txt" := FFile "older"; "/src/a.txt" := FFile "new" ]};
     meta_dirs := ∅; searchIndexer := None; index_builds := 0 |}.

Definition idle_app : app :=
  {| app_store := sample_store; app_now := 0; timers := ∅; next_timer := 0;
     watcherTimer := None |}.

(** one timeout is pending, set by an event at time [t] *)
Definition armed (a : app) (t : nat) : Prop :=
  exists id, timers a = {[ id := t + DEBOUNCE_MS ]} /\ watcherTimer a = Some id
             /\ app_now a = t.

Definition sample_indexed : indexer :=
  fst (indexFile sample_platform 1 fresh_indexer "/ws/recon.md"
         (Seen 28 0 (Some "Found open port 22 on target"))).

Definition sample_database : database :=
  default empty_database (db sample_indexed).

(** ** Vocabulary of the [LIKE] fallback *)

(** [q] is at the head of [s], letters compared without regard to case *)
Fixpoint starts_ci (s q : string) : bool :=
  match q with
  | EmptyString => true
  | String c q' =>
      match s with
      | EmptyString => false
      | String d s' =>
          Ascii.eqb (lower_char c) (lower_char d) && starts_ci s' q'
      end
  end.

(** [q] occurs in [s], letters compared without regard to case *)
Fixpoint occurs_ci (q s : string) : bool :=
  starts_ci s q ||
  match s with
  | EmptyString => false
  | String _ s' => occurs_ci q s'
  end.

(** [q] has none of the wildcards of [LIKE] *)
Fixpoint no_wildcards (q : string) : bool :=
  match q with
  | EmptyString => true
  | String c q' =>
      negb (Ascii.eqb c "%"%char) && negb (Ascii.eqb c "_"%char)
      && no_wildcards q'
  end.

(** * Further operations and their vocabulary *)

(** ** The search index, record by record *)

(** the full-text row held for the record of path [rel] *)
Definition indexed_row (d : database) (rel : string) : option fts_row :=
  match find_by_path rel (files d) with
  | Some r => files_fts d !! row_id r
  | None => None
  end.

(** the row of [files] as the fallback query of [search] returns it *)
Definition fallback_result (r : file_row) : search_result :=
  {| res_path := row_path r; res_filename := row_filename r;
     res_snippet := EmptyString; res_rank := 0%Z |}.

Fixpoint has_space (s : string) : bool :=
  match s with
  | EmptyString => false
  | String c s' => is_space c || has_space s'
  end.

(** a search term as FTS5 can take it between quotes: not empty, no
    white space *)
Definition is_word (w : string) : bool :=
  negb (String.eqb w EmptyString) && negb (has_space w).

(** the last character of [s] exists and is no white space *)
Fixpoint ends_in_word (s : string) : bool :=
  match s with
  | EmptyString => false
  | String c EmptyString => negb (is_space c)
  | String _ s' => ends_in_word s'
  end.

(** ** Creating, moving and reading files
       ([createFile], [createFolder], [moveFile], [readFile]) *)

(** What these operations throw: one of the errors above, an [Error] with
    another message, or a file-system error with another code. *)
Inductive exn : Type :=
| Thrown (e : error)
| Message (text : string)
| Errno (code : string).

Inductive attempt (A : Type) : Type :=
| Done (a : A)
| Throws (e : exn).
Arguments Done {A} a.
Arguments Throws {A} e.

(** the directories above [p], from the root down *)
Definition ancestors (p : string) : list string :=
  removelast (path_inits (Path.isAbsolute p) [] (Path.segments p)).

(** a directory above [p] is a regular file *)
Definition blocked (f : gmap string fnode) (p : string) : bool :=
  existsb (fun d => match f !! d with
                    | Some (FFile _) => true
                    | _ => false
                    end) (ancestors p).

(** [fs.access(p)] outside the metadata directory: the root is always
    there; a path that crosses a regular file gives ENOTDIR *)
Definition access (f : gmap string fnode) (p : string) : attempt unit :=
  if String.eqb p "/" then Done tt
  else
    match f !! p with
    | Some _ => Done tt
    | None => if blocked f p then Throws (Errno "ENOTDIR")
              else Throws (Thrown ENOENT)
    end.

(** [createFile(filename)]: the new store and the name returned *)
Definition createFile (P : platform) (t : clock)
    (systemDefaults userDefaults : list (string * jsval))
    (s : store) (filename : string) : attempt (store * string) :=
  match notesDir s with
  | None => Throws (Thrown NoFolderOpen)
  | Some _ =>
      let filename :=
        if endsWith filename ".md" then filename else filename +:+ ".md" in
      let s0 := ensureNotesDir s in
      match resolveSafePath (cwd P) (notesDir s0) filename false with
      | Err e => Throws (Thrown e)
      | Ok filepath =>
          match access (fs s0) filepath with
          | Done _ => Throws (Message "File already exists")
          | Throws (Thrown ENOENT) =>
              let ext := toLowerCase (Path.extname filename) in
              let content :=
                buildFrontMatter P
                  (synthesized (Path.basename filename (Some ext))
                     (local_stamp t) systemDefaults userDefaults) in
              let s1 :=
                set_fs s0 (<[filepath := FFile content]>
                             (mkdir_p (fs s0) (Path.dirname filepath))) in
              Done (buildIndex s1, filename)
          | Throws e => Throws e
          end
      end
  end.

(** [createFolder(folderName)] *)
Definition createFolder (P : platform) (s : store) (folderName : string)
  : attempt (store * string) :=
  match notesDir s with
  | None => Throws (Thrown NoFolderOpen)
  | Some _ =>
      if String.eqb folderName EmptyString
      then Throws (Message "Invalid folder name")
      else
        let s0 := ensureNotesDir s in
        match resolveSafePath (cwd P) (notesDir s0) folderName false with
        | Err e => Throws (Thrown e)
        | Ok folderPath =>
            match access (fs s0) folderPath with
            | Done _ => Throws (Message "Folder already exists")
            | Throws (Thrown ENOENT) =>
                Done (buildIndex (set_fs s0 (mkdir_p (fs s0) folderPath)),
                      folderName)
            | Throws e => Throws e
            end
        end
  end.

(** [fs.rename(source, target)] with [target] free: a regular file changes
    its path; a directory takes everything below it along, and cannot be
    moved below itself *)
Definition rename (f : gmap string fnode) (source target : string)
  : attempt (gmap string fnode) :=
  match f !! source with
  | None => Throws (Thrown ENOENT)
  | Some (FFile c) => Done (<[target := FFile c]> (delete source f))
  | Some FDir =>
      if under source target then Throws (Errno "EINVAL")
      else
        Done (list_to_map
                (List.map
                   (fun kv =>
                      (if under source (fst kv)
                       then target +:+ drop_str (String.length source) (fst kv)
                       else fst kv, snd kv))
                   (map_to_list f)))
  end.

(** [moveFile(sourcePath, targetPath)]: the new store and the relative
    path returned.  [mtimeMs] is the modification time that [fs.stat]
    reports for the moved entry.  The failures of [removeFile] and of
    [indexFile] are swallowed by the [catch] handlers. *)
Definition moveFile (P : platform) (t : clock) (mtimeMs : N) (s : store)
    (sourcePath targetPath : string) : attempt (store * string) :=
  match notesDir s with
  | None => Throws (Thrown NoFolderOpen)
  | Some nd =>
      match (if Path.isAbsolute sourcePath then Ok sourcePath
             else resolveSafePath (cwd P) (notesDir s) sourcePath false) with
      | Err e => Throws (Thrown e)
      | Ok resolvedSource =>
          match (if Path.isAbsolute targetPath then Ok targetPath
                 else resolveSafePath (cwd P) (notesDir s) targetPath false) with
          | Err e => Throws (Thrown e)
          | Ok resolvedTarget =>
              match access (fs s) resolvedSource with
              | Throws _ => Throws (Message "Source file does not exist")
              | Done _ =>
                  match access (fs s) resolvedTarget with
                  | Done _ => Throws (Message "Target file already exists")
                  | Throws (Thrown ENOENT) =>
                      match rename (mkdir_p (fs s) (Path.dirname resolvedTarget))
                              resolvedSource resolvedTarget with
                      | Throws e => Throws e
                      | Done f' =>
                          let s1 := set_fs s f' in
                          let s2 :=
                            match searchIndexer s1 with
                            | Some ix =>
                                let ix1 :=
                                  match removeFile P ix resolvedSource with
                                  | Ok ix' => ix'
                                  | Err _ => ix
                                  end in
                                set_searchIndexer s1
                                  (Some (fst (indexFile P (epoch_ms t) ix1
                                                resolvedTarget
                                                (observe s1 mtimeMs resolvedTarget))))
                            | None => s1
                            end in
                          Done (buildIndex s2,
                                Path.relative (cwd P) nd resolvedTarget)
                      end
                  | Throws e => Throws e
                  end
              end
          end
      end
  end.

(** [fs.readFile(filepath, 'utf-8')] anywhere in the store: outside the
    metadata directory, or a regular file of a directory below it *)
Definition read_path (s : store) (filepath : string) : attempt string :=
  match fs s !! filepath with
  | Some (FFile c) => Done c
  | Some FDir => Throws (Thrown EISDIR)
  | None =>
      match meta_dirs s !! filepath with
      | Some _ => Throws (Thrown EISDIR)
      | None =>
          match meta_dir s (Path.dirname filepath)
                  !! Path.basename filepath None with
          | Some c => Done c
          | None => if blocked (fs s) filepath then Throws (Errno "ENOTDIR")
                    else Throws (Thrown ENOENT)
          end
      end
  end.

(** [readFile(filename, options)]; [allowMeta] is [options.allowMeta] *)
Definition readFile (P : platform) (s : store) (filename : string)
    (allowMeta : bool) : attempt string :=
  match resolveSafePath (cwd P) (notesDir s) filename allowMeta with
  | Err e => Throws (Thrown e)
  | Ok filepath => read_path s filepath
  end.

(** the reply of the [file:read] IPC handler: the text, or
    [{ missing: true }] *)
Inductive read_reply : Type :=
| Text (content : string)
| MissingFile.

Definition handle_file_read (P : platform) (s : store) (filename : string)
    (allowMeta : bool) : attempt read_reply :=
  match readFile P s filename allowMeta with
  | Done c => Done (Text c)
  | Throws (Thrown ENOENT) => Done MissingFile
  | Throws e => Throws e
  end.

(** the directories that [buildIndex] makes sure of: the workspace
    directory, its metadata directory and the directories above them *)
Definition workspace_dirs (nd : string) : list string :=
  path_inits (Path.isAbsolute nd) [] (Path.segments nd)
  ++ (let metaDir := Path.join_paths [nd; META_DIRNAME] in
      path_inits (Path.isAbsolute metaDir) [] (Path.segments metaDir)).

(** the workspace is open and these directories exist *)
Definition workspace_ready (s : store) (nd : string) : bool :=
  match notesDir s with
  | Some nd' => String.eqb nd' nd
  | None => false
  end
  && forallb (fun d => match fs s !! d with
                       | Some FDir => true
                       | _ => false
                       end) (workspace_dirs nd).

(** a workspace with two indexed notes, its index built *)
Definition notes_indexer : indexer :=
  fst (indexFile sample_platform 1
         (fst (indexFile sample_platform 1 fresh_indexer "/ws/a.md"
                 (Seen 5 0 (Some "alpha"))))
         "/ws/b.md" (Seen 4 0 (Some "beta"))).


Definition notes_store : store :=
  {| notesDir := Some "/ws";
     fs := {[ "/ws" := FDir; "/ws/.x0v3rt" := FDir;
              "/ws/a.md" := FFile "alpha"; "/ws/b.md" := FFile "beta" ]};
     meta_dirs := ∅; searchIndexer := Some notes_indexer;
     index_builds := 1 |}.

(** ** Names of pasted images ([sanitizeFilename]) *)

(** the class [[a-z0-9-_]] under the [i] flag *)
Definition is_name_char (c : ascii) : bool :=
  let n := nat_of_ascii c in
  ((97 <=? n)%nat && (n <=? 122)%nat) || ((65 <=? n)%nat && (n <=? 90)%nat)
  || ((48 <=? n)%nat && (n <=? 57)%nat)
  || Ascii.eqb c "-"%char || Ascii.eqb c "_"%char.

(** the class [[-_]] *)
Definition is_edge_char (c : ascii) : bool :=
  Ascii.eqb c "-"%char || Ascii.eqb c "_"%char.

(** [.replace(/[^a-z0-9-_]+/gi, '-')]; [in_run] says that the previous
    character was part of a run that has been replaced *)
Fixpoint replace_others (in_run : bool) (s : string) : string :=
  match s with
  | EmptyString => EmptyString
  | String c s' =>
      if is_name_char c then String c (replace_others false s')
      else if in_run then replace_others true s'
      else String "-"%char (replace_others true s')
  end.

(** [.replace(/-+/g, '-')] *)
Fixpoint squeeze_dashes (in_run : bool) (s : string) : string :=
  match s with
  | EmptyString => EmptyString
  | String c s' =>
      if Ascii.eqb c "-"%char then
        if in_run then squeeze_dashes true s'
        else String "-"%char (squeeze_dashes true s')
      else String c (squeeze_dashes false s')
  end.

(** the alternative [^[-_]+] *)
Fixpoint strip_head (s : string) : string :=
  match s with
  | String c s' => if is_edge_char c then strip_head s' else s
  | EmptyString => EmptyString
  end.

(** the alternative [[-_]+$] *)
Fixpoint strip_tail (s : string) : string :=
  match s with
  | EmptyString => EmptyString
  | String c s' =>
      let r := strip_tail s' in
      if String.eqb r EmptyString && is_edge_char c then EmptyString
      else String c r
  end.

(** [sanitizeFilename(input)] for a string *)
Definition sanitizeFilename (input : string) : string :=
  let cleaned :=
    strip_tail (strip_head (squeeze_dashes false (replace_others false input))) in
  if String.eqb cleaned EmptyString then "image" else cleaned.

Fixpoint all_name_chars (s : string) : bool :=
  match s with
  | EmptyString => true
  | String c s' => is_name_char c && all_name_chars s'
  end.

(** a letter or a digit *)
Definition is_alnum (c : ascii) : bool :=
  is_name_char c && negb (is_edge_char c).

Definition first_char (s : string) : option ascii :=
  match s with
  | String c _ => Some c
  | EmptyString => None
  end.

Fixpoint last_char (s : string) : option ascii :=
  match s with
  | EmptyString => None
  | String c EmptyString => Some c
  | String _ s' => last_char s'
  end.

(** ** Stopping the watcher ([stopWatcher]) *)

(** [stopWatcher()]: the watcher is closed (no event is delivered any
    more) and the pending timeout, if there is one, is cleared *)
Definition stopWatcher (a : app) : app :=
  match watcherTimer a with
  | Some id =>
      {| app_store := app_store a; app_now := app_now a;
         timers := delete id (timers a); next_timer := next_timer a;
         watcherTimer := None |}
  | None => a
  end.

(** ** The file tree ([scanDir], [flattenFiles]) *)

Inductive tree : Type :=
| TFile (name path : string)                           (* type: 'file' *)
| TFolder (name path : string) (children : list tree). (* type: 'folder' *)

Definition is_folder (t : tree) : bool :=
  match t with
  | TFolder _ _ _ => true
  | TFile _ _ => false
  end.

Definition tree_name (t : tree) : string :=
  match t with
  | TFolder name _ _ => name
  | TFile name _ => name
  end.

(** the comparator given to [children.sort]: folders first, then
    [a.name.localeCompare(b.name, undefined, { numeric: true })], the
    collation being the platform's *)
Definition compare_children (localeCompare : string -> string -> comparison)
    (a b : tree) : comparison :=
  if negb (Bool.eqb (is_folder a) (is_folder b))
  then (if is_folder a then Lt else Gt)
  else localeCompare (tree_name a) (tree_name b).

(** [children.sort(cmp)]: a stable sort *)
Fixpoint insert_child (cmp : tree -> tree -> comparison) (x : tree)
    (l : list tree) : list tree :=
  match l with
  | [] => [x]
  | y :: l' =>
      match cmp x y with
      | Gt => y :: insert_child cmp x l'
      | _ => x :: l
      end
  end.

Definition sort_children (cmp : tree -> tree -> comparison) (l : list tree)
  : list tree :=
  fold_right (insert_child cmp) [] l.

Definition dirent_name (e : dirent) : string :=
  match e with
  | DFile name _ _ _ => name
  | DDir name _ => name
  | DOther name => name
  end.

(** the error of a [readdir] that fails; its code is not modelled, EACCES
    stands for it *)
Definition readdir_error : exn := Errno "EACCES".

(** [relativePath ? path.join(relativePath, entry.name) : entry.name] *)
Definition child_path (relativePath name : string) : string :=
  if String.eqb relativePath EmptyString then name
  else Path.join_paths [relativePath; name].

(** the node that [scanDir] returns for a directory *)
Definition folder_node (localeCompare : string -> string -> comparison)
    (relativePath : string) (children : list tree) : tree :=
  TFolder (if String.eqb relativePath EmptyString then EmptyString
           else Path.basename relativePath None)
    relativePath
    (sort_children (compare_children localeCompare) children).

(** one turn of the loop of [scanDir] over the entries of the directory
    whose relative path is [relativePath]: the nodes pushed on
    [children] (none when the entry is skipped) *)
Fixpoint scanEntry (localeCompare : string -> string -> comparison)
    (includeHidden includeMeta : bool) (relativePath : string) (e : dirent)
  : attempt (list tree) :=
  let name := dirent_name e in
  if String.eqb name META_DIRNAME && negb includeMeta then Done []
  else if negb includeHidden && startsWith name "." then Done []
  else
    let relPath := child_path relativePath name in
    match e with
    | DDir _ (Some es) =>
        match (fix scanAll (es : list dirent) : attempt (list tree) :=
                 match es with
                 | [] => Done []
                 | e' :: rest =>
                     match scanEntry localeCompare includeHidden includeMeta
                             relPath e' with
                     | Throws x => Throws x
                     | Done nodes =>
                         match scanAll rest with
                         | Throws x => Throws x
                         | Done more => Done (nodes ++ more)
                         end
                     end
                 end) es with
        | Throws x => Throws x
        | Done children => Done [folder_node localeCompare relPath children]
        end
    | DDir _ None => Throws readdir_error
    | DFile _ _ _ _ | DOther _ => Done [TFile name relPath]
    end.

(** the loop of [scanDir] *)
Fixpoint scanEntries (localeCompare : string -> string -> comparison)
    (includeHidden includeMeta : bool) (relativePath : string)
    (es : list dirent) : attempt (list tree) :=
  match es with
  | [] => Done []
  | e :: rest =>
      match scanEntry localeCompare includeHidden includeMeta relativePath e with
      | Throws x => Throws x
      | Done nodes =>
          match scanEntries localeCompare includeHidden includeMeta
                  relativePath rest with
          | Throws x => Throws x
          | Done more => Done (nodes ++ more)
          end
      end
  end.

(** [scanDir(dirPath, relativePath, options)]; [entries] is what
    [readdir] gives for [dirPath] and below *)
Definition scanDir (localeCompare : string -> string -> comparison)
    (includeHidden includeMeta : bool) (relativePath : string)
    (entries : option (list dirent)) : attempt tree :=
  match entries with
  | None => Throws readdir_error
  | Some es =>
      match scanEntries localeCompare includeHidden includeMeta
              relativePath es with
      | Throws x => Throws x
      | Done children => Done (folder_node localeCompare relativePath children)
      end
  end.

(** [flattenFiles(tree)]; only folder nodes are passed to it *)
Fixpoint flattenFiles (t : tree) : list string :=
  match t with
  | TFolder _ _ children =>
      flat_map (fun child => match child with
                             | TFile _ p => [p]
                             | TFolder _ _ _ => flattenFiles child
                             end) children
  | TFile _ _ => []
  end.

(** *** Vocabulary of the listing *)

(** an entry that is no directory, met below the root: the relative path
    that [scanDir] builds for it, the names of the directories that lead
    to it and its own name *)
Record leaf : Type := {
  l_path : string;
  l_dirs : list string;
  l_name : string
}.

Fixpoint leaves (relativePath : string) (dirs : list string) (e : dirent)
  : list leaf :=
  match e with
  | DDir name (Some es) =>
      flat_map (leaves (child_path relativePath name) (dirs ++ [name])) es
  | DDir _ None => []
  | DFile name _ _ _ | DOther name =>
      [{| l_path := child_path relativePath name; l_dirs := dirs;
          l_name := name |}]
  end.

(** a name that the options let through *)
Definition shown (includeHidden includeMeta : bool) (name : string) : bool :=
  negb (String.eqb name META_DIRNAME && negb includeMeta)
  && negb (negb includeHidden && startsWith name ".").

(** every name on the way to the entry, and its own, is let through *)
Definition visible (includeHidden includeMeta : bool) (l : leaf) : bool :=
  forallb (shown includeHidden includeMeta) (l_dirs l ++ [l_name l]).

(** no file comes before a folder *)
Fixpoint folders_first (l : list tree) : bool :=
  match l with
  | [] => true
  | x :: l' =>
      (is_folder x || forallb (fun y => negb (is_folder y)) l')
      && folders_first l'
  end.

Fixpoint all_folders_first (t : tree) : bool :=
  match t with
  | TFile _ _ => true
  | TFolder _ _ children =>
      folders_first children && forallb all_folders_first children
  end.

(** a collation for the examples: code-unit order *)
Definition unit_order (a b : string) : comparison := String.compare a b.

(** the paths that a child of a folder node contributes to [flattenFiles] *)
Definition node_files (child : tree) : list string :=
  match child with
  | TFile _ p => [p]
  | TFolder _ _ _ => flattenFiles child
  end.

(** ** Vocabulary of repeated undo *)

(** [name] is the entry that [undoFile] picks: it is a [.md] entry and
    every other [.md] entry sorts before it *)
Definition latest (name : string) (entries : list string) : bool :=
  includes entries name && endsWith name ".md"
  && forallb (fun e => negb (endsWith e ".md") || String.eqb e name
                       || String.ltb e name) entries.

(** ** Chat sessions ([readChatHistory], [searchChatHistory])

    A session is a JSON file of the chat directory, below the metadata
    directory.  [JSON.parse] is given as a function ([None] when it
    throws); numbers that come with the options are integers. *)























(** *** Sample session *)





(** ** Vocabulary of the paths made of plain names *)

(** [a] is not the empty string: the test of [filter] in [join] and in
    the segments of a path *)
Definition nonempty (a : string) : bool := negb (String.eqb a "").

(** the absolute path of the segments [S] *)
Definition rooted (S : list string) : string := "/" +:+ join "/" S.

(** a workspace with an indexed note in a folder *)
Definition folder_store : store :=
  store_of (writeFile sample_platform (clock_at "01" 1) [] [] sample_store
              "dir/a.txt" "secret").

Definition folder_indexer : indexer :=
  default fresh_indexer (searchIndexer folder_store).

Definition folder_database : database :=
  default empty_database (db folder_indexer).

Set Warnings "-clear-no-such-hyp".

(** * Properties *)

#[local] Arguments indexFile : simpl never.
#[local] Arguments Path.join_paths : simpl never.
#[local] Arguments Path.relative : simpl never.
#[local] Arguments Path.resolve : simpl never.
#[local] Arguments Path.normalize : simpl never.
#[local] Arguments Path.extname : simpl never.
#[local] Arguments Path.basename : simpl never.
#[local] Arguments Path.dirname : simpl never.
#[local] Arguments includes : simpl never.
#[local] Arguments Ascii.eqb : simpl never.
#[local] Arguments String.append : simpl nomatch.

(** ** Worked examples *)

Example scenario_C :
  resolveSafePath "/" (Some "/ws") "../../etc/passwd" false = Err InvalidFilename.
Proof. reflexivity. Qed.

Example metadata_is_restricted :
  resolveSafePath "/" (Some "/ws") ".x0v3rt/index.json" false = Err RestrictedMeta
  /\ resolveSafePath "/" (Some "/ws") ".x0v3rt/index.json" true
     = Ok "/ws/.x0v3rt/index.json".
Proof. split; reflexivity. Qed.

Example parse_note :
  parseFrontMatter sample_platform
    ("---" +:+ nl +:+ "title: x" +:+ nl +:+ "---" +:+ nl +:+ nl +:+ "body")
  = {| data := Some (JObj [("title", JStr "x")]); body := "body";
       raw := Some "title: x"; hasFrontMatter := true |}.
Proof. reflexivity. Qed.

Example parse_plain :
  parseFrontMatter sample_platform "--- not a fence"
  = no_front_matter "--- not a fence".
Proof. reflexivity. Qed.

Example fts_query_terms :
  ftsQuery "  open   port " =
  dquote +:+ "open" +:+ dquote +:+ "* OR " +:+ dquote +:+ "port" +:+ dquote +:+ "*".
Proof. reflexivity. Qed.

Example snapshot_names_sort :
  List.rev (js_sort ["2026-01-01T00-00-01-000Z.md";
                     "2026-01-01T00-00-02-000Z-redo.md";
                     "2026-01-01T00-00-02-000Z.md"])
  = ["2026-01-01T00-00-02-000Z.md"; "2026-01-01T00-00-02-000Z-redo.md";
     "2026-01-01T00-00-01-000Z.md"].
Proof. reflexivity. Qed.

Example safe_name : safeName "notes/recon.md" = "notes_recon.md".
Proof. reflexivity. Qed.

Example numbered_name : numbered "/ws" "report.tar" ".gz" 12 = "/ws/report.tar (12).gz".
Proof. reflexivity. Qed.

Example unique_path_free :
  getUniquePath 1 (fs import_store) "/ws/b.txt" = Some "/ws/b.txt".
Proof. reflexivity. Qed.

Example like_wildcard : like "%a_c%" "xxABCxx" = true /\ like "%a_c%" "xxACxx" = false.
Proof. split; reflexivity. Qed.

Example scenario_B :
  exists s1 w1 s2 w2 s3 restored,
    writeFile sample_platform (clock_at "01" 1) [] [] sample_store "a.md" "X"
    = Ok (s1, w1) /\
    writeFile sample_platform (clock_at "02" 2) [] [] s1 "a.md" "Y"
    = Ok (s2, w2) /\
    undoFile sample_platform (clock_at "03" 3) s2 "a.md" = Ok (s3, restored) /\
    body (parseFrontMatter sample_platform restored) = "X" /\
    fs s3 !! "/ws/a.md" = Some (FFile restored).
Proof.
  do 6 eexists.
  split; [vm_compute; reflexivity |].
  split; [vm_compute; reflexivity |].
  split; [vm_compute; reflexivity |].
  split; vm_compute; reflexivity.
Qed.

(** ** The search database *)

Lemma find_by_path_Some p rows r :
  find_by_path p rows = Some r -> r ∈ rows /\ row_path r = p.
Proof.
  unfold find_by_path. intros H. apply find_some in H as [Hin Heq].
  split; [by apply list_elem_of_In | by apply String.eqb_eq in Heq].
Qed.

Lemma find_by_path_None p rows :
  find_by_path p rows = None -> p ∉ List.map row_path rows.
Proof.
  unfold find_by_path. intros H Hin.
  apply list_elem_of_In, in_map_iff in Hin as (r & Hr & Hin).
  pose proof (find_none _ _ H r Hin) as Hf. simpl in Hf.
  rewrite Hr, String.eqb_refl in Hf. discriminate.
Qed.

Lemma max_row_id_ge rows r : r ∈ rows -> (row_id r <= max_row_id rows)%N.
Proof.
  induction 1 as [r rows | r r' rows _ IH]; simpl; lia.
Qed.

Lemma update_keeps_ids r rows :
  List.map row_id
    (List.map (fun x => if String.eqb (row_path x) (row_path r)
                        then update_row r x else x) rows)
  = List.map row_id rows.
Proof.
  induction rows as [|x rows IH]; simpl; [done |].
  rewrite IH. by destruct (String.eqb (row_path x) (row_path r)).
Qed.

Lemma update_keeps_paths r rows :
  List.map row_path
    (List.map (fun x => if String.eqb (row_path x) (row_path r)
                        then update_row r x else x) rows)
  = List.map row_path rows.
Proof.
  induction rows as [|x rows IH]; simpl; [done |].
  rewrite IH. by destruct (String.eqb (row_path x) (row_path r)).
Qed.

(** what [upsert_file] does to the keys *)
Lemma upsert_file_keys d r d' id :
  upsert_file d r = (d', id) ->
  files_fts d' = files_fts d /\
  files_has_front_matter d' = files_has_front_matter d /\
  fts_has_front_matter d' = fts_has_front_matter d /\
  ((row_path r ∈ row_paths d /\ row_ids d' = row_ids d /\
    row_paths d' = row_paths d /\ id ∈ row_ids d)
   \/ ((row_path r ∉ row_paths d) /\ row_ids d' = row_ids d ++ [id] /\
       row_paths d' = row_paths d ++ [row_path r] /\ id ∉ row_ids d)).
Proof.
  unfold upsert_file, row_ids, row_paths.
  destruct (find_by_path (row_path r) (files d)) as [old|] eqn:Hfind;
    intros [= <- <-]; simpl; repeat split; try done.
  - left. apply find_by_path_Some in Hfind as [Hin Hp].
    rewrite update_keeps_ids, update_keeps_paths. repeat split; try done.
    + rewrite <- Hp. apply list_elem_of_In, in_map, list_elem_of_In, Hin.
    + apply list_elem_of_In, in_map, list_elem_of_In, Hin.
  - right. apply find_by_path_None in Hfind.
    rewrite !map_app. simpl. repeat split; try done.
    intros Hin. apply list_elem_of_In, in_map_iff in Hin as (x & Hx & Hin).
    apply list_elem_of_In, max_row_id_ge in Hin. lia.
Qed.

Lemma row_ids_set_fts d f : row_ids (set_fts d f) = row_ids d.
Proof. reflexivity. Qed.

Lemma row_paths_set_fts d f : row_paths (set_fts d f) = row_paths d.
Proof. reflexivity. Qed.

Lemma index_statements_ok d now rel filename ext size mtime fm body d' ok :
  index_ok d ->
  index_statements d now rel filename ext size mtime fm body = (d', ok) ->
  index_ok d' /\ ok = true /\
  row_paths d' = (if decide (rel ∈ row_paths d) then row_paths d
                  else row_paths d ++ [rel]).
Proof.
  intros ((Hids & Hpaths) & (Hf & Hfts) & Hcons). unfold index_statements.
  rewrite Hf. simpl.
  destruct (upsert_file d _) as [d1 fileId] eqn:Hup.
  apply upsert_file_keys in Hup as (Hfts1 & Hf1 & Hs1 & Hkeys). simpl in Hkeys.
  simpl. rewrite Hs1, Hfts. simpl. intros [= <- <-].
  unfold index_ok, keys_unique, current_schema, fts_consistent. simpl.
  rewrite !row_ids_set_fts, !row_paths_set_fts.
  rewrite Hf1, Hs1, Hf, Hfts, Hfts1.
  rewrite dom_insert_L, dom_delete_L, Hcons.
  destruct Hkeys as [(Hin & Hi & Hp & Hid) | (Hnin & Hi & Hp & Hid)];
    rewrite Hi, Hp.
  - repeat split; try done.
    + assert (fileId ∈ (list_to_set (row_ids d) : gset N))
        by (by apply elem_of_list_to_set).
      apply set_eq. intros x. destruct (decide (x = fileId)); set_solver.
    + by rewrite decide_True.
  - repeat split; try done.
    + apply NoDup_app. repeat split; [done | | apply NoDup_singleton].
      intros x Hx Hx'. apply list_elem_of_singleton in Hx'. by subst.
    + apply NoDup_app. repeat split; [done | | apply NoDup_singleton].
      intros x Hx Hx'. apply list_elem_of_singleton in Hx'. by subst.
    + rewrite list_to_set_app_L. simpl.
      apply set_eq. intros x. destruct (decide (x = fileId)); set_solver.
    + by rewrite decide_False.
Qed.

Lemma filter_other_path_ids rows r :
  NoDup (List.map row_id rows) -> NoDup (List.map row_path rows) ->
  r ∈ rows ->
  (list_to_set
     (List.map row_id
        (List.filter (fun x => negb (String.eqb (row_path x) (row_path r))) rows))
   : gset N)
  = list_to_set (List.map row_id rows) ∖ {[row_id r]}.
Proof.
  induction rows as [|x rows IH]; simpl; intros Hids Hpaths Hin.
  - by apply not_elem_of_nil in Hin.
  - apply NoDup_cons in Hids as [Hx Hids].
    apply NoDup_cons in Hpaths as [Hxp Hpaths].
    apply elem_of_cons in Hin as [-> | Hin].
    + rewrite String.eqb_refl. simpl.
      assert (List.filter
                (fun y => negb (String.eqb (row_path y) (row_path x))) rows
              = rows) as ->.
      { apply forallb_filter_id, forallb_forall. intros y Hy.
        destruct (String.eqb_spec (row_path y) (row_path x)) as [Heq|]; [|done].
        exfalso. apply Hxp. rewrite <- Heq.
        by apply list_elem_of_In, in_map. }
      assert (row_id x ∉ (list_to_set (List.map row_id rows) : gset N))
        by (by rewrite elem_of_list_to_set).
      set_solver.
    + destruct (String.eqb_spec (row_path x) (row_path r)) as [Heq | Hne]; simpl.
      * exfalso. apply Hxp. rewrite Heq.
        by apply list_elem_of_In, in_map, list_elem_of_In.
      * rewrite IH by done.
        assert (row_id x <> row_id r).
        { intros Heq. apply Hx. rewrite Heq.
          by apply list_elem_of_In, in_map, list_elem_of_In. }
        set_solver.
Qed.

Lemma NoDup_map_filter {A B : Type} (f : A -> B) (p : A -> bool) l :
  NoDup (List.map f l) -> NoDup (List.map f (List.filter p l)).
Proof.
  induction l as [|x l IH]; simpl; [done |].
  intros [Hx Hl]%NoDup_cons. destruct (p x); simpl; [|by apply IH].
  apply NoDup_cons. split; [|by apply IH].
  intros Hin. apply Hx.
  apply list_elem_of_In, in_map_iff in Hin as (y & Hy & Hin).
  apply filter_In in Hin as [Hin _].
  rewrite <- Hy. by apply list_elem_of_In, in_map.
Qed.

Lemma remove_statements_ok d rel :
  index_ok d -> index_ok (remove_statements d rel).
Proof.
  intros ((Hids & Hpaths) & Hcur & Hcons). unfold remove_statements.
  destruct (find_by_path rel (files d)) as [r|] eqn:Hfind; [|done].
  apply find_by_path_Some in Hfind as [Hin <-].
  unfold index_ok, keys_unique, current_schema, fts_consistent, row_ids,
    row_paths in *. simpl.
  repeat split; try (by apply NoDup_map_filter); try apply Hcur.
  rewrite dom_delete_L, Hcons. symmetry. by apply filter_other_path_ids.
Qed.

Lemma remove_statements_gone d rel :
  rel ∉ row_paths (remove_statements d rel).
Proof.
  unfold remove_statements, row_paths.
  destruct (find_by_path rel (files d)) as [r|] eqn:Hfind; simpl.
  - intros Hin. apply list_elem_of_In, in_map_iff in Hin as (x & Hx & Hin).
    apply filter_In in Hin as [_ Hin]. rewrite Hx, String.eqb_refl in Hin.
    discriminate.
  - by apply find_by_path_None.
Qed.

Lemma createTables_fresh_ok : index_ok (createTables None).
Proof.
  unfold index_ok, keys_unique, current_schema, fts_consistent. simpl.
  rewrite dom_empty_L. repeat split; apply NoDup_nil_2.
Qed.

Lemma createTables_current_ok d :
  keys_unique d -> fts_consistent d -> fts_has_front_matter d = true ->
  index_ok (createTables (Some d)).
Proof.
  intros Hk Hc Hf. unfold createTables. simpl. rewrite Hf.
  repeat split; try apply Hk. exact Hc.
Qed.

Lemma createTables_old_fts d :
  fts_has_front_matter d = false ->
  files (createTables (Some d)) = files d /\
  files_fts (createTables (Some d)) = ∅.
Proof. intros Hf. unfold createTables. simpl. by rewrite Hf. Qed.

Lemma indexFile_workspaceDir P now ix filepath obs :
  workspaceDir (fst (indexFile P now ix filepath obs)) = workspaceDir ix.
Proof.
  unfold indexFile. destruct obs as [|size mtime content]; [done |].
  destruct (negb (includes _ _)); [done |].
  destruct (MAX_INDEXED_SIZE <? size)%N; [done |].
  destruct content as [content|]; [|done].
  destruct (indexer_parseFrontMatter _ _ _) as [fm body].
  destruct (db ix); [|done].
  by destruct (index_statements _ _ _ _ _ _ _ _ _).
Qed.

Lemma indexFile_ok P now ix filepath obs :
  indexer_ok ix -> indexer_ok (fst (indexFile P now ix filepath obs)).
Proof.
  intros (d & Hdb & Hok). unfold indexFile.
  destruct obs as [|size mtime content]; [by exists d |].
  destruct (negb (includes _ _)); [by exists d |].
  destruct (MAX_INDEXED_SIZE <? size)%N; [by exists d |].
  destruct content as [content|]; [|by exists d].
  destruct (indexer_parseFrontMatter _ _ _) as [fm body].
  rewrite Hdb.
  destruct (index_statements _ _ _ _ _ _ _ _ _) as [d' ok] eqn:Hst.
  apply index_statements_ok in Hst as (Hok' & _ & _); [|done].
  by exists d'.
Qed.

Lemma removeFile_ok P ix filepath :
  indexer_ok ix ->
  exists ix', removeFile P ix filepath = Ok ix' /\ indexer_ok ix'.
Proof.
  intros (d & Hdb & Hok). unfold removeFile. rewrite Hdb.
  eexists. split; [done |]. eexists. split; [done |].
  by apply remove_statements_ok.
Qed.

(** induction over a directory tree *)
Lemma dirent_tree_ind (Q : dirent -> Prop) :
  (forall name size mtimeMs content, Q (DFile name size mtimeMs content)) ->
  (forall name es, Forall Q es -> Q (DDir name (Some es))) ->
  (forall name, Q (DDir name None)) ->
  (forall name, Q (DOther name)) ->
  forall e, Q e.
Proof.
  intros HF HD HN HO.
  fix IH 1. intros [name size mtimeMs content | name [es|] | name].
  - apply HF.
  - apply HD. induction es as [|e es IHes]; constructor; [apply IH | apply IHes].
  - apply HN.
  - apply HO.
Qed.

Lemma indexEntry_ok P now e :
  forall dir ix, indexer_ok ix -> indexer_ok (indexEntry P now dir e ix).
Proof.
  induction e as [name size mtimeMs content | name es IH | name | name]
    using dirent_tree_ind; intros dir ix Hok; simpl; try done.
  - by apply indexFile_ok.
  - destruct (is_hidden name); [done |].
    generalize dependent ix.
    induction IH as [|e es He _ IHes]; intros ix Hok; simpl; [done |].
    apply IHes, He, Hok.
  - by destruct (is_hidden name).
Qed.

Lemma indexDirectory_ok P now dir entries ix :
  indexer_ok ix -> indexer_ok (indexDirectory P now dir entries ix).
Proof.
  destruct entries as [es|]; simpl; [|done].
  revert ix. induction es as [|e es IH]; intros ix Hok; simpl; [done |].
  by apply IH, indexEntry_ok.
Qed.

Lemma rebuildIndex_ok P now ix root d :
  db ix = Some d -> current_schema d ->
  exists ix', rebuildIndex P now ix root = Ok ix' /\ indexer_ok ix'.
Proof.
  intros Hdb Hcur. unfold rebuildIndex. rewrite Hdb.
  eexists. split; [done |]. apply indexDirectory_ok.
  eexists. split; [done |].
  unfold index_ok, keys_unique, fts_consistent. simpl.
  rewrite dom_empty_L. repeat split; try apply NoDup_nil_2; apply Hcur.
Qed.

(** ** The walk of [rebuildIndex] *)

Lemma indexFile_paths P now ix d filepath size mtimeMs content :
  db ix = Some d -> index_ok d ->
  let eligible :=
    recognized filepath && (size <=? MAX_INDEXED_SIZE)%N
    && match content with Some _ => true | None => false end in
  let rel := Path.relative (cwd P) (workspaceDir ix) filepath in
  (eligible = true -> rel ∉ row_paths d) ->
  exists d',
    db (fst (indexFile P now ix filepath (Seen size mtimeMs content))) = Some d'
    /\ index_ok d'
    /\ row_paths d' = row_paths d ++ (if eligible then [rel] else []).
Proof.
  intros Hdb Hok eligible rel Hfresh. subst eligible. unfold indexFile.
  unfold recognized in *.
  destruct (includes TEXT_EXTENSIONS _); simpl in *;
    [|exists d; by rewrite app_nil_r].
  rewrite N.ltb_antisym. destruct (size <=? MAX_INDEXED_SIZE)%N; simpl in *;
    [|exists d; by rewrite app_nil_r].
  destruct content as [content|]; [|exists d; by rewrite app_nil_r].
  destruct (indexer_parseFrontMatter _ _ _) as [fm body].
  rewrite Hdb.
  destruct (index_statements _ _ _ _ _ _ _ _ _) as [d' ok] eqn:Hst.
  apply index_statements_ok in Hst as (Hok' & _ & Hpaths); [|done].
  exists d'. repeat split; try apply Hok'.
  rewrite Hpaths. rewrite decide_False; [done | by apply Hfresh].
Qed.

Lemma hidden_dir_not_indexed e :
  forall dir dirs, existsb is_hidden dirs = true ->
  List.filter indexed_by_walk (entry_files dir dirs e) = [].
Proof.
  induction e as [name size mtimeMs content | name es IH | name | name]
    using dirent_tree_ind; intros dir dirs Hd; simpl; try done.
  - unfold indexed_by_walk. simpl. by rewrite Hd.
  - assert (existsb is_hidden (dirs ++ [name]) = true) as Hd'
        by (rewrite existsb_app, Hd; done).
    induction IH as [|e es He _ IHes]; simpl; [done |].
    by rewrite List.filter_app, He, IHes.
Qed.

Lemma indexEntry_paths P now e :
  forall dir dirs ix d,
    existsb is_hidden dirs = false ->
    db ix = Some d -> index_ok d ->
    let news :=
      relative_paths P (workspaceDir ix)
        (List.filter indexed_by_walk (entry_files dir dirs e)) in
    NoDup (row_paths d ++ news) ->
    exists d',
      db (indexEntry P now dir e ix) = Some d' /\ index_ok d' /\
      workspaceDir (indexEntry P now dir e ix) = workspaceDir ix /\
      row_paths d' = row_paths d ++ news.
Proof.
  induction e as [name size mtimeMs content | name es IH | name | name]
    using dirent_tree_ind; intros dir dirs ix d Hd Hdb Hok news Hnd;
    subst news; simpl in *.
  - pose proof (indexFile_paths P now ix d (Path.join_paths [dir; name]) size
                  mtimeMs content Hdb Hok) as Hix. simpl in Hix.
    unfold indexed_by_walk, readable in *. simpl in *. rewrite Hd in *. simpl in *.
    destruct Hix as (d' & Hdb' & Hok' & Hpaths).
    + intros Hel. rewrite Hel in Hnd. simpl in Hnd.
      apply NoDup_app in Hnd as (_ & Hnd & _). intros Hin.
      apply (Hnd _ Hin). apply list_elem_of_singleton. done.
    + exists d'. split_and!; try done.
      * apply indexFile_workspaceDir.
      * rewrite Hpaths.
        by destruct (recognized _ && (size <=? MAX_INDEXED_SIZE)%N && _).
  - destruct (is_hidden name) eqn:Hhid.
    + exists d. split_and!; try done.
      rewrite <- (app_nil_r (row_paths d)) at 1. f_equal.
      assert (existsb is_hidden (dirs ++ [name]) = true) as Hd'
        by (rewrite existsb_app; simpl; rewrite Hhid; apply orb_true_iff; right; done).
      clear -Hd'. induction es as [|e es IHes]; simpl; [done |].
      rewrite List.filter_app, hidden_dir_not_indexed by done. simpl. apply IHes.
    + assert (existsb is_hidden (dirs ++ [name]) = false) as Hd'
        by (rewrite existsb_app, Hd; simpl; by rewrite Hhid).
      generalize dependent d. generalize dependent ix.
      induction IH as [|e es He _ IHes]; intros ix d Hdb Hok Hnd; simpl in *.
      * exists d. split_and!; try done. symmetry; apply app_nil_r.
      * unfold relative_paths in *.
        rewrite List.filter_app, List.map_app in Hnd. rewrite app_assoc in Hnd.
        destruct (He (Path.join_paths [dir; name]) (dirs ++ [name]) ix d
                    Hd' Hdb Hok) as (d1 & Hdb1 & Hok1 & Hws1 & Hp1).
        { unfold relative_paths. by apply NoDup_app in Hnd as (Hnd & _ & _). }
        destruct (IHes _ _ Hdb1 Hok1) as (d2 & Hdb2 & Hok2 & Hws2 & Hp2).
        { rewrite Hws1, Hp1. exact Hnd. }
        exists d2. split_and!; try done.
        -- by rewrite Hws2.
        -- rewrite Hp2, Hp1, Hws1. unfold relative_paths.
           by rewrite List.filter_app, List.map_app, app_assoc.
  - destruct (is_hidden name); exists d; split_and!; try done;
      symmetry; apply app_nil_r.
  - exists d. split_and!; try done. symmetry; apply app_nil_r.
Qed.

Lemma indexDirectory_paths P now ix d root :
  db ix = Some d -> index_ok d ->
  let news :=
    relative_paths P (workspaceDir ix)
      (List.filter indexed_by_walk (workspace_files (workspaceDir ix) root)) in
  NoDup (row_paths d ++ news) ->
  exists d',
    db (indexDirectory P now (workspaceDir ix) root ix) = Some d' /\
    index_ok d' /\ row_paths d' = row_paths d ++ news.
Proof.
  intros Hdb Hok news Hnd. subst news. destruct root as [es|]; simpl in *.
  2:{ exists d. split_and!; try done. symmetry; apply app_nil_r. }
  set (ws := workspaceDir ix) in *.
  assert (workspaceDir ix = ws) as Hws by done. clearbody ws.
  generalize dependent d. generalize dependent ix.
  induction es as [|e es IH]; intros ix Hws d Hdb Hok Hnd; simpl in *.
  - exists d. split_and!; try done. symmetry; apply app_nil_r.
  - unfold relative_paths in *.
    rewrite List.filter_app, List.map_app, app_assoc in Hnd.
    destruct (indexEntry_paths P now e ws [] ix d eq_refl Hdb Hok)
      as (d1 & Hdb1 & Hok1 & Hws1 & Hp1).
    { rewrite Hws. unfold relative_paths.
      by apply NoDup_app in Hnd as (Hnd & _ & _). }
    destruct (IH (indexEntry P now ws e ix)) with (d := d1)
      as (d2 & Hdb2 & Hok2 & Hp2); try done.
    { by rewrite Hws1. }
    { rewrite Hp1, Hws. exact Hnd. }
    exists d2. split_and!; try done.
    rewrite Hp2, Hp1, Hws. unfold relative_paths.
    by rewrite List.filter_app, List.map_app, app_assoc.
Qed.

(** C3 (as stated) fails: a dot-named file in a visible directory is
    indexed.  In a workspace that holds only [.todo.md] the specification
    counts no eligible file, and [rebuildIndex] leaves one record. *)
Lemma rebuildIndex_indexes_hidden_file :
  List.filter eligible_by_spec (workspace_files "/ws" hidden_note_root) = []
  /\ exists ix' d',
       rebuildIndex sample_platform 1 fresh_indexer hidden_note_root = Ok ix'
       /\ db ix' = Some d' /\ row_paths d' = [".todo.md"].
Proof.
  split; [reflexivity |].
  eexists; eexists. split; [reflexivity |]. split; reflexivity.
Qed.

(** C3 (amended): after [rebuildIndex] the document records are exactly
    the readable regular files with a recognized extension and a size of
    at most 1 MiB that lie below no dot-named directory (which leaves out
    the metadata subtree), one record per file; dot-named files in
    visible directories are among them. *)
Theorem rebuildIndex_records P now ix d root :
  db ix = Some d -> current_schema d ->
  let indexed :=
    List.filter indexed_by_walk (workspace_files (workspaceDir ix) root) in
  NoDup (relative_paths P (workspaceDir ix) indexed) ->
  exists ix' d',
    rebuildIndex P now ix root = Ok ix' /\ db ix' = Some d' /\
    row_paths d' = relative_paths P (workspaceDir ix) indexed /\
    length (files d') = length indexed /\
    fts_consistent d'.
Proof.
  intros Hdb Hcur indexed Hnd. unfold rebuildIndex. rewrite Hdb.
  set (cleared := {| files := []; files_fts := ∅;
                     sqlite_sequence := sqlite_sequence d;
                     files_has_front_matter := files_has_front_matter d;
                     fts_has_front_matter := fts_has_front_matter d |}).
  destruct (indexDirectory_paths P now (set_db ix cleared) cleared root)
    as (d' & Hdb' & Hok' & Hpaths); try done.
  { unfold index_ok, keys_unique, fts_consistent. simpl.
    rewrite dom_empty_L. repeat split; try apply NoDup_nil_2; apply Hcur. }
  simpl in *. exists (indexDirectory P now (workspaceDir ix) root (set_db ix cleared)), d'.
  split_and!; try done.
  - apply (f_equal (@length string)) in Hpaths.
    unfold row_paths, relative_paths in Hpaths.
    by rewrite !length_map in Hpaths.
  - apply Hok'.
Qed.

Lemma rebuildIndex_records_witness :
  db fresh_indexer = Some empty_database /\
  exists ix' d',
    rebuildIndex sample_platform 1 fresh_indexer sample_root = Ok ix' /\
    db ix' = Some d' /\
    row_paths d' = ["a.md"; "sub/b.txt"; "sub/.env.json"] /\
    length (files d') = 3 /\ fts_consistent d'.
Proof.
  split; [reflexivity |].
  refine (rebuildIndex_records sample_platform 1 fresh_indexer empty_database
            sample_root eq_refl (conj eq_refl eq_refl) _).
  vm_compute. repeat constructor; set_solver.
Defined.

(** C4 (as stated) fails for [initialize]: on a database whose FTS table
    lacks the [front_matter] column the table is dropped and created
    empty while the document records stay. *)
Lemma initialize_drops_fts_alone :
  fts_consistent old_database /\
  exists d', db (initialize (newIndexer "/ws") (Some old_database)) = Some d' /\
             files d' = files old_database /\ files_fts d' = ∅ /\
             ~ fts_consistent d'.
Proof.
  split.
  - unfold fts_consistent. simpl. rewrite dom_singleton_L. set_solver.
  - eexists. split; [reflexivity |]. split; [reflexivity |].
    split; [reflexivity |].
    unfold fts_consistent. simpl. rewrite dom_empty_L. set_solver.
Qed.

(** C4 (amended): [indexFile], [removeFile] and [rebuildIndex] keep the
    ids of [files] equal to the rowids of [files_fts] (with the keys
    unique and the schema current), and so does [initialize] on a new
    database and on one whose FTS table has the [front_matter] column; on
    an older FTS table [initialize] keeps the document records and
    empties the full-text table. *)
Theorem search_index_invariant P now ix :
  indexer_ok ix ->
  (forall filepath obs, indexer_ok (fst (indexFile P now ix filepath obs))) /\
  (forall filepath,
      exists ix', removeFile P ix filepath = Ok ix' /\ indexer_ok ix') /\
  (forall root,
      exists ix', rebuildIndex P now ix root = Ok ix' /\ indexer_ok ix') /\
  indexer_ok (initialize ix None) /\
  (forall stored,
      keys_unique stored -> fts_consistent stored ->
      fts_has_front_matter stored = true ->
      indexer_ok (initialize ix (Some stored))) /\
  (forall stored,
      fts_has_front_matter stored = false ->
      exists d', db (initialize ix (Some stored)) = Some d' /\
                 files d' = files stored /\ files_fts d' = ∅).
Proof.
  intros Hok. split_and!.
  - intros. by apply indexFile_ok.
  - intros. by apply removeFile_ok.
  - intros root. destruct Hok as (d & Hdb & Hd).
    apply (rebuildIndex_ok P now ix root d Hdb). apply Hd.
  - eexists. split; [reflexivity | apply createTables_fresh_ok].
  - intros stored Hk Hc Hf. eexists. split; [reflexivity |].
    by apply createTables_current_ok.
  - intros stored Hf. eexists. split; [reflexivity |].
    by apply createTables_old_fts.
Qed.

Lemma search_index_invariant_witness :
  indexer_ok fresh_indexer /\
  indexer_ok (fst (indexFile sample_platform 1 fresh_indexer "/ws/a.md"
                     (Seen 5 0 (Some "hello")))).
Proof.
  assert (indexer_ok fresh_indexer) as Hok.
  { exists empty_database. split; [reflexivity |].
    unfold index_ok, keys_unique, current_schema, fts_consistent. simpl.
    rewrite dom_empty_L. repeat split; apply NoDup_nil_2. }
  split; [exact Hok |].
  apply (search_index_invariant sample_platform 1 fresh_indexer Hok).
Defined.

(** ** [search] *)

Lemma skip_spaces_all s : all_spaces s = true -> skip_spaces s = EmptyString.
Proof.
  induction s as [|c s IH]; simpl; [done |].
  intros [Hc Hs]%andb_true_iff. rewrite Hc. by apply IH.
Qed.

Lemma skip_spaces_empty s : skip_spaces s = EmptyString -> all_spaces s = true.
Proof.
  induction s as [|c s IH]; simpl; [done |].
  destruct (is_space c); [simpl; apply IH | discriminate].
Qed.

Lemma skip_spaces_head s :
  skip_spaces s = EmptyString \/
  exists c r, skip_spaces s = String c r /\ is_space c = false.
Proof.
  induction s as [|c s IH]; simpl; [by left |].
  destruct (is_space c) eqn:Hc; [exact IH | right; by exists c, s].
Qed.

Lemma all_spaces_list s :
  all_spaces s = forallb is_space (list_ascii_of_string s).
Proof. induction s as [|c s IH]; simpl; [done | by rewrite IH]. Qed.

Lemma all_spaces_rev s : all_spaces (str_rev s) = all_spaces s.
Proof.
  unfold str_rev. rewrite !all_spaces_list, list_ascii_of_string_of_list_ascii.
  apply eq_true_iff_eq. rewrite !forallb_forall.
  split; intros H x Hx; apply H; [by apply in_rev in Hx | by apply in_rev].
Qed.

Lemma str_rev_empty s : str_rev s = EmptyString -> s = EmptyString.
Proof.
  unfold str_rev. intros H.
  apply (f_equal list_ascii_of_string) in H.
  rewrite list_ascii_of_string_of_list_ascii in H. simpl in H.
  apply (f_equal (@List.rev ascii)) in H. rewrite rev_involutive in H. simpl in H.
  apply (f_equal string_of_list_ascii) in H.
  by rewrite string_of_list_ascii_of_string in H.
Qed.

Lemma string_length_zero s : String.length s = 0 -> s = EmptyString.
Proof. by destruct s. Qed.

(** the guard of [search] holds exactly for the empty and the
    white-space-only queries *)
Lemma is_blank_all_spaces query : is_blank query = all_spaces query.
Proof.
  unfold is_blank, trim, str_trim_end.
  destruct (all_spaces query) eqn:Hall.
  - rewrite (skip_spaces_all query Hall).
    apply orb_true_iff. right. reflexivity.
  - apply orb_false_iff. split.
    + destruct query; [discriminate | done].
    + apply Nat.eqb_neq. intros Hlen%string_length_zero%str_rev_empty.
      apply skip_spaces_empty in Hlen. rewrite all_spaces_rev in Hlen.
      destruct (skip_spaces_head query) as [He | (c & r & He & Hc)].
      * apply skip_spaces_empty in He. congruence.
      * rewrite He in Hlen. simpl in Hlen. by rewrite Hc in Hlen.
Qed.

Lemma like_percent s : like "%" s = true.
Proof.
  induction s as [|c s IH]; [reflexivity |].
  change (like "%" (String c s)) with (like "" (String c s) || like "%" s).
  by rewrite IH, orb_true_r.
Qed.

Lemma like_prefix q s :
  no_wildcards q = true -> like (q +:+ "%") s = starts_ci s q.
Proof.
  revert s. induction q as [|c q IH]; intros s Hq.
  - change (like "%" s = starts_ci s ""). rewrite like_percent. by destruct s.
  - simpl in Hq. apply andb_true_iff in Hq as [Hc Hq].
    apply andb_true_iff in Hc as [Hp Hu]. apply negb_true_iff in Hp, Hu.
    change (like (String c q +:+ "%") s)
      with ((if Ascii.eqb c "%"%char
             then fix any (s : string) : bool :=
                    like (q +:+ "%") s ||
                    match s with
                    | EmptyString => false
                    | String _ s' => any s'
                    end
             else if Ascii.eqb c "_"%char
                  then fun s => match s with
                                | EmptyString => false
                                | String _ s' => like (q +:+ "%") s'
                                end
                  else fun s => match s with
                                | EmptyString => false
                                | String d s' =>
                                    Ascii.eqb (lower_char c) (lower_char d)
                                    && like (q +:+ "%") s'
                                end) s).
    rewrite Hp, Hu. destruct s as [|d s]; simpl; [done |]. by rewrite IH.
Qed.

(** for a query without wildcards the pattern of the fallback matches
    the texts that contain the query, whatever the case of the letters *)
Lemma like_is_substring q s :
  no_wildcards q = true -> like ("%" +:+ q +:+ "%") s = occurs_ci q s.
Proof.
  intros Hq. induction s as [|d s IH].
  - change (like ("%" +:+ q +:+ "%") "") with (like (q +:+ "%") "" || false).
    rewrite like_prefix by done. reflexivity.
  - change (like ("%" +:+ q +:+ "%") (String d s))
      with (like (q +:+ "%") (String d s) || like ("%" +:+ q +:+ "%") s).
    rewrite like_prefix, IH by done. reflexivity.
Qed.



(** ** Paths *)

Example normalize_dotdot : Path.normalize "a/../b" = "b".
Proof. reflexivity. Qed.

Example normalize_climb : Path.normalize "../../etc/passwd" = "../../etc/passwd".
Proof. reflexivity. Qed.

Example resolve_climb :
  Path.resolve "/" ["/home/u/notes"; "../../etc/passwd"] = "/home/etc/passwd".
Proof. reflexivity. Qed.

Example relative_down :
  Path.relative "/" "/home/u/notes" "/home/u/notes/a/b.md" = "a/b.md".
Proof. reflexivity. Qed.

Example relative_up :
  Path.relative "/" "/home/u/notes" "/home/u/other/x" = "../other/x".
Proof. reflexivity. Qed.

Example extname_hidden : Path.extname "/ws/.todo.md" = ".md" /\ Path.extname "/ws/.md" = "".
Proof. split; reflexivity. Qed.

Example basename_ext : Path.basename "/ws/a/report.tar.gz" (Some ".gz") = "report.tar".
Proof. reflexivity. Qed.

Example dirname_ex : Path.dirname "/ws/a/report.tar.gz" = "/ws/a".
Proof. reflexivity. Qed.


Lemma startsWith_empty s : startsWith s EmptyString = true.
Proof. by destruct s. Qed.

Lemma startsWith_refl_app x a : startsWith (x +:+ a) x = true.
Proof.
  induction x as [|c x IH]; simpl; [apply startsWith_empty |].
  by rewrite Ascii.eqb_refl, IH.
Qed.

Lemma startsWith_cancel x a b : startsWith (x +:+ a) (x +:+ b) = startsWith a b.
Proof.
  induction x as [|c x IH]; simpl; [done |].
  by rewrite Ascii.eqb_refl, IH.
Qed.

Lemma startsWith_split s p :
  startsWith s p = true -> exists r, s = p +:+ r.
Proof.
  revert s. induction p as [|c p IH]; intros s; simpl.
  - by exists s.
  - destruct s as [|d s]; [discriminate |].
    intros [Hc Hs]%andb_true_iff. apply Ascii.eqb_eq in Hc as ->.
    destruct (IH s Hs) as [r ->]. by exists r.
Qed.

Lemma has_char_app c a b : has_char c (a +:+ b) = has_char c a || has_char c b.
Proof.
  induction a as [|d a IH]; simpl; [done |]. by rewrite IH, orb_assoc.
Qed.

Lemma split_free sep s : has_char sep s = false -> split sep s = [s].
Proof.
  induction s as [|c s IH]; simpl; [done |].
  intros [Hc Hs]%orb_false_iff. rewrite Hc, (IH Hs). done.
Qed.

Lemma split_app_sep sep a b :
  has_char sep a = false ->
  split sep (a +:+ String sep b) = a :: split sep b.
Proof.
  induction a as [|c a IH]; simpl.
  - by rewrite Ascii.eqb_refl.
  - intros [Hc Ha]%orb_false_iff. by rewrite Hc, (IH Ha).
Qed.

Lemma split_all_free sep s : Forall (fun w => has_char sep w = false) (split sep s).
Proof.
  induction s as [|c s IH]; simpl.
  - by constructor.
  - destruct (Ascii.eqb c sep) eqn:Hc.
    + by constructor.
    + destruct (split sep s) as [|w ws].
      * constructor; [simpl; by rewrite Hc | constructor].
      * apply Forall_cons in IH as [Hw Hws].
        constructor; [simpl; by rewrite Hc, Hw | done].
Qed.

Lemma split_join (S : list string) :
  S <> [] -> Forall (fun w => has_char chr_slash w = false) S ->
  split chr_slash (join "/" S) = S.
Proof.
  induction S as [|x S IH]; [done |]. intros _ [Hx HS]%Forall_cons.
  destruct S as [|y S].
  - simpl. by apply split_free.
  - change (join "/" (x :: y :: S))
      with (x +:+ String chr_slash (join "/" (y :: S))).
    rewrite split_app_sep by done. by rewrite IH.
Qed.

Lemma step_seg_ok allow stack seg :
  has_char chr_slash seg = false -> Forall seg_ok stack ->
  Forall seg_ok (Path.step allow stack seg).
Proof.
  intros Hseg Hst. unfold Path.step.
  destruct (String.eqb_spec seg "") as [->|Hne]; simpl; [done |].
  destruct (String.eqb seg "."); simpl; [done |].
  destruct (String.eqb seg "..").
  - assert (seg_ok "..") as Hdd by (split; [discriminate | reflexivity]).
    destruct stack as [|top rest].
    + destruct allow; [|done]. by constructor.
    + apply Forall_cons in Hst as [Htop Hrest].
      destruct (String.eqb top ".."); [|done].
      destruct allow; [|by constructor].
      constructor; [done |]. by constructor.
  - by constructor.
Qed.

Lemma normalizeSegs_seg_ok allow segs :
  Forall (fun w => has_char chr_slash w = false) segs ->
  Forall seg_ok (Path.normalizeSegs allow segs).
Proof.
  unfold Path.normalizeSegs. intros Hsegs.
  apply Forall_rev.
  assert (Forall seg_ok (@nil string)) as Hnil by constructor.
  revert Hnil. generalize (@nil string) as stack.
  induction Hsegs as [|seg segs Hseg _ IH]; intros stack Hst; simpl; [done |].
  by apply IH, step_seg_ok.
Qed.

Lemma segments_rooted (S : list string) :
  Forall seg_ok S -> Path.segments ("/" +:+ join "/" S) = S.
Proof.
  intros HS. unfold Path.segments.
  change ("/" +:+ join "/" S) with (String chr_slash (join "/" S)).
  simpl. destruct S as [|x S]; [done |].
  rewrite split_join; [|done|].
  - apply forallb_filter_id, forallb_forall. intros w Hw.
    apply list_elem_of_In in Hw.
    rewrite Forall_forall in HS. destruct (HS w Hw) as [Hne _].
    by destruct (String.eqb_spec w "").
  - eapply Forall_impl; [exact HS |]. by intros w [_ Hw].
Qed.

(** with an absolute root, [resolve] yields [/] followed by clean segments *)
Lemma resolve_rooted cwd nd n :
  Path.isAbsolute nd = true ->
  exists S, Forall seg_ok S /\ Path.resolve cwd [nd; n] = "/" +:+ join "/" S.
Proof.
  intros Habs. unfold Path.resolve.
  change (List.rev [cwd; nd; n]) with [n; nd; cwd].
  assert (String.eqb nd "" = false) as Hnd by (by destruct nd).
  assert (exists acc, Path.resolve_acc [n; nd; cwd] "" = (acc, true))
    as [acc Hacc].
  { simpl. destruct (String.eqb n "").
    - rewrite Hnd, Habs. by eexists.
    - destruct (Path.isAbsolute n); [by eexists |].
      rewrite Hnd, Habs. by eexists. }
  rewrite Hacc. simpl. unfold Path.normalizeString.
  eexists. split; [|reflexivity].
  apply normalizeSegs_seg_ok, split_all_free.
Qed.

Lemma startsWith_refl x : startsWith x x = true.
Proof. induction x as [|c x IH]; simpl; [done | by rewrite Ascii.eqb_refl]. Qed.

Lemma join_cons2 x y (S : list string) :
  join "/" (x :: y :: S) = x +:+ String chr_slash (join "/" (y :: S)).
Proof. reflexivity. Qed.

(** a path below the root starts with the text of the root *)
Lemma prefix_startsWith (R : list string) :
  forall S, segs_prefix R S = true ->
            startsWith (join "/" S) (join "/" R) = true.
Proof.
  induction R as [|x R IH]; intros S; [intros _; apply startsWith_empty |].
  destruct S as [|y S]; [discriminate |]. simpl segs_prefix.
  intros [->%String.eqb_eq HRS]%andb_true_iff.
  destruct R as [|z R].
  - destruct S as [|w S]; [apply startsWith_refl |].
    rewrite join_cons2. apply startsWith_refl_app.
  - destruct S as [|w S]; [discriminate |].
    rewrite !join_cons2, startsWith_cancel.
    change (startsWith (join "/" (w :: S)) (join "/" (z :: R)) = true).
    by apply IH.
Qed.

Lemma startsWith_before_sep y t x :
  has_char chr_slash x = false ->
  startsWith (y +:+ String chr_slash t) x = true -> startsWith y x = true.
Proof.
  revert y. induction x as [|c x IH]; intros y Hx; [intros _; apply startsWith_empty |].
  simpl in Hx. apply orb_false_iff in Hx as [Hc Hx].
  destruct y as [|d y]; simpl.
  - rewrite Hc. discriminate.
  - intros [Hcd Hs]%andb_true_iff. rewrite Hcd. simpl. by apply (IH y).
Qed.

Lemma startsWith_needs_sep y x r :
  startsWith y (x +:+ String chr_slash r) = true -> has_char chr_slash y = true.
Proof.
  revert y. induction x as [|c x IH]; intros y; destruct y as [|d y]; simpl;
    try discriminate.
  - intros [Hd _]%andb_true_iff. apply Ascii.eqb_eq in Hd as <-.
    by rewrite Ascii.eqb_refl.
  - intros [_ Hs]%andb_true_iff. rewrite (IH y Hs). apply orb_true_r.
Qed.

Lemma startsWith_same_segment y a x b :
  has_char chr_slash x = false -> has_char chr_slash y = false ->
  startsWith (y +:+ String chr_slash a) (x +:+ String chr_slash b) = true ->
  x = y /\ startsWith a b = true.
Proof.
  revert y. induction x as [|c x IH]; intros y Hx Hy; destruct y as [|d y];
    simpl in *.
  - done.
  - apply orb_false_iff in Hy as [Hd Hy].
    rewrite Ascii.eqb_sym, Hd. discriminate.
  - apply orb_false_iff in Hx as [Hc Hx]. rewrite Hc. discriminate.
  - apply orb_false_iff in Hx as [Hc Hx]. apply orb_false_iff in Hy as [Hd Hy].
    intros [Hcd Hs]%andb_true_iff. apply Ascii.eqb_eq in Hcd as ->.
    destruct (IH y Hx Hy Hs) as [-> Hab]. done.
Qed.

(** a path that starts with the text of the root lies below it, or
    leaves it for a name that continues the root's last segment *)
Lemma startsWith_prefix (R : list string) :
  forall S, Forall seg_ok R -> Forall seg_ok S ->
            startsWith (join "/" S) (join "/" R) = true ->
            segs_prefix R S = true \/ continues_last R S = true.
Proof.
  induction R as [|x R IH]; intros S HR HS Hsw; [by left |].
  apply Forall_cons in HR as [[Hxne Hx] HR].
  destruct S as [|y S].
  - exfalso. destruct R as [|z R]; [simpl in Hsw | rewrite join_cons2 in Hsw];
      destruct x; simpl in Hsw; done.
  - apply Forall_cons in HS as [[Hyne Hy] HS].
    destruct R as [|z R].
    + assert (startsWith y x = true) as Hyx.
      { destruct S as [|w S]; [exact Hsw |].
        rewrite join_cons2 in Hsw. by eapply startsWith_before_sep. }
      simpl. rewrite Hyx. destruct (String.eqb x y); [by left | by right].
    + destruct S as [|w S].
      * exfalso. rewrite join_cons2 in Hsw.
        apply startsWith_needs_sep in Hsw. simpl in Hsw. congruence.
      * rewrite !join_cons2 in Hsw.
        apply startsWith_same_segment in Hsw as [-> Hsw]; [|done..].
        destruct (IH (w :: S) HR HS Hsw) as [Hp | Hc].
        -- left. simpl. rewrite String.eqb_refl. exact Hp.
        -- right. change (continues_last (y :: z :: R) (y :: w :: S))
             with (String.eqb y y && continues_last (z :: R) (w :: S)).
           by rewrite String.eqb_refl.
Qed.

Lemma plain_name_seg_ok w : plain_name w = true -> seg_ok w.
Proof.
  unfold plain_name. intros H.
  repeat (apply andb_true_iff in H as [H ?]).
  split; [|by apply negb_true_iff].
  intros ->. discriminate.
Qed.

Lemma normalized_root_shape nd :
  normalized_root nd = true ->
  nd = "/" +:+ join "/" (Path.segments nd) /\ Forall seg_ok (Path.segments nd)
  /\ Path.isAbsolute nd = true.
Proof.
  unfold normalized_root. intros [Hnd Hall]%andb_true_iff.
  apply String.eqb_eq in Hnd.
  split_and!; [done | |rewrite Hnd; apply (startsWith_refl_app "/")].
  apply Forall_forall. intros w Hw. apply plain_name_seg_ok.
  rewrite forallb_forall in Hall. by apply Hall, list_elem_of_In.
Qed.

(** C1 (as stated) fails.  By design the path is normalized first, so a
    relative path with a [..] segment that stays inside the workspace is
    accepted.  And the prefix test compares text, not segments: a path
    into a sibling directory whose name continues the root's name is
    returned although it is no descendant of the root. *)
Lemma resolveSafePath_not_only_descendants :
  (Path.isAbsolute "a/../b" = false /\ has_dotdot_segment "a/../b" = true /\
   resolveSafePath "/" (Some "/home/u/notes") "a/../b" false
   = Ok "/home/u/notes/b") /\
  (Path.isAbsolute "../notes-evil/x" = false /\
   resolveSafePath "/" (Some "/home/u/notes") "../notes-evil/x" false
   = Ok "/home/u/notes-evil/x" /\
   descendant "/home/u/notes" "/home/u/notes-evil/x" = false).
Proof. repeat split; reflexivity. Qed.

(** C1 (amended): with the workspace root an absolute path in normal
    form, [resolveSafePath] fails with 'Invalid filename' for every path
    whose resolution lies outside the root, sibling names that continue
    the root's last segment set aside; it never fails so for a path that
    resolves to the root or below it ([..] segments that cancel inside
    the workspace included); and what it returns is the resolved path,
    which begins with the root and, without [allowMeta], is no metadata
    path. *)
Theorem resolveSafePath_guard cwd nd filename allowMeta :
  normalized_root nd = true ->
  let resolved := Path.resolve cwd [nd; Path.normalize filename] in
  (descendant nd resolved = false ->
   continues_last (Path.segments nd) (Path.segments resolved) = false ->
   resolveSafePath cwd (Some nd) filename allowMeta = Err InvalidFilename) /\
  (descendant nd resolved = true ->
   resolveSafePath cwd (Some nd) filename allowMeta <> Err InvalidFilename) /\
  (forall r, resolveSafePath cwd (Some nd) filename allowMeta = Ok r ->
             r = resolved /\ startsWith r nd = true /\
             (descendant nd r = true \/
              continues_last (Path.segments nd) (Path.segments r) = true) /\
             (allowMeta = false -> isMetaPath cwd nd r = false)).
Proof.
  intros (Hnd & HR & Habs)%normalized_root_shape resolved.
  destruct (resolve_rooted cwd nd (Path.normalize filename) Habs)
    as (S & HS & Hres). fold resolved in Hres.
  assert (startsWith resolved nd
          = startsWith (join "/" S) (join "/" (Path.segments nd))) as Hsw.
  { rewrite Hres. rewrite Hnd at 1. apply (startsWith_cancel "/"). }
  assert (Path.segments resolved = S) as Hsegs
      by (rewrite Hres; by apply segments_rooted).
  unfold descendant. rewrite Hsegs. unfold resolveSafePath. fold resolved.
  split_and!.
  - intros Hdesc Hcont. rewrite Hsw.
    destruct (startsWith (join "/" S) (join "/" (Path.segments nd))) eqn:Hst;
      [|done].
    destruct (startsWith_prefix _ S HR HS Hst); congruence.
  - intros Hdesc. rewrite Hsw, (prefix_startsWith _ S Hdesc). simpl.
    by destruct (isMetaPath cwd nd resolved && negb allowMeta).
  - intros r. destruct (startsWith resolved nd) eqn:Hst; simpl; [|done].
    assert (segs_prefix (Path.segments nd) S = true \/
            continues_last (Path.segments nd) S = true) as Hwhere.
    { apply startsWith_prefix; done. }
    destruct (isMetaPath cwd nd resolved) eqn:Hmeta; simpl.
    + destruct allowMeta; simpl; [|done].
      intros [= <-]. unfold descendant. rewrite Hsegs. by split_and!.
    + intros [= <-]. unfold descendant. rewrite Hsegs. by split_and!.
Qed.

Lemma resolveSafePath_guard_witness :
  normalized_root "/home/u/notes" = true /\
  resolveSafePath "/" (Some "/home/u/notes") "../../etc/passwd" false
  = Err InvalidFilename.
Proof.
  split; [reflexivity |].
  apply (resolveSafePath_guard "/" "/home/u/notes" "../../etc/passwd" false);
    reflexivity.
Defined.

(** ** Deleting *)

Lemma buildIndex_searchIndexer s : searchIndexer (buildIndex s) = searchIndexer s.
Proof.
  unfold buildIndex, ensureNotesDir, ensureMetaDir.
  destruct (notesDir s) eqn:Hnd; simpl; [rewrite Hnd |]; done.
Qed.

Lemma buildIndex_meta_dirs s : meta_dirs (buildIndex s) = meta_dirs s.
Proof.
  unfold buildIndex, ensureNotesDir, ensureMetaDir.
  destruct (notesDir s) eqn:Hnd; simpl; [rewrite Hnd |]; done.
Qed.

Lemma buildIndex_notesDir s : notesDir (buildIndex s) = notesDir s.
Proof.
  unfold buildIndex, ensureNotesDir, ensureMetaDir.
  destruct (notesDir s) eqn:Hnd; simpl; [rewrite Hnd |]; done.
Qed.

(** deleting a regular file removes its document record, and the
    full-text table stays in step with the document table *)
Lemma deleteFile_file_removes_record P s filename filepath content ix d s' :
  resolveSafePath (cwd P) (notesDir s) filename false = Ok filepath ->
  fs s !! filepath = Some (FFile content) ->
  searchIndexer s = Some ix -> db ix = Some d -> index_ok d ->
  deleteFile P s filename = Ok s' ->
  exists ix' d',
    searchIndexer s' = Some ix' /\ db ix' = Some d' /\ index_ok d' /\
    Path.relative (cwd P) (workspaceDir ix) filepath ∉ row_paths d'.
Proof.
  intros Hres Hfile Hix Hdb Hok. unfold deleteFile. rewrite Hres. simpl.
  rewrite Hfile. simpl. rewrite Hix. unfold removeFile. rewrite Hdb.
  intros [= <-]. rewrite buildIndex_searchIndexer. simpl. eexists. eexists.
  split_and!; [done | done | by apply remove_statements_ok |].
  apply remove_statements_gone.
Qed.

(** deleting a directory whose own path has no record leaves the search
    database as it is, whatever is recorded for the files below it *)
Lemma deleteFile_directory_index_unchanged P s filename filepath ix d s' :
  resolveSafePath (cwd P) (notesDir s) filename false = Ok filepath ->
  fs s !! filepath = Some FDir ->
  searchIndexer s = Some ix -> db ix = Some d ->
  Path.relative (cwd P) (workspaceDir ix) filepath ∉ row_paths d ->
  deleteFile P s filename = Ok s' ->
  exists ix', searchIndexer s' = Some ix' /\ db ix' = Some d.
Proof.
  intros Hres Hdir Hix Hdb Hrel. unfold deleteFile. rewrite Hres. simpl.
  rewrite Hdir. simpl. rewrite Hix. unfold removeFile. rewrite Hdb.
  intros [= <-]. rewrite buildIndex_searchIndexer. simpl.
  eexists. split; [done |]. simpl. f_equal. unfold remove_statements.
  destruct (find_by_path _ (files d)) as [r|] eqn:Hfind; [|done].
  apply find_by_path_Some in Hfind as [Hin Hp]. exfalso. apply Hrel.
  rewrite <- Hp. unfold row_paths. by apply list_elem_of_In, in_map, list_elem_of_In.
Qed.

(** C2 fails for directories: [deleteFile] calls [removeFile] once, with
    the path of the directory, and the records of the files below it
    stay.  After [dir/a.md] is written and [dir] is deleted, the file is
    gone from the disk while its document record and its full-text entry
    remain, and [search] still returns it. *)
Lemma deleteFile_directory_keeps_records :
  exists s1 written s2 ix d,
    writeFile sample_platform (clock_at "01" 1) [] [] sample_store
      "dir/a.md" "secret" = Ok (s1, written) /\
    deleteFile sample_platform s1 "dir" = Ok s2 /\
    fs s2 !! "/ws/dir" = None /\ fs s2 !! "/ws/dir/a.md" = None /\
    searchIndexer s2 = Some ix /\ db ix = Some d /\
    row_paths d = ["dir/a.md"] /\
    fts_content <$> (files_fts d !! 1%N) = Some "secret" /\
    search sample_platform ix "a.md" DEFAULT_LIMIT
    = Ok [{| res_path := "dir/a.md"; res_filename := "a.md";
             res_snippet := ""; res_rank := 0 |}].
Proof.
  do 5 eexists. split; [vm_compute; reflexivity |].
  split; [vm_compute; reflexivity |].
  split; [vm_compute; reflexivity |].
  split; [vm_compute; reflexivity |].
  split; [vm_compute; reflexivity |].
  split; [vm_compute; reflexivity |].
  split; [vm_compute; reflexivity |].
  split; vm_compute; reflexivity.
Qed.

(** ** Front matter *)

Lemma append_assoc (a b c : string) : (a +:+ b) +:+ c = a +:+ (b +:+ c).
Proof. induction a as [|x a IH]; simpl; [done | by rewrite IH]. Qed.

(** a closing fence that begins inside [t] lies inside [t] altogether *)
Lemma closing_fence_not_astride t r :
  t <> EmptyString ->
  startsWith (t +:+ closing_fence +:+ r) closing_fence = true ->
  startsWith t closing_fence = true.
Proof.
  intros Hne.
  destruct t as [|a [|b [|c [|d t]]]]; [done | | | |];
    unfold closing_fence, nl, fence; simpl;
    repeat (match goal with
            | |- context [Ascii.eqb ?x ?y] =>
                destruct (Ascii.eqb_spec x y); try subst; simpl; try discriminate
            end); try done.
  intros _. apply startsWith_empty.
Qed.

Lemma find_fence_unfold s :
  find_fence s =
  if startsWith s closing_fence then Some (EmptyString, drop_str 4 s)
  else match s with
       | EmptyString => None
       | String c s' =>
           match find_fence s' with
           | Some (before, after) => Some (String c before, after)
           | None => None
           end
       end.
Proof. by destruct s. Qed.

Lemma find_fence_here t r :
  occurs closing_fence t = false ->
  find_fence (t +:+ closing_fence +:+ r) = Some (t, r).
Proof.
  induction t as [|c t IH]; intros Hocc; rewrite find_fence_unfold.
  - change (EmptyString +:+ closing_fence +:+ r) with (closing_fence +:+ r).
    by rewrite startsWith_refl_app.
  - change (occurs closing_fence (String c t))
      with (startsWith (String c t) closing_fence || occurs closing_fence t)
      in Hocc.
    apply orb_false_iff in Hocc as [Hhere Hrest].
    destruct (startsWith (String c t +:+ closing_fence +:+ r) closing_fence)
      eqn:Hsw.
    + apply closing_fence_not_astride in Hsw; [|done]. congruence.
    + change (String c t +:+ closing_fence +:+ r)
        with (String c (t +:+ closing_fence +:+ r)).
      cbv beta iota. by rewrite (IH Hrest).
Qed.

Lemma open_fence_here t rest :
  t <> EmptyString -> starts_with_space t = false ->
  open_fence (nl +:+ t +:+ rest) = find_fence (t +:+ rest).
Proof.
  intros Hne Hsp. destruct t as [|c t]; [done |]. simpl in Hsp.
  unfold nl. simpl. by rewrite Hsp.
Qed.

Lemma skip_spaces_nl s : skip_spaces (nl +:+ nl +:+ s) = skip_spaces s.
Proof. reflexivity. Qed.

(** the fence pattern applied to what [buildFrontMatter] writes *)
Lemma match_front_matter_built text rest :
  text <> EmptyString -> starts_with_space text = false ->
  occurs closing_fence text = false ->
  match_front_matter
    (fence +:+ nl +:+ (text +:+ nl) +:+ fence +:+ nl +:+ nl +:+ rest)
  = Some (text, skip_spaces rest).
Proof.
  intros Hne Hsp Hocc. unfold match_front_matter.
  change (drop_str 3 (fence +:+ nl +:+ (text +:+ nl) +:+ fence +:+ nl +:+ nl +:+ rest))
    with (nl +:+ (text +:+ nl) +:+ fence +:+ nl +:+ nl +:+ rest).
  rewrite append_assoc.
  change (nl +:+ fence +:+ nl +:+ nl +:+ rest)
    with (closing_fence +:+ (nl +:+ nl +:+ rest)).
  rewrite open_fence_here by done.
  rewrite find_fence_here by done. by rewrite skip_spaces_nl.
Qed.

(** C8: when the metadata [d] parsed from a document is written by
    [buildFrontMatter] in front of a body and the result is parsed again,
    the raw block handed to the YAML parser is exactly the text the YAML
    writer produced, so the metadata read back is [d] again.  The YAML
    library is taken to end its output with a newline, to start it with a
    visible character, to write no line that begins with three dashes, and
    to read its own output back. *)
Theorem front_matter_round_trip P content d text rest :
  data (parseFrontMatter P content) = Some d ->
  yaml_dump P d = text +:+ nl ->
  text <> EmptyString -> starts_with_space text = false ->
  occurs closing_fence text = false ->
  yaml_load P text = Some d ->
  let again := parseFrontMatter P (buildFrontMatter P d +:+ rest) in
  hasFrontMatter again = true /\ data again = Some d /\
  raw again = Some text /\ body again = skip_spaces rest.
Proof.
  intros Hdata Hdump Hne Hsp Hocc Hload again. subst again.
  assert (truthy d = true) as Htruthy.
  { unfold parseFrontMatter in Hdata.
    destruct (negb (startsWith (strip_bom content) fence)); [done |].
    destruct (match_front_matter (strip_bom content)) as [[r b]|]; [|done].
    simpl in Hdata. destruct (yaml_load P r) as [v|]; [|done].
    destruct (truthy v) eqn:Hv; [|done]. by injection Hdata as ->. }
  unfold parseFrontMatter, buildFrontMatter. rewrite Hdump.
  rewrite !append_assoc.
  assert (strip_bom (fence +:+ nl +:+ text +:+ nl +:+ fence +:+ nl +:+ nl +:+ rest)
          = fence +:+ nl +:+ text +:+ nl +:+ fence +:+ nl +:+ nl +:+ rest) as ->
      by reflexivity.
  assert (startsWith (fence +:+ nl +:+ text +:+ nl +:+ fence +:+ nl +:+ nl +:+ rest)
            fence = true) as -> by apply startsWith_refl_app.
  simpl negb. cbv iota.
  pose proof (match_front_matter_built text rest Hne Hsp Hocc) as Hm.
  rewrite !append_assoc in Hm. rewrite Hm. simpl.
  by rewrite Hload, Htruthy.
Qed.

Lemma front_matter_round_trip_witness :
  let content := "---" +:+ nl +:+ "title: x" +:+ nl +:+ "---" +:+ nl +:+ "old body" in
  let d := JObj [("title", JStr "x")] in
  data (parseFrontMatter sample_platform content) = Some d /\
  data (parseFrontMatter sample_platform
          (buildFrontMatter sample_platform d +:+ "new body")) = Some d.
Proof.
  split; [reflexivity |].
  apply (front_matter_round_trip sample_platform
           ("---" +:+ nl +:+ "title: x" +:+ nl +:+ "---" +:+ nl +:+ "old body")
           (JObj [("title", JStr "x")]) "title: x" "new body");
    [reflexivity | reflexivity | discriminate | reflexivity | reflexivity
    | reflexivity].
Defined.

(** ** The version store *)

Lemma mkdir_p_keeps f dir k v : f !! k = Some v -> mkdir_p f dir !! k = Some v.
Proof.
  unfold mkdir_p.
  generalize (path_inits (Path.isAbsolute dir) [] (Path.segments dir)).
  intros l. revert f. induction l as [|p l IH]; intros f Hf; simpl; [done |].
  apply IH. destruct (f !! p) eqn:Hp; [done |].
  rewrite lookup_insert_ne; [done | congruence].
Qed.

Lemma ensureNotesDir_notesDir s : notesDir (ensureNotesDir s) = notesDir s.
Proof. unfold ensureNotesDir. by destruct (notesDir s) eqn:Hnd. Qed.

Lemma ensureNotesDir_meta_dirs s : meta_dirs (ensureNotesDir s) = meta_dirs s.
Proof. unfold ensureNotesDir. by destruct (notesDir s) eqn:Hnd. Qed.

Lemma ensureNotesDir_keeps s k v :
  fs s !! k = Some v -> fs (ensureNotesDir s) !! k = Some v.
Proof.
  unfold ensureNotesDir. destruct (notesDir s); [|done].
  simpl. apply mkdir_p_keeps.
Qed.

Lemma buildIndex_keeps s k v :
  fs s !! k = Some v -> fs (buildIndex s) !! k = Some v.
Proof.
  unfold buildIndex, ensureNotesDir, ensureMetaDir.
  destruct (notesDir s) eqn:Hnd; [|done]. simpl. rewrite Hnd. simpl.
  intros H. by apply mkdir_p_keeps, mkdir_p_keeps.
Qed.

Lemma getPreviousDir_notesDir s filename :
  notesDir (fst (getPreviousDir s filename)) = notesDir s.
Proof.
  unfold getPreviousDir, ensureMetaDir. by destruct (notesDir s) eqn:Hnd.
Qed.

Lemma getPreviousDir_keeps s filename k v :
  fs s !! k = Some v -> fs (fst (getPreviousDir s filename)) !! k = Some v.
Proof.
  unfold getPreviousDir, ensureMetaDir. destruct (notesDir s); [|done].
  simpl. apply mkdir_p_keeps.
Qed.

Lemma getPreviousDir_path s filename nd :
  notesDir s = Some nd ->
  snd (getPreviousDir s filename) = Some (previousDir_of nd filename).
Proof.
  intros Hnd. unfold getPreviousDir, ensureMetaDir. by rewrite Hnd.
Qed.

Lemma getPreviousDir_meta_dir s filename dir :
  meta_dir (fst (getPreviousDir s filename)) dir = meta_dir s dir.
Proof.
  unfold getPreviousDir, ensureMetaDir, meta_dir.
  destruct (notesDir s) as [nd|]; [|done]. simpl.
  destruct (meta_dirs s !! Path.join_paths _) eqn:Hd; simpl; [done |].
  destruct (decide (Path.join_paths
                      [Path.join_paths [nd; META_DIRNAME]; PREVIOUS_DIRNAME;
                       safeName filename] = dir)) as [<-|Hne].
  - by rewrite lookup_insert_eq, Hd.
  - by rewrite lookup_insert_ne.
Qed.

Lemma write_meta_meta_dir s dir name content dir' :
  meta_dir (write_meta s dir name content) dir'
  = if decide (dir = dir') then <[name := content]> (meta_dir s dir)
    else meta_dir s dir'.
Proof.
  unfold write_meta, meta_dir at 1. simpl.
  destruct (decide (dir = dir')) as [<-|Hne].
  - by rewrite lookup_insert_eq.
  - by rewrite lookup_insert_ne.
Qed.

(** what a successful [writeFile] leaves behind *)
Lemma writeFile_Ok P t sys usr s filename content s' written :
  writeFile P t sys usr s filename content = Ok (s', written) ->
  exists filepath pc,
    resolveSafePath (cwd P) (notesDir s) filename false = Ok filepath /\
    read_or_null (ensureNotesDir s) filepath = Ok pc /\
    notesDir s' = notesDir s /\
    fs s' !! filepath = Some (FFile written) /\
    meta_dirs s'
    = meta_dirs (snapshot_step t (ensureNotesDir s) filename pc written).
Proof.
  unfold writeFile. rewrite ensureNotesDir_notesDir.
  destruct (resolveSafePath _ _ _ _) as [filepath|] eqn:Hres; [|done]. simpl.
  destruct (read_or_null _ _) as [pc|] eqn:Hread; [|done]. simpl.
  set (final := if String.eqb _ ".md" then _ else content).
  fold (snapshot_step t (ensureNotesDir s) filename pc final).
  set (s1 := snapshot_step t (ensureNotesDir s) filename pc final).
  intros [= <- <-]. exists filepath, pc. split_and!; try done.
  - rewrite buildIndex_notesDir.
    assert (notesDir s1 = notesDir s) as Hnd.
    { subst s1. unfold snapshot_step. destruct pc as [c|];
        [|apply ensureNotesDir_notesDir].
      destruct (negb _); [|apply ensureNotesDir_notesDir].
      pose proof (getPreviousDir_notesDir (ensureNotesDir s) filename) as Hg.
      destruct (getPreviousDir _ _) as [x [pd|]]; simpl in *;
        by rewrite Hg, ensureNotesDir_notesDir. }
    by destruct (searchIndexer _).
  - apply buildIndex_keeps.
    destruct (searchIndexer _); simpl; apply lookup_insert_eq.
  - rewrite buildIndex_meta_dirs. by destruct (searchIndexer _).
Qed.

(** C6: when the content a second write ends up with is the content the
    first write stored, the second write creates no snapshot: the
    snapshot directories are what they were. *)
Theorem identical_write_no_snapshot
    P t1 t2 sys1 usr1 sys2 usr2 s filename c1 c2 s1 w1 s2 w2 :
  writeFile P t1 sys1 usr1 s filename c1 = Ok (s1, w1) ->
  writeFile P t2 sys2 usr2 s1 filename c2 = Ok (s2, w2) ->
  w2 = w1 ->
  meta_dirs s2 = meta_dirs s1.
Proof.
  intros (filepath & pc1 & Hres1 & _ & Hnd1 & Hfs1 & _)%writeFile_Ok
         (filepath2 & pc2 & Hres2 & Hread2 & _ & _ & Hmeta2)%writeFile_Ok ->.
  rewrite Hnd1, Hres1 in Hres2. injection Hres2 as <-.
  unfold read_or_null in Hread2.
  rewrite (ensureNotesDir_keeps s1 _ _ Hfs1) in Hread2. injection Hread2 as <-.
  rewrite Hmeta2. unfold snapshot_step. rewrite String.eqb_refl. simpl.
  apply ensureNotesDir_meta_dirs.
Qed.

Lemma identical_write_no_snapshot_witness :
  exists s1 w1 s2 w2,
    writeFile sample_platform (clock_at "01" 1) [] [] sample_store "a.txt" "X"
    = Ok (s1, w1) /\
    writeFile sample_platform (clock_at "02" 2) [] [] s1 "a.txt" "X"
    = Ok (s2, w2) /\
    w2 = w1 /\ meta_dirs s2 = meta_dirs s1.
Proof.
  do 4 eexists.
  assert (forall A B C D : Prop, forall (a : A) (b : B) (c : C),
             (A -> B -> C -> D) -> A /\ B /\ C /\ D) as Hand by tauto.
  apply Hand;
    [vm_compute; reflexivity | vm_compute; reflexivity | reflexivity |].
  apply (identical_write_no_snapshot sample_platform).
Defined.

Lemma ltb_leb a b : String.ltb a b = true -> String.leb a b = true.
Proof. unfold String.ltb, String.leb. by destruct (String.compare a b). Qed.

Lemma ltb_not_leb a b : String.ltb a b = true -> String.leb b a = false.
Proof.
  unfold String.ltb, String.leb. rewrite (String.compare_antisym a b).
  by destruct (String.compare b a).
Qed.

Lemma leb_refl a : String.leb a a = true.
Proof.
  pose proof (@reflexivity _ String.le _ a) as H.
  unfold String.le in H. by apply Is_true_true in H.
Qed.


Lemma insert_sorted_In e x l : In e (insert_sorted x l) <-> e = x \/ In e l.
Proof.
  induction l as [|y l IH]; simpl; [naive_solver |].
  destruct (String.leb x y); simpl; [naive_solver |].
  rewrite IH. naive_solver.
Qed.

Lemma js_sort_In e l : In e (js_sort l) <-> In e l.
Proof.
  induction l as [|x l IH]; simpl; [done |].
  rewrite insert_sorted_In, IH. naive_solver.
Qed.

Lemma insert_sorted_nonempty x l : insert_sorted x l <> [].
Proof. destruct l as [|y l]; simpl; [done |]. by destruct (String.leb x y). Qed.

Lemma last_cons_nonempty {A} (y : A) l d : l <> [] -> List.last (y :: l) d = List.last l d.
Proof. by destruct l. Qed.

Lemma insert_keeps_last x l n d :
  l <> [] -> List.last l d = n -> String.leb x n = true ->
  List.last (insert_sorted x l) d = n.
Proof.
  induction l as [|y l IH]; [done |]. intros _ Hlast Hle.
  simpl insert_sorted. destruct (String.leb x y) eqn:Hxy.
  - by rewrite last_cons_nonempty.
  - destruct l as [|z l].
    + simpl in Hlast. subst y. congruence.
    + rewrite last_cons_nonempty by apply insert_sorted_nonempty.
      apply IH; [done | | done]. by rewrite last_cons_nonempty in Hlast.
Qed.

Lemma insert_last_new n l d :
  (forall e, In e l -> String.leb n e = false) ->
  List.last (insert_sorted n l) d = n.
Proof.
  induction l as [|y l IH]; intros Hall; [done |].
  simpl insert_sorted. rewrite (Hall y) by (by left).
  rewrite last_cons_nonempty by apply insert_sorted_nonempty.
  apply IH. intros e He. apply Hall. by right.
Qed.

(** the entry that is greater than all the others ends the sorted list *)
Lemma js_sort_last n l d :
  In n l -> (forall e, In e l -> e = n \/ String.ltb e n = true) ->
  List.last (js_sort l) d = n.
Proof.
  induction l as [|x l IH]; [done |]. intros Hin Hall. simpl js_sort.
  destruct (in_dec String.string_dec n l) as [Hnl | Hnl].
  - apply insert_keeps_last.
    + intros Hnil. apply js_sort_In in Hnl. by rewrite Hnil in Hnl.
    + apply IH; [done |]. intros e He. apply Hall. by right.
    + destruct (Hall x (or_introl eq_refl)) as [-> | Hlt];
        [apply leb_refl | by apply ltb_leb].
  - assert (x = n) as -> by (by destruct Hin).
    apply insert_last_new. intros e He. apply (js_sort_In e l) in He.
    destruct (Hall e (or_intror He)) as [-> | Hlt]; [done |].
    by apply ltb_not_leb.
Qed.

Lemma rev_head_last {A} (l : list A) d :
  l <> [] -> exists rest, List.rev l = List.last l d :: rest.
Proof.
  intros Hne. exists (List.rev (removelast l)).
  rewrite <- rev_unit. f_equal. by apply app_removelast_last.
Qed.

Lemma str_rev_app a b : str_rev (a +:+ b) = str_rev b +:+ str_rev a.
Proof.
  unfold str_rev.
  assert (forall x y, list_ascii_of_string (x +:+ y)
                      = list_ascii_of_string x ++ list_ascii_of_string y) as Happ.
  { induction x as [|c x IH]; intros y; simpl; [done | by rewrite IH]. }
  assert (forall x y, string_of_list_ascii (x ++ y)
                      = string_of_list_ascii x +:+ string_of_list_ascii y) as Happ'.
  { induction x as [|c x IH]; intros y; simpl; [done | by rewrite IH]. }
  by rewrite Happ, rev_app_distr, Happ'.
Qed.

Lemma endsWith_app a suffix : endsWith (a +:+ suffix) suffix = true.
Proof. unfold endsWith. rewrite str_rev_app. apply startsWith_refl_app. Qed.

Lemma readdir_meta_In s dir e :
  In e (readdir_meta s dir) <-> is_Some (meta_dir s dir !! e).
Proof.
  unfold readdir_meta. rewrite in_map_iff. split.
  - intros ([k v] & <- & Hin). exists v.
    by apply elem_of_map_to_list, list_elem_of_In.
  - intros [v Hv]. exists (e, v). split; [done |].
    by apply list_elem_of_In, elem_of_map_to_list.
Qed.

Lemma meta_dir_ext a b dir :
  meta_dirs a = meta_dirs b -> meta_dir a dir = meta_dir b dir.
Proof. unfold meta_dir. by intros ->. Qed.



(** ** Importing *)

Lemma append_nil_r s : s +:+ EmptyString = s.
Proof. induction s as [|c s IH]; simpl; [done | by rewrite IH]. Qed.

Lemma take_drop_str n s : Path.take_str n s +:+ drop_str n s = s.
Proof.
  revert s. induction n as [|n IH]; intros [|c s]; simpl; try done.
  by rewrite IH.
Qed.

Lemma length_append a b : String.length (a +:+ b) = String.length a + String.length b.
Proof. induction a as [|c a IH]; simpl; [done | by rewrite IH]. Qed.

Lemma length_drop_str n s : String.length (drop_str n s) = String.length s - n.
Proof. revert s. induction n as [|n IH]; intros [|c s]; simpl; try done; lia. Qed.

Lemma last_dot_bound s :
  forall k found j,
    Path.last_dot s k found = Some j ->
    found = Some j \/ (k <= j < k + String.length s).
Proof.
  induction s as [|c s IH]; intros k found j; simpl; [by left |].
  intros H. apply IH in H as [H | H]; [|right; lia].
  destruct (Ascii.eqb c chr_dot); [|by left].
  injection H as <-. right. lia.
Qed.

Lemma last_nonempty_free segs acc :
  has_char chr_slash acc = false ->
  Forall (fun w => has_char chr_slash w = false) segs ->
  has_char chr_slash (Path.last_nonempty segs acc) = false.
Proof.
  intros Hacc Hsegs. revert acc Hacc.
  induction Hsegs as [|w segs Hw _ IH]; intros acc Hacc; simpl; [done |].
  apply IH. by destruct (String.eqb w "").
Qed.

Lemma lastComponent_free p : has_char chr_slash (Path.lastComponent p) = false.
Proof. apply last_nonempty_free; [done | apply split_all_free]. Qed.

(** the name of a path is its base followed by its extension *)
Lemma basename_then_extname p :
  Path.isAbsolute p = true ->
  Path.basename p (Some (Path.extname p)) +:+ Path.extname p
  = Path.basename p None.
Proof.
  intros Habs. unfold Path.basename, Path.extname.
  set (b := Path.lastComponent p).
  destruct (Path.last_dot b 0 None) as [[|i]|] eqn:Hdot;
    [by rewrite append_nil_r | | by rewrite append_nil_r].
  destruct (String.eqb b "..") eqn:Hb; [by rewrite append_nil_r |].
  apply last_dot_bound in Hdot as [Hdot | Hdot]; [done |].
  set (ext := drop_str (S i) b).
  assert (String.length ext = String.length b - S i) as Hlen
      by apply length_drop_str.
  assert (String.eqb ext "" = false) as ->.
  { apply String.eqb_neq. intros Hext. rewrite Hext in Hlen. simpl in Hlen. lia. }
  assert (String.eqb ext p = false) as ->.
  { apply String.eqb_neq. intros Hext.
    pose proof (lastComponent_free p) as Hfree. fold b in Hfree.
    rewrite <- (take_drop_str (S i) b), has_char_app in Hfree.
    apply orb_false_iff in Hfree as [_ Hfree]. fold ext in Hfree.
    rewrite Hext in Hfree. unfold Path.isAbsolute in Habs.
    destruct p as [|c p]; [done |]. simpl in Habs, Hfree.
    apply andb_true_iff in Habs as [Hc _]. apply Ascii.eqb_eq in Hc as <-.
    by rewrite Ascii.eqb_refl in Hfree. }
  assert (endsWith b ext = true) as ->
      by (rewrite <- (take_drop_str (S i) b) at 1; apply endsWith_app).
  assert (String.eqb b ext = false) as ->.
  { apply String.eqb_neq. intros Heq.
    apply (f_equal String.length) in Heq. lia. }
  simpl. replace (String.length b - String.length ext) with (S i) by lia.
  apply take_drop_str.
Qed.


Section unique_path.
Variables (f : gmap string fnode) (dir base ext : string) (n : nat).
Hypothesis used_below :
  forall k, 1 <= k < n -> is_Some (f !! numbered dir base ext k).
Hypothesis unused : f !! numbered dir base ext n = None.

(** the loop of [getUniquePath] stops at the first unused name *)
Lemma getUniquePath_loop_finds m :
  forall counter fuel candidate,
    n = counter + m -> 1 <= counter ->
    is_Some (f !! candidate) -> m + 1 < fuel ->
    getUniquePath_loop fuel f dir base ext candidate counter
    = Some (numbered dir base ext n).
Proof.
  induction m as [|m IH]; intros counter fuel candidate Hn Hc [v Hv] Hfuel.
  - destruct fuel as [|[|fuel]]; [lia | lia |]. simpl. rewrite Hv.
    replace counter with n by lia. by rewrite unused.
  - destruct fuel as [|fuel]; [lia |]. simpl. rewrite Hv.
    apply IH; [lia | lia | apply used_below; lia | lia].
Qed.
End unique_path.

Lemma normalize_absolute p :
  Path.isAbsolute p = true -> Path.isAbsolute (Path.normalize p) = true.
Proof.
  intros Habs. unfold Path.normalize.
  destruct (String.eqb_spec p "") as [->|_]; [done |]. rewrite Habs.
  destruct (String.eqb _ ""); [done |]. apply (startsWith_refl_app "/").
Qed.

Lemma join_paths_absolute a rest :
  Path.isAbsolute a = true -> Path.isAbsolute (Path.join_paths (a :: rest)) = true.
Proof.
  intros Habs. unfold Path.join_paths. simpl List.filter.
  assert (String.eqb a "" = false) as -> by (by destruct a). simpl negb. cbv iota.
  apply normalize_absolute. unfold Path.isAbsolute in *.
  destruct (List.filter _ rest) as [|y l]; [exact Habs |].
  change (join "/" (a :: y :: l)) with (a +:+ String chr_slash (join "/" (y :: l))).
  destruct a as [|c a]; [done |]. simpl in *.
  apply andb_true_iff in Habs as [-> _]. simpl. apply startsWith_empty.
Qed.

(** C10: when the target directory already holds an entry with the base
    name of the source, [importFile] writes the copy under the first
    unused name [base (n)ext], [n] counting from 1, returns the relative
    path of that file, and leaves every entry that existed, the one with
    the base name among them, as it was; [n + 1] turns of the loop are
    enough.  [base] and [ext] are the two parts of the name of the
    source, so the new name has [ (n)] in front of the extension. *)
Theorem importFile_never_overwrites
    P s nd sourcePath targetDir safeTargetDir content n fuel :
  notesDir s = Some nd ->
  Path.isAbsolute nd = true ->
  sourcePath <> EmptyString ->
  (if String.eqb targetDir EmptyString then Ok nd
   else resolveSafePath (cwd P) (Some nd) targetDir false) = Ok safeTargetDir ->
  fs s !! sourcePath = Some (FFile content) ->
  let target := Path.join_paths [safeTargetDir; Path.basename sourcePath None] in
  let dir := Path.dirname target in
  let ext := Path.extname target in
  let base := Path.basename target (Some ext) in
  is_Some (fs s !! target) ->
  1 <= n ->
  (forall k, 1 <= k < n -> is_Some (fs s !! numbered dir base ext k)) ->
  fs s !! numbered dir base ext n = None ->
  n < fuel ->
  base +:+ ext = Path.basename target None /\
  exists s',
    importFile P fuel s sourcePath targetDir
    = Some (Ok (s', Path.relative (cwd P) nd (numbered dir base ext n))) /\
    fs s' !! numbered dir base ext n = Some (FFile content) /\
    (forall k v, fs s !! k = Some v -> fs s' !! k = Some v).
Proof.
  intros Hnd Habs Hsrc Hdir Hfile target dir ext base Htarget Hn Hused Hunused
    Hfuel.
  split.
  { apply basename_then_extname, join_paths_absolute.
    destruct (String.eqb targetDir ""); [by injection Hdir as <- |].
    unfold resolveSafePath in Hdir.
    destruct (resolve_rooted (cwd P) nd (Path.normalize targetDir) Habs)
      as (S & _ & Hres).
    destruct (negb _); [done |]. destruct (_ && _); [done |].
    injection Hdir as <-. rewrite Hres. apply (startsWith_refl_app "/"). }
  unfold importFile. rewrite Hnd.
  assert (String.eqb sourcePath "" = false) as -> by (by apply String.eqb_neq).
  rewrite Hdir. fold target. unfold getUniquePath. fold dir ext base.
  rewrite (getUniquePath_loop_finds (fs s) dir base ext n Hused Hunused (n - 1));
    [|lia | lia | done | lia].
  rewrite (mkdir_p_keeps _ _ _ _ Hfile).
  eexists. split; [reflexivity |]. split.
  - apply buildIndex_keeps. simpl. apply lookup_insert_eq.
  - intros k v Hk. apply buildIndex_keeps. simpl.
    rewrite lookup_insert_ne by congruence. by apply mkdir_p_keeps.
Qed.

Lemma importFile_never_overwrites_witness :
  exists s',
    importFile sample_platform 3 import_store "/src/a.txt" ""
    = Some (Ok (s', "a (2).txt")) /\
    fs s' !! "/ws/a (2).txt" = Some (FFile "new") /\
    fs s' !! "/ws/a.txt" = Some (FFile "old").
Proof.
  destruct (importFile_never_overwrites sample_platform import_store "/ws"
              "/src/a.txt" "" "/ws" "new" 2 3)
    as (_ & s' & Himport & Hcopy & Hkept).
  - reflexivity.
  - reflexivity.
  - discriminate.
  - reflexivity.
  - reflexivity.
  - vm_compute. eauto.
  - lia.
  - intros k Hk. assert (k = 1) as -> by lia. vm_compute. eauto.
  - reflexivity.
  - lia.
  - exists s'. split; [exact Himport |]. split; [exact Hcopy |].
    apply Hkept. reflexivity.
Defined.

(** ** The change watcher *)

#[local] Arguments advance : simpl never.

Lemma buildIndex_builds s nd :
  notesDir s = Some nd -> index_builds (buildIndex s) = S (index_builds s).
Proof.
  unfold buildIndex, ensureNotesDir, ensureMetaDir. intros Hnd.
  rewrite Hnd. simpl. by rewrite Hnd.
Qed.

Lemma advance_armed_early a t T :
  armed a t -> t <= T < t + DEBOUNCE_MS ->
  app_store (advance a T) = app_store a /\
  timers (advance a T) = timers a /\
  watcherTimer (advance a T) = watcherTimer a /\
  app_now (advance a T) = T.
Proof.
  intros (id & Htimers & Hw & Hnow) HT. unfold advance. simpl.
  rewrite Htimers, Hnow.
  rewrite map_filter_singleton_False by (simpl; lia).
  rewrite map_filter_singleton_True by (simpl; lia).
  rewrite map_size_empty. simpl. split_and!; try done. lia.
Qed.

Lemma advance_armed_late a t T nd :
  notesDir (app_store a) = Some nd ->
  armed a t -> t + DEBOUNCE_MS <= T ->
  index_builds (app_store (advance a T)) = S (index_builds (app_store a)) /\
  timers (advance a T) = ∅.
Proof.
  intros Hnd (id & Htimers & Hw & Hnow) HT. unfold advance. simpl.
  rewrite Htimers.
  rewrite map_filter_singleton_True by (simpl; lia).
  rewrite map_filter_singleton_False by (simpl; lia).
  rewrite map_size_singleton. simpl. split; [|done].
  by apply (buildIndex_builds _ nd).
Qed.

Lemma on_watch_event_qualified P a nd f :
  notesDir (app_store a) = Some nd -> qualifies P nd f = true ->
  on_watch_event P a f
  = {| app_store := app_store a; app_now := app_now a;
       timers := <[next_timer a := app_now a + DEBOUNCE_MS]>
                   (match watcherTimer a with
                    | Some id => delete id (timers a)
                    | None => timers a
                    end);
       next_timer := S (next_timer a);
       watcherTimer := Some (next_timer a) |}.
Proof.
  intros Hnd Hq. unfold on_watch_event. rewrite Hnd.
  destruct f as [f|]; [|done]. simpl in Hq.
  apply andb_true_iff in Hq as [Hne Hmeta].
  apply negb_true_iff in Hne, Hmeta. by rewrite Hne, Hmeta.
Qed.

(** an event without file name, or inside the metadata subtree (where
    [buildIndex] itself writes), leaves timers and store alone *)
Lemma on_watch_event_ignored P a nd f :
  notesDir (app_store a) = Some nd -> qualifies P nd f = false ->
  on_watch_event P a f = a.
Proof.
  intros Hnd Hq. unfold on_watch_event. rewrite Hnd.
  destruct f as [f|]; [|done]. simpl in Hq.
  destruct (String.eqb f ""); [done |]. simpl in Hq.
  apply negb_false_iff in Hq. by rewrite Hq.
Qed.

Lemma advance_idle a t :
  timers a = ∅ ->
  advance a t
  = {| app_store := app_store a; app_now := Nat.max (app_now a) t;
       timers := ∅; next_timer := next_timer a;
       watcherTimer := watcherTimer a |}.
Proof.
  intros Htimers. unfold advance.
  by rewrite Htimers, !map_filter_empty, map_size_empty.
Qed.

Lemma deliver_first P a nd t f :
  notesDir (app_store a) = Some nd -> timers a = ∅ -> app_now a <= t ->
  qualifies P nd f = true ->
  armed (deliver P a (t, f)) t /\ app_store (deliver P a (t, f)) = app_store a.
Proof.
  intros Hnd Htimers Hnow Hq. unfold deliver. simpl.
  rewrite (advance_idle a t Htimers).
  rewrite (on_watch_event_qualified P _ nd) by done.
  unfold armed. simpl. split; [|done].
  exists (next_timer a). split_and!; [|done | lia].
  replace (app_now a `max` t) with t by lia.
  destruct (watcherTimer a); by rewrite ?delete_empty, insert_empty.
Qed.

Lemma deliver_next P a nd t0 t f :
  notesDir (app_store a) = Some nd -> armed a t0 ->
  t0 <= t < t0 + DEBOUNCE_MS -> qualifies P nd f = true ->
  armed (deliver P a (t, f)) t /\ app_store (deliver P a (t, f)) = app_store a.
Proof.
  intros Hnd Harmed Ht Hq. unfold deliver. simpl.
  destruct (advance_armed_early a t0 t Harmed Ht) as (Hst & Htm & Hw & Hnow).
  rewrite (on_watch_event_qualified P _ nd) by (by rewrite ?Hst).
  destruct Harmed as (id & Htimers & Hwt & _).
  unfold armed. cbn [app_store timers watcherTimer app_now next_timer].
  rewrite Hst, Htm, Hw, Hnow, Htimers, Hwt.
  split; [|done]. exists (next_timer (advance a t)).
  by rewrite delete_singleton_eq, insert_empty.
Qed.

Lemma run_burst P nd evs :
  forall a t0,
    notesDir (app_store a) = Some nd -> armed a t0 ->
    burst P nd t0 evs = true ->
    armed (run_events P a evs) (last_time t0 evs) /\
    app_store (run_events P a evs) = app_store a.
Proof.
  induction evs as [|[t f] evs IH]; intros a t0 Hnd Harmed Hburst; [done |].
  simpl in Hburst.
  apply andb_true_iff in Hburst as [Hburst Hrest].
  apply andb_true_iff in Hburst as [Hburst Hq].
  apply andb_true_iff in Hburst as [Hle Hlt].
  apply Nat.leb_le in Hle. apply Nat.ltb_lt in Hlt.
  destruct (deliver_next P a nd t0 t f Hnd Harmed (conj Hle Hlt) Hq)
    as [Harmed' Hst].
  unfold run_events. simpl fold_left.
  destruct (IH (deliver P a (t, f)) t) as [Harmed'' Hst'];
    [by rewrite Hst | done | done |].
  split; [|by rewrite <- Hst].
  unfold last_time in *. simpl List.map.
  destruct evs as [|e evs]; [exact Harmed''|].
  rewrite last_cons_nonempty by done.
  replace (List.last (List.map fst (e :: evs)) t0)
    with (List.last (List.map fst (e :: evs)) t); [exact Harmed'' |].
  simpl. generalize (fst e). generalize (List.map fst evs). clear.
  induction l as [|x l IHl]; intros n; simpl; [done | apply IHl].
Qed.

(** C9: a burst of qualifying events, each less than 250 ms after the
    one before, ends in exactly one run of [buildIndex]: nothing is
    rebuilt while the burst lasts or in the 250 ms that follow its last
    event, one rebuild has run once those 250 ms are over, and no timeout
    is left behind. *)
Theorem debounced_burst_one_rebuild P a nd t0 f0 evs :
  notesDir (app_store a) = Some nd -> timers a = ∅ -> app_now a <= t0 ->
  qualifies P nd f0 = true -> burst P nd t0 evs = true ->
  let a' := run_events P a ((t0, f0) :: evs) in
  let tlast := last_time t0 evs in
  index_builds (app_store a') = index_builds (app_store a) /\
  (forall T, tlast <= T < tlast + DEBOUNCE_MS ->
     index_builds (app_store (advance a' T)) = index_builds (app_store a)) /\
  (forall T, tlast + DEBOUNCE_MS <= T ->
     index_builds (app_store (advance a' T)) = S (index_builds (app_store a))
     /\ timers (advance a' T) = ∅).
Proof.
  intros Hnd Htimers Hnow Hq Hburst a' tlast.
  destruct (deliver_first P a nd t0 f0 Hnd Htimers Hnow Hq) as [Harmed Hst].
  destruct (run_burst P nd evs (deliver P a (t0, f0)) t0) as [Harmed' Hst'];
    [by rewrite Hst | done | done |].
  change (run_events P (deliver P a (t0, f0)) evs) with a' in *.
  fold tlast in Harmed'. rewrite Hst in Hst'.
  split_and!.
  - by rewrite Hst'.
  - intros T HT.
    destruct (advance_armed_early a' tlast T Harmed' HT) as (-> & _).
    by rewrite Hst'.
  - intros T HT.
    destruct (advance_armed_late a' tlast T nd) as [Hb Ht];
      [by rewrite Hst' | done | done |].
    by rewrite Hb, Hst'.
Qed.

Lemma debounced_burst_one_rebuild_witness :
  let a' := run_events sample_platform idle_app
              [(10, Some "a.md"); (100, Some "b.md"); (300, Some "a.md")] in
  index_builds (app_store (advance a' 549)) = 0 /\
  index_builds (app_store (advance a' 550)) = 1.
Proof.
  destruct (debounced_burst_one_rebuild sample_platform idle_app "/ws" 10
              (Some "a.md") [(100, Some "b.md"); (300, Some "a.md")])
    as (_ & Hearly & Hlate); try reflexivity.
  - simpl. lia.
  - split.
    + apply (Hearly 549). vm_compute. lia.
    + apply (Hlate 550). vm_compute. lia.
Defined.

(** * Further properties *)

(** ** The search index, record by record *)

Lemma NoDup_map_eq {A B : Type} (f : A -> B) (l : list A) x y :
  NoDup (List.map f l) -> x ∈ l -> y ∈ l -> f x = f y -> x = y.
Proof.
  induction l as [|a l IH]; simpl; intros Hnd Hx Hy Hf.
  - by apply elem_of_nil in Hx.
  - apply NoDup_cons in Hnd as [Hna Hnd].
    apply elem_of_cons in Hx as [->|Hx]; apply elem_of_cons in Hy as [->|Hy];
      auto.
    + exfalso. apply Hna. rewrite Hf.
      by apply list_elem_of_In, in_map, list_elem_of_In.
    + exfalso. apply Hna. rewrite <- Hf.
      by apply list_elem_of_In, in_map, list_elem_of_In.
Qed.

Lemma find_by_path_update p r rows :
  find_by_path p
    (List.map (fun x => if String.eqb (row_path x) (row_path r)
                        then update_row r x else x) rows)
  = if String.eqb p (row_path r)
    then option_map (update_row r) (find_by_path p rows)
    else find_by_path p rows.
Proof.
  unfold find_by_path. induction rows as [|x rows IH]; simpl.
  - by destruct (String.eqb p (row_path r)).
  - destruct (String.eqb (row_path x) (row_path r)) eqn:Hx; simpl.
    + apply String.eqb_eq in Hx. rewrite Hx.
      rewrite (String.eqb_sym (row_path r) p).
      destruct (String.eqb p (row_path r)) eqn:Hp; simpl; [done | apply IH].
    + destruct (String.eqb (row_path x) p) eqn:Hxp; simpl; [|apply IH].
      apply String.eqb_eq in Hxp. subst p. by rewrite Hx.
Qed.

Lemma find_by_path_snoc p rows r :
  find_by_path p (rows ++ [r])
  = match find_by_path p rows with
    | Some x => Some x
    | None => if String.eqb (row_path r) p then Some r else None
    end.
Proof.
  unfold find_by_path. induction rows as [|x rows IH]; simpl; [done|].
  by destruct (String.eqb (row_path x) p).
Qed.

Lemma find_by_path_filter p rel rows :
  p <> rel ->
  find_by_path p
    (List.filter (fun x => negb (String.eqb (row_path x) rel)) rows)
  = find_by_path p rows.
Proof.
  intros Hne. unfold find_by_path. induction rows as [|x rows IH]; simpl; [done|].
  destruct (String.eqb (row_path x) rel) eqn:Hx; simpl.
  - apply String.eqb_eq in Hx.
    destruct (String.eqb (row_path x) p) eqn:Hxp; [|done].
    apply String.eqb_eq in Hxp. congruence.
  - destruct (String.eqb (row_path x) p); [done | apply IH].
Qed.

Lemma find_by_path_filter_gone rel rows :
  find_by_path rel
    (List.filter (fun x => negb (String.eqb (row_path x) rel)) rows) = None.
Proof.
  unfold find_by_path. induction rows as [|x rows IH]; simpl; [done|].
  destruct (String.eqb (row_path x) rel) eqn:Hx; simpl; [done|].
  by rewrite Hx.
Qed.

Lemma find_by_path_elem p rows :
  p ∈ List.map row_path rows -> is_Some (find_by_path p rows).
Proof.
  destruct (find_by_path p rows) eqn:Hf; [by eexists|].
  intros Hin. by apply find_by_path_None in Hf.
Qed.

Lemma row_paths_filter d rel :
  row_paths (remove_statements d rel)
  = List.filter (fun p => negb (String.eqb p rel)) (row_paths d).
Proof.
  unfold remove_statements, row_paths.
  destruct (find_by_path rel (files d)) as [r|] eqn:Hf; simpl.
  - clear Hf. induction (files d) as [|x rows IH]; simpl; [done|].
    destruct (String.eqb (row_path x) rel); simpl; [done | by f_equal].
  - apply find_by_path_None in Hf. clear -Hf.
    induction (files d) as [|x rows IH]; simpl in *; [done|].
    apply not_elem_of_cons in Hf as [Hne Hf].
    destruct (String.eqb (row_path x) rel) eqn:Hx; simpl.
    + apply String.eqb_eq in Hx. congruence.
    + by rewrite <- IH.
Qed.

(** the statements of [indexFile], seen from the records *)
Lemma index_statements_rows d now rel filename ext size mtime fm body d' ok :
  index_ok d ->
  index_statements d now rel filename ext size mtime fm body = (d', ok) ->
  indexed_row d' rel
  = Some {| fts_filename := filename; fts_content := body;
            fts_front_matter := fm |} /\
  (forall p, p <> rel -> indexed_row d' p = indexed_row d p) /\
  (rel ∈ row_paths d -> row_ids d' = row_ids d).
Proof.
  intros ((Hids & Hpaths) & (Hf1 & Hf2) & Hfts).
  unfold index_statements. rewrite Hf1. simpl.
  unfold upsert_file. simpl.
  destruct (find_by_path rel (files d)) as [old|] eqn:Hfind; simpl;
    rewrite Hf2; simpl; intros [= <- <-]; unfold indexed_row; simpl.
  - apply find_by_path_Some in Hfind as Hold. destruct Hold as [Hin Hp].
    split_and!.
    + rewrite (find_by_path_update rel
                 {| row_id := 0; row_path := rel; row_filename := filename;
                    row_extension := ext; row_size := size;
                    row_modified_at := mtime; row_indexed_at := now;
                    row_front_matter := Some fm |}).
      simpl. rewrite String.eqb_refl, Hfind. simpl. apply lookup_insert_eq.
    + intros p Hne.
      rewrite (find_by_path_update p
                 {| row_id := 0; row_path := rel; row_filename := filename;
                    row_extension := ext; row_size := size;
                    row_modified_at := mtime; row_indexed_at := now;
                    row_front_matter := Some fm |}).
      simpl. apply String.eqb_neq in Hne as Hne'. rewrite Hne'.
      destruct (find_by_path p (files d)) as [x|] eqn:Hx; [|done].
      apply find_by_path_Some in Hx as [Hxin Hxp].
      assert (row_id x <> row_id old) as Hid.
      { intros Heq. apply (NoDup_map_eq row_id (files d) x old Hids Hxin Hin) in Heq.
        subst x. congruence. }
      rewrite lookup_insert_ne by done. by rewrite lookup_delete_ne.
    + intros _. apply (update_keeps_ids
                 {| row_id := 0; row_path := rel; row_filename := filename;
                    row_extension := ext; row_size := size;
                    row_modified_at := mtime; row_indexed_at := now;
                    row_front_matter := Some fm |}).
  - split_and!.
    + rewrite find_by_path_snoc, Hfind. simpl. rewrite String.eqb_refl. simpl.
      apply lookup_insert_eq.
    + intros p Hne. rewrite find_by_path_snoc.
      destruct (find_by_path p (files d)) as [x|] eqn:Hx.
      * apply find_by_path_Some in Hx as [Hxin Hxp].
        assert (row_id x <> N.succ (N.max (sqlite_sequence d) (max_row_id (files d))))
          as Hid.
        { pose proof (max_row_id_ge _ _ Hxin). lia. }
        rewrite lookup_insert_ne by done. by rewrite lookup_delete_ne.
      * simpl. apply String.eqb_neq in Hne.
        rewrite String.eqb_sym in Hne. by rewrite Hne.
    + intros Hin. apply find_by_path_None in Hfind. done.
Qed.

Lemma remove_statements_rows d rel :
  index_ok d ->
  indexed_row (remove_statements d rel) rel = None /\
  (forall p, p <> rel ->
             indexed_row (remove_statements d rel) p = indexed_row d p) /\
  (rel ∉ row_paths d -> remove_statements d rel = d).
Proof.
  intros ((Hids & Hpaths) & _ & Hfts). unfold indexed_row, remove_statements.
  destruct (find_by_path rel (files d)) as [r|] eqn:Hfind; simpl.
  - apply find_by_path_Some in Hfind as Hr. destruct Hr as [Hin Hp].
    split_and!.
    + by rewrite find_by_path_filter_gone.
    + intros p Hne. rewrite find_by_path_filter by done.
      destruct (find_by_path p (files d)) as [x|] eqn:Hx; [|done].
      apply find_by_path_Some in Hx as [Hxin Hxp].
      apply lookup_delete_ne. intros Heq.
      apply (NoDup_map_eq row_id (files d) r x Hids Hin Hxin) in Heq.
      subst x. congruence.
    + intros Hnot. exfalso. apply Hnot. rewrite <- Hp. unfold row_paths.
      by apply list_elem_of_In, in_map, list_elem_of_In.
  - by rewrite Hfind.
Qed.

Lemma parse_agreement P content :
  snd (indexer_parseFrontMatter P content ".md")
  = body (parseFrontMatter P content).
Proof.
  unfold indexer_parseFrontMatter, parseFrontMatter. simpl.
  destruct (negb (startsWith (strip_bom content) fence)); [done|].
  by destruct (match_front_matter (strip_bom content)) as [[r rest]|].
Qed.

(** [indexFile] on a file that qualifies, seen from the records *)
Lemma indexFile_rows P now ix d filepath size mtimeMs content :
  db ix = Some d -> index_ok d ->
  recognized filepath = true -> (size <= MAX_INDEXED_SIZE)%N ->
  let ext := toLowerCase (Path.extname filepath) in
  let rel := Path.relative (cwd P) (workspaceDir ix) filepath in
  exists d',
    indexFile P now ix filepath (Seen size mtimeMs (Some content))
    = (set_db ix d', true) /\
    index_ok d' /\
    indexed_row d' rel
    = Some {| fts_filename := Path.basename filepath None;
              fts_content := snd (indexer_parseFrontMatter P content ext);
              fts_front_matter := fst (indexer_parseFrontMatter P content ext) |} /\
    (forall p, p <> rel -> indexed_row d' p = indexed_row d p) /\
    row_paths d' = (if decide (rel ∈ row_paths d) then row_paths d
                    else row_paths d ++ [rel]) /\
    (rel ∈ row_paths d -> row_ids d' = row_ids d).
Proof.
  intros Hdb Hok Hrec Hsize ext rel. unfold indexFile.
  unfold recognized in Hrec. rewrite Hrec. simpl.
  apply N.ltb_ge in Hsize. rewrite Hsize.
  fold ext. destruct (indexer_parseFrontMatter P content ext) as [fm body] eqn:Hp.
  rewrite Hdb. fold rel.
  destruct (index_statements d now rel (Path.basename filepath None) ext size
              mtimeMs fm body) as [d' ok] eqn:Hst.
  pose proof (index_statements_ok _ _ _ _ _ _ _ _ _ _ _ Hok Hst)
    as (Hok' & -> & Hpaths).
  pose proof (index_statements_rows _ _ _ _ _ _ _ _ _ _ _ Hok Hst)
    as (Hrow & Hothers & Hids).
  exists d'. by split_and!.
Qed.

(** X1: [createTables] brings every stored database to the current
    schema without dropping a record of [files], and it is idempotent:
    opening a database that has been prepared before changes nothing. *)
Theorem createTables_idempotent stored :
  current_schema (createTables stored) /\
  files (createTables stored) = default [] (files <$> stored) /\
  createTables (Some (createTables stored)) = createTables stored.
Proof.
  destruct stored as [d|]; [|done]. unfold createTables, current_schema. simpl.
  by destruct (fts_has_front_matter d).
Qed.

(** X2: indexing a file that already has a record replaces the record in
    place: the paths and the ids of the table are what they were (no
    second record), the full-text row of the file holds the body of the new
    content, and the full-text rows of the other files are untouched. *)
Theorem indexFile_replaces_record P now ix d filepath size mtimeMs content :
  db ix = Some d -> index_ok d ->
  recognized filepath = true -> (size <= MAX_INDEXED_SIZE)%N ->
  let ext := toLowerCase (Path.extname filepath) in
  let rel := Path.relative (cwd P) (workspaceDir ix) filepath in
  rel ∈ row_paths d ->
  exists d',
    indexFile P now ix filepath (Seen size mtimeMs (Some content))
    = (set_db ix d', true) /\
    index_ok d' /\ row_paths d' = row_paths d /\ row_ids d' = row_ids d /\
    fts_content <$> indexed_row d' rel
    = Some (snd (indexer_parseFrontMatter P content ext)) /\
    (forall p, p <> rel -> indexed_row d' p = indexed_row d p).
Proof.
  intros Hdb Hok Hrec Hsize ext rel Hin.
  destruct (indexFile_rows P now ix d filepath size mtimeMs content
              Hdb Hok Hrec Hsize)
    as (d' & Hix & Hok' & Hrow & Hothers & Hpaths & Hids).
  exists d'. fold rel in Hrow, Hothers, Hpaths, Hids. fold ext in Hrow.
  split_and!; try done.
  - rewrite Hpaths. by destruct (decide (rel ∈ row_paths d)).
  - by apply Hids.
  - by rewrite Hrow.
Qed.

Lemma indexFile_replaces_record_witness :
  exists d',
    indexFile sample_platform 2 sample_indexed "/ws/recon.md"
      (Seen 8 0 (Some "new text"))
    = (set_db sample_indexed d', true) /\
    row_paths d' = ["recon.md"] /\
    fts_content <$> indexed_row d' "recon.md" = Some "new text".
Proof.
  destruct (indexFile_replaces_record sample_platform 2 sample_indexed
              sample_database "/ws/recon.md" 8 0 "new text")
    as (d' & Hix & _ & Hpaths & _ & Hrow & _).
  - reflexivity.
  - vm_compute. split_and!; try done.
    + apply NoDup_cons. split; [apply not_elem_of_nil | apply NoDup_nil_2].
    + apply NoDup_cons. split; [apply not_elem_of_nil | apply NoDup_nil_2].
  - reflexivity.
  - vm_compute. discriminate.
  - vm_compute. apply list_elem_of_here.
  - exists d'. split_and!; [exact Hix | exact Hpaths | exact Hrow].
Defined.

(** X3: [removeFile] deletes the record of the path it is given and
    nothing else: the other paths stay in their order with their full-text
    rows, the path itself has no row left, the invariant of the index
    holds, and a path that has no record leaves the database as it is. *)
Theorem removeFile_removes_exactly P ix d filepath :
  db ix = Some d -> index_ok d ->
  let rel := Path.relative (cwd P) (workspaceDir ix) filepath in
  exists d',
    removeFile P ix filepath = Ok (set_db ix d') /\ index_ok d' /\
    row_paths d' = List.filter (fun p => negb (String.eqb p rel)) (row_paths d) /\
    indexed_row d' rel = None /\
    (forall p, p <> rel -> indexed_row d' p = indexed_row d p) /\
    (rel ∉ row_paths d -> d' = d).
Proof.
  intros Hdb Hok rel. unfold removeFile. rewrite Hdb. fold rel.
  exists (remove_statements d rel).
  destruct (remove_statements_rows d rel Hok) as (Hgone & Hothers & Hsame).
  split_and!; try done.
  - by apply remove_statements_ok.
  - apply row_paths_filter.
Qed.

Lemma removeFile_removes_exactly_witness :
  exists d',
    removeFile sample_platform sample_indexed "/ws/recon.md"
    = Ok (set_db sample_indexed d') /\
    row_paths d' = [] /\ indexed_row d' "recon.md" = None.
Proof.
  destruct (removeFile_removes_exactly sample_platform sample_indexed
              sample_database "/ws/recon.md")
    as (d' & Hrm & _ & Hpaths & Hrow & _).
  - reflexivity.
  - vm_compute. split_and!; try done.
    + apply NoDup_cons. split; [apply not_elem_of_nil | apply NoDup_nil_2].
    + apply NoDup_cons. split; [apply not_elem_of_nil | apply NoDup_nil_2].
  - exists d'. split_and!; [exact Hrm | exact Hpaths | exact Hrow].
Defined.

Lemma filter_other_paths_all rel rows :
  rel ∉ List.map row_path rows ->
  List.filter (fun x => negb (String.eqb (row_path x) rel)) rows = rows.
Proof.
  induction rows as [|x rows IH]; simpl; [done|].
  intros [Hne Hnot]%not_elem_of_cons.
  apply String.eqb_neq in Hne. rewrite String.eqb_sym in Hne.
  rewrite Hne. simpl. by rewrite IH.
Qed.

(** the statements of [indexFile] undone by those of [removeFile] *)
Lemma index_then_remove d now rel filename ext size mtime fm body d1 ok :
  index_ok d -> rel ∉ row_paths d ->
  index_statements d now rel filename ext size mtime fm body = (d1, ok) ->
  files (remove_statements d1 rel) = files d /\
  files_fts (remove_statements d1 rel) = files_fts d.
Proof.
  intros ((Hids & Hpaths) & (Hf1 & Hf2) & Hfts) Hnot.
  unfold index_statements. rewrite Hf1. simpl. unfold upsert_file. simpl.
  destruct (find_by_path rel (files d)) as [old|] eqn:Hfind.
  { apply find_by_path_Some in Hfind as [Hin Hp]. exfalso. apply Hnot.
    rewrite <- Hp. unfold row_paths.
    by apply list_elem_of_In, in_map, list_elem_of_In. }
  simpl. rewrite Hf2. simpl. intros [= <- <-].
  unfold remove_statements. simpl.
  rewrite find_by_path_snoc, Hfind. simpl. rewrite String.eqb_refl. simpl.
  split.
  - rewrite List.filter_app. simpl. rewrite String.eqb_refl. simpl.
    rewrite filter_other_paths_all by done. apply app_nil_r.
  - set (id := N.succ (N.max (sqlite_sequence d) (max_row_id (files d)))).
    rewrite delete_insert_eq, delete_delete_eq. apply delete_id.
    apply not_elem_of_dom. rewrite Hfts. intros Hin.
    apply elem_of_list_to_set in Hin. unfold row_ids in Hin.
    apply list_elem_of_In, in_map_iff in Hin as (x & Hx & Hxin).
    apply list_elem_of_In in Hxin. pose proof (max_row_id_ge _ _ Hxin). lia.
Qed.

(** X4: indexing a file that has no record and removing it again gives
    back the records and the full-text rows the database had, whether or
    not the file qualified for the index. *)
Theorem indexFile_then_removeFile P now ix d filepath obs :
  db ix = Some d -> index_ok d ->
  Path.relative (cwd P) (workspaceDir ix) filepath ∉ row_paths d ->
  exists ix2 d2,
    removeFile P (fst (indexFile P now ix filepath obs)) filepath = Ok ix2 /\
    db ix2 = Some d2 /\ files d2 = files d /\ files_fts d2 = files_fts d.
Proof.
  intros Hdb Hok Hnot.
  assert (exists ix2 d2, removeFile P ix filepath = Ok ix2 /\
                         db ix2 = Some d2 /\ files d2 = files d /\
                         files_fts d2 = files_fts d) as Hsame.
  { unfold removeFile. rewrite Hdb. eexists. eexists. split; [done|]. simpl.
    split; [done|].
    destruct (remove_statements_rows d
                (Path.relative (cwd P) (workspaceDir ix) filepath) Hok)
      as (_ & _ & Hid).
    by rewrite (Hid Hnot). }
  unfold indexFile. destruct obs as [|size mtimeMs content]; [done|].
  destruct (negb _); [done|]. destruct (_ <? _)%N; [done|].
  destruct content as [content|]; [|done].
  destruct (indexer_parseFrontMatter _ _ _) as [fm body]. rewrite Hdb.
  destruct (index_statements _ _ _ _ _ _ _ _ _) as [d1 ok] eqn:Hst. simpl.
  unfold removeFile. simpl. eexists. eexists. split; [done|]. simpl.
  split; [done|]. by apply (index_then_remove _ _ _ _ _ _ _ _ _ _ _ Hok Hnot Hst).
Qed.

Lemma indexFile_then_removeFile_witness :
  exists ix2 d2,
    removeFile sample_platform
      (fst (indexFile sample_platform 1 fresh_indexer "/ws/a.md"
              (Seen 5 0 (Some "hello")))) "/ws/a.md" = Ok ix2 /\
    db ix2 = Some d2 /\ files d2 = [] /\ files_fts d2 = ∅.
Proof.
  apply (indexFile_then_removeFile sample_platform 1 fresh_indexer
           empty_database "/ws/a.md" (Seen 5 0 (Some "hello"))).
  - reflexivity.
  - apply createTables_fresh_ok.
  - vm_compute. apply not_elem_of_nil.
Defined.

Lemma ensureNotesDir_searchIndexer s :
  searchIndexer (ensureNotesDir s) = searchIndexer s.
Proof. unfold ensureNotesDir. by destruct (notesDir s). Qed.

Lemma getPreviousDir_searchIndexer s filename :
  searchIndexer (fst (getPreviousDir s filename)) = searchIndexer s.
Proof.
  unfold getPreviousDir, ensureMetaDir. by destruct (notesDir s).
Qed.

Lemma writeFile_searchIndexer P t sys usr s filename content s' written :
  writeFile P t sys usr s filename content = Ok (s', written) ->
  exists filepath,
    resolveSafePath (cwd P) (notesDir s) filename false = Ok filepath /\
    searchIndexer s'
    = match searchIndexer s with
      | Some ix =>
          Some (fst (indexFile P (epoch_ms t) ix filepath
                       (Seen (N.of_nat (String.length written)) (epoch_ms t)
                          (Some written))))
      | None => None
      end.
Proof.
  unfold writeFile. rewrite ensureNotesDir_notesDir.
  destruct (resolveSafePath _ _ _ _) as [filepath|] eqn:Hres; [|done]. simpl.
  destruct (read_or_null _ _) as [pc|] eqn:Hread; [|done]. simpl.
  set (final := if String.eqb _ ".md" then _ else content).
  fold (snapshot_step t (ensureNotesDir s) filename pc final).
  set (s1 := snapshot_step t (ensureNotesDir s) filename pc final).
  intros [= <- <-]. exists filepath. split; [done|].
  rewrite buildIndex_searchIndexer.
  assert (searchIndexer s1 = searchIndexer s) as Hix.
  { subst s1. unfold snapshot_step.
    destruct pc as [c|]; [|apply ensureNotesDir_searchIndexer].
    destruct (negb _); [|apply ensureNotesDir_searchIndexer].
    pose proof (getPreviousDir_searchIndexer (ensureNotesDir s) filename) as Hg.
    destruct (getPreviousDir _ _) as [x [pd|]]; simpl in *;
      by rewrite Hg, ensureNotesDir_searchIndexer. }
  simpl. rewrite Hix. destruct (searchIndexer s) as [ix|]; [|done]. simpl.
  unfold observe. simpl. by rewrite lookup_insert_eq.
Qed.

(** X5: a note that [writeFile] saves is in the search index when the
    indexer is in order: the record of its path holds, as searchable
    content, the content written with its front matter taken off (for a
    [.md] file, the body that [parseFrontMatter] gives), whatever was
    indexed for the path before. *)
Theorem writeFile_indexes_body P t sys usr s filename content s' written
    ix filepath :
  writeFile P t sys usr s filename content = Ok (s', written) ->
  resolveSafePath (cwd P) (notesDir s) filename false = Ok filepath ->
  searchIndexer s = Some ix -> indexer_ok ix ->
  recognized filepath = true ->
  (N.of_nat (String.length written) <= MAX_INDEXED_SIZE)%N ->
  let ext := toLowerCase (Path.extname filepath) in
  let rel := Path.relative (cwd P) (workspaceDir ix) filepath in
  exists ix' d',
    searchIndexer s' = Some ix' /\ db ix' = Some d' /\ index_ok d' /\
    rel ∈ row_paths d' /\
    fts_content <$> indexed_row d' rel
    = Some (snd (indexer_parseFrontMatter P written ext)) /\
    (ext = ".md" ->
     fts_content <$> indexed_row d' rel
     = Some (body (parseFrontMatter P written))).
Proof.
  intros Hw Hres Hix (d & Hdb & Hok) Hrec Hsize ext rel.
  apply writeFile_searchIndexer in Hw as (filepath' & Hres' & Hs').
  rewrite Hres in Hres'. injection Hres' as <-. rewrite Hix in Hs'.
  destruct (indexFile_rows P (epoch_ms t) ix d filepath
              (N.of_nat (String.length written)) (epoch_ms t) written
              Hdb Hok Hrec Hsize)
    as (d' & Hidx & Hok' & Hrow & _ & Hpaths & _).
  fold rel in Hrow, Hpaths. fold ext in Hrow.
  rewrite Hidx in Hs'. simpl in Hs'.
  exists (set_db ix d'), d'. split_and!; try done.
  - rewrite Hpaths. destruct (decide (rel ∈ row_paths d)); [done|].
    apply elem_of_app. right. apply list_elem_of_here.
  - by rewrite Hrow.
  - intros Hext. rewrite Hrow. simpl. rewrite Hext. f_equal.
    apply parse_agreement.
Qed.

Lemma writeFile_indexes_body_witness :
  exists s' ix' d',
    writeFile sample_platform (clock_at "01" 1) [] [] sample_store "a.txt" "X"
    = Ok (s', "X") /\
    searchIndexer s' = Some ix' /\ db ix' = Some d' /\
    fts_content <$> indexed_row d' "a.txt" = Some "X".
Proof.
  destruct (writeFile_indexes_body sample_platform (clock_at "01" 1) [] []
              sample_store "a.txt" "X" sample_written_once "X" fresh_indexer
              "/ws/a.txt")
    as (ix' & d' & Hs & Hdb & _ & _ & Hrow & _).
  - reflexivity.
  - reflexivity.
  - reflexivity.
  - exists empty_database. split; [reflexivity | apply createTables_fresh_ok].
  - reflexivity.
  - vm_compute. discriminate.
  - exists sample_written_once, ix', d'.
    split_and!; [reflexivity | exact Hs | exact Hdb | exact Hrow].
Defined.

(** ** The query of [search] *)

Lemma split_spaces_no_space s :
  forall b, Forall (fun w => has_space w = false) (split_spaces b s).
Proof.
  induction s as [|c s IH]; intros b; simpl.
  - by constructor.
  - destruct (is_space c) eqn:Hc.
    + destruct b; [apply IH | constructor; [done | apply IH]].
    + specialize (IH false). destruct (split_spaces false s) as [|w ws].
      * constructor; [simpl; by rewrite Hc | done].
      * apply Forall_cons in IH as [Hw Hws].
        constructor; [simpl; by rewrite Hc, Hw | done].
Qed.

Lemma split_spaces_nonempty s :
  ends_in_word s = true ->
  forall b,
    Forall (fun w => w <> EmptyString) (List.tl (split_spaces b s)) /\
    (b = true \/ starts_with_space s = false ->
     Forall (fun w => w <> EmptyString) (split_spaces b s)).
Proof.
  induction s as [|c s IH]; [done|]. intros Hend b.
  destruct s as [|c' s'].
  - simpl in Hend. apply negb_true_iff in Hend. simpl. rewrite Hend.
    split; [done | intros _; by constructor].
  - assert (ends_in_word (String c' s') = true) as Hend' by exact Hend.
    specialize (IH Hend').
    change (split_spaces b (String c (String c' s')))
      with (if is_space c then
              if b then split_spaces true (String c' s')
              else EmptyString :: split_spaces true (String c' s')
            else match split_spaces false (String c' s') with
                 | w :: ws => String c w :: ws
                 | [] => [String c EmptyString]
                 end).
    destruct (is_space c) eqn:Hc.
    + destruct (IH true) as [Htl Hall]. destruct b.
      * split; [done | intros _; by apply Hall; left].
      * split; [by apply Hall; left |].
        intros [|Hs]; [done|]. simpl in Hs. congruence.
    + destruct (IH false) as [Htl _].
      destruct (split_spaces false (String c' s')) as [|w ws].
      * split; [done | intros _; by constructor].
      * simpl in Htl. split; [done | intros _; by constructor].
Qed.

Lemma skip_spaces_snoc x c :
  is_space c = false ->
  skip_spaces (x +:+ String c EmptyString)
  = skip_spaces x +:+ String c EmptyString.
Proof.
  intros Hc. induction x as [|d x IH]; simpl.
  - by rewrite Hc.
  - by destruct (is_space d).
Qed.

Lemma ends_in_word_snoc x c :
  ends_in_word (x +:+ String c EmptyString) = negb (is_space c).
Proof.
  induction x as [|d x IH]; [done|].
  destruct x as [|d' x']; [done|]. exact IH.
Qed.

Lemma str_rev_cons c s :
  str_rev (String c s) = str_rev s +:+ String c EmptyString.
Proof. apply (str_rev_app (String c EmptyString) s). Qed.

(** [trim] of a text that is not all white space begins and ends with a
    character that is no white space *)
Lemma trim_edges q :
  all_spaces q = false ->
  starts_with_space (trim q) = false /\ ends_in_word (trim q) = true.
Proof.
  intros Hq. unfold trim, str_trim_end.
  destruct (skip_spaces_head q) as [He | (c0 & r & Ha & Hc0)].
  { apply skip_spaces_empty in He. congruence. }
  rewrite Ha, str_rev_cons, skip_spaces_snoc by done.
  rewrite str_rev_app. simpl. split; [done|].
  change (ends_in_word (String c0 EmptyString
                        +:+ str_rev (skip_spaces (str_rev r))) = true).
  destruct (skip_spaces_head (str_rev r)) as [He | (c1 & r1 & Hb & Hc1)].
  - rewrite He. simpl. by rewrite Hc0.
  - rewrite Hb, str_rev_cons.
    rewrite <- append_assoc, ends_in_word_snoc. by rewrite Hc1.
Qed.

(** X6: the FTS5 query that [search] builds for a query that is not blank
    is made of proper terms: every term between the quotes is a word
    (not empty, free of white space), there is at least one, and the
    query is the terms quoted, starred and joined by [OR]. *)
Theorem ftsQuery_terms_are_words query :
  all_spaces query = false ->
  exists terms,
    terms <> [] /\
    Forall (fun w => is_word w = true) terms /\
    ftsQuery query
    = join " OR "
        (List.map (fun term => dquote +:+ term +:+ dquote +:+ "*") terms).
Proof.
  intros Hq. exists (split_spaces false (trim query)).
  destruct (trim_edges query Hq) as [Hstart Hend].
  destruct (split_spaces_nonempty (trim query) Hend false) as [_ Hne].
  specialize (Hne (or_intror Hstart)).
  pose proof (split_spaces_no_space (trim query) false) as Hsp.
  split_and!; [| |done].
  - destruct (trim query); [done|]. simpl.
    destruct (is_space a); [done|]. by destruct (split_spaces false s).
  - rewrite Forall_forall in *. intros w Hw. unfold is_word.
    rewrite (Hsp w Hw). apply andb_true_iff. split; [|done].
    apply negb_true_iff, String.eqb_neq. by apply Hne.
Qed.

Lemma ftsQuery_terms_are_words_witness :
  exists terms,
    terms <> [] /\ Forall (fun w => is_word w = true) terms /\
    ftsQuery "  open   port " 
    = join " OR "
        (List.map (fun term => dquote +:+ term +:+ dquote +:+ "*") terms).
Proof.
  apply (ftsQuery_terms_are_words "  open   port "). reflexivity.
Defined.

(** X7: when the full-text statement fails, [search] answers a query that
    has no [%] and no [_] by a substring search: the rows of [files]
    whose file name or path contains the query, letters compared without
    regard to case, in the order of the table, cut at [limit]. *)
Theorem search_fallback_is_substring_search P ix d query limit :
  db ix = Some d ->
  all_spaces query = false -> no_wildcards query = true ->
  fts_match P d (ftsQuery query) limit = None ->
  exists results,
    search P ix query limit = Ok results /\
    results
    = firstn limit
        (List.map fallback_result
           (List.filter
              (fun r => occurs_ci query (row_filename r)
                        || occurs_ci query (row_path r)) (files d))) /\
    length results <= limit.
Proof.
  intros Hdb Hq Hw Hfts. unfold search.
  rewrite is_blank_all_spaces, Hq, Hdb, Hfts. eexists. split; [done|].
  unfold like_search. split; [|apply firstn_le_length].
  f_equal. f_equal. apply filter_ext. intros r.
  by rewrite !like_is_substring.
Qed.

Lemma search_fallback_is_substring_search_witness :
  search sample_platform sample_indexed "ECO" 5
  = Ok [{| res_path := "recon.md"; res_filename := "recon.md";
           res_snippet := ""; res_rank := 0 |}].
Proof.
  destruct (search_fallback_is_substring_search sample_platform sample_indexed
              sample_database "ECO" 5) as (results & Hs & Hr & _).
  - reflexivity.
  - reflexivity.
  - reflexivity.
  - reflexivity.
  - rewrite Hs, Hr. reflexivity.
Defined.

(** ** Creating, moving, reading and deleting files *)

#[local] Arguments access : simpl never.
#[local] Arguments mkdir_p : simpl never.

Lemma mkdir_fold_lookup (l : list string) :
  forall (f : gmap string fnode) k,
    fold_left (fun acc d => match acc !! d with
                            | Some _ => acc
                            | None => <[d := FDir]> acc
                            end) l f !! k
    = match f !! k with
      | Some v => Some v
      | None => if decide (k ∈ l) then Some FDir else None
      end.
Proof.
  induction l as [|p l IH]; intros f k; cbn [fold_left].
  - destruct (f !! k); [done|]. case_decide as Hin; [|done].
    by apply elem_of_nil in Hin.
  - rewrite IH. destruct (f !! p) eqn:Hp.
    + destruct (f !! k) eqn:Hk; [done|].
      repeat case_decide; try done.
      * exfalso. apply H0. by apply elem_of_cons; right.
      * apply elem_of_cons in H0 as [->|?]; [congruence | done].
    + destruct (decide (k = p)) as [->|Hne].
      * rewrite lookup_insert_eq, Hp. case_decide as Hin; [done|].
        exfalso. apply Hin, list_elem_of_here.
      * rewrite lookup_insert_ne by done.
        destruct (f !! k) eqn:Hk; [done|].
        repeat case_decide; try done.
        -- exfalso. apply H0. by apply elem_of_cons; right.
        -- apply elem_of_cons in H0 as [->|?]; done.
Qed.

Lemma mkdir_p_lookup f dir k :
  mkdir_p f dir !! k
  = match f !! k with
    | Some v => Some v
    | None =>
        if decide (k ∈ path_inits (Path.isAbsolute dir) [] (Path.segments dir))
        then Some FDir else None
    end.
Proof. unfold mkdir_p. apply mkdir_fold_lookup. Qed.

Lemma mkdir_p_only_dirs f dir k c :
  mkdir_p f dir !! k = Some (FFile c) -> f !! k = Some (FFile c).
Proof.
  rewrite mkdir_p_lookup. destruct (f !! k); [done|]. by destruct (decide _).
Qed.

Lemma buildIndex_lookup s nd k :
  notesDir s = Some nd ->
  fs (buildIndex s) !! k
  = match fs s !! k with
    | Some v => Some v
    | None => if decide (k ∈ workspace_dirs nd) then Some FDir else None
    end.
Proof.
  intros Hnd. unfold buildIndex, ensureNotesDir, ensureMetaDir.
  rewrite Hnd. simpl. rewrite Hnd. simpl.
  rewrite !mkdir_p_lookup. unfold workspace_dirs.
  destruct (fs s !! k); [done|].
  set (A := path_inits _ _ (Path.segments nd)).
  set (B := path_inits _ _ (Path.segments (Path.join_paths _))).
  destruct (decide (k ∈ A)) as [HA|HA]; destruct (decide (k ∈ B)) as [HB|HB];
    destruct (decide (k ∈ A ++ B)) as [HC|HC]; try done;
    exfalso; rewrite elem_of_app in HC; tauto.
Qed.


Lemma workspace_ready_spec s nd :
  workspace_ready s nd = true ->
  notesDir s = Some nd /\
  forall d, d ∈ workspace_dirs nd -> fs s !! d = Some FDir.
Proof.
  unfold workspace_ready. intros [Hnd Hall]%andb_true_iff. split.
  - destruct (notesDir s) as [nd'|]; [|done].
    apply String.eqb_eq in Hnd. by subst.
  - rewrite forallb_forall in Hall. intros d Hd%list_elem_of_In.
    specialize (Hall d Hd). by destruct (fs s !! d) as [[]|].
Qed.

Lemma access_exists f p v : f !! p = Some v -> access f p = Done tt.
Proof.
  intros Hp. unfold access. destruct (String.eqb p "/"); [done|]. by rewrite Hp.
Qed.

Lemma access_free f p :
  access f p = Throws (Thrown ENOENT) ->
  f !! p = None /\ p <> "/" /\ blocked f p = false.
Proof.
  unfold access. destruct (String.eqb p "/") eqn:Hroot; [done|].
  apply String.eqb_neq in Hroot.
  destruct (f !! p); [done|]. by destruct (blocked f p).
Qed.

Lemma path_inits_last (abs : bool) (S : list string) :
  forall pre,
    S <> [] ->
    ((if abs then "/" else "") +:+ join "/" (pre ++ S))
      ∈ path_inits abs pre S.
Proof.
  induction S as [|x S IH]; intros pre Hne; [done|].
  destruct S as [|y S'].
  - simpl. apply list_elem_of_here.
  - change (path_inits abs pre (x :: y :: S'))
      with (((if abs then "/" else "") +:+ join "/" (pre ++ [x]))
              :: path_inits abs (pre ++ [x]) (y :: S')).
    apply elem_of_cons. right.
    replace (pre ++ x :: y :: S') with ((pre ++ [x]) ++ y :: S')
      by (by rewrite <- app_assoc).
    by apply IH.
Qed.

(** a resolved path other than the root is the last of the directories
    that [mkdir] goes through *)
Lemma resolved_in_own_inits cwd nd n p :
  Path.isAbsolute nd = true ->
  p = Path.resolve cwd [nd; n] -> p <> "/" ->
  p ∈ path_inits (Path.isAbsolute p) [] (Path.segments p).
Proof.
  intros Habs Hp Hroot.
  destruct (resolve_rooted cwd nd n Habs) as (S & HS & HpS).
  rewrite HpS in Hp. subst p. rewrite (segments_rooted S HS).
  assert (S <> []) as Hne by (intros ->; by apply Hroot).
  assert (Path.isAbsolute ("/" +:+ join "/" S) = true) as ->
    by apply (startsWith_refl_app "/").
  apply (path_inits_last true S [] Hne).
Qed.

Lemma resolveSafePath_resolve cwd nd filename allowMeta r :
  resolveSafePath cwd (Some nd) filename allowMeta = Ok r ->
  r = Path.resolve cwd [nd; Path.normalize filename].
Proof.
  unfold resolveSafePath. destruct (negb _); [done|].
  destruct (_ && _); [done|]. by intros [= <-].
Qed.

(** X8: [createFile] gives the note the name with [.md] at its end and
    never overwrites: when something exists at the path it fails with
    "File already exists"; when the path is free it writes there the
    front matter built from the title and the time and nothing else,
    keeps every entry the workspace had, leaves the snapshot directories
    as they were, and does not touch the search index (the new note is
    not indexed by this call). *)
Theorem createFile_creates_note P t sys usr s nd filename filepath :
  notesDir s = Some nd ->
  let name :=
    if endsWith filename ".md" then filename else filename +:+ ".md" in
  resolveSafePath (cwd P) (Some nd) name false = Ok filepath ->
  endsWith name ".md" = true /\
  (is_Some (fs s !! filepath) ->
   createFile P t sys usr s filename
   = Throws (Message "File already exists")) /\
  (access (fs (ensureNotesDir s)) filepath = Throws (Thrown ENOENT) ->
   exists s',
     createFile P t sys usr s filename = Done (s', name) /\
     fs s' !! filepath
     = Some (FFile (buildFrontMatter P
                      (synthesized
                         (Path.basename name
                            (Some (toLowerCase (Path.extname name))))
                         (local_stamp t) sys usr))) /\
     (forall k v, fs s !! k = Some v -> fs s' !! k = Some v) /\
     meta_dirs s' = meta_dirs s /\
     searchIndexer s' = searchIndexer s).
Proof.
  intros Hnd name Hres. split_and!.
  - subst name. destruct (endsWith filename ".md") eqn:He; [done|].
    apply endsWith_app.
  - intros [v Hv]. unfold createFile. rewrite Hnd. fold name.
    rewrite ensureNotesDir_notesDir, Hnd, Hres.
    by rewrite (access_exists _ _ v (ensureNotesDir_keeps _ _ _ Hv)).
  - intros Hacc. unfold createFile. rewrite Hnd. fold name.
    rewrite ensureNotesDir_notesDir, Hnd, Hres, Hacc.
    apply access_free in Hacc as (Hfree & _ & _).
    eexists. split; [done|]. split_and!.
    + apply buildIndex_keeps. simpl. apply lookup_insert_eq.
    + intros k v Hk. apply buildIndex_keeps. simpl.
      pose proof (ensureNotesDir_keeps _ _ _ Hk) as Hk0.
      rewrite lookup_insert_ne by congruence. by apply mkdir_p_keeps.
    + rewrite buildIndex_meta_dirs. simpl. apply ensureNotesDir_meta_dirs.
    + rewrite buildIndex_searchIndexer. simpl. apply ensureNotesDir_searchIndexer.
Qed.

Lemma createFile_creates_note_witness :
  exists s',
    createFile sample_platform (clock_at "01" 1) [] [] sample_store "todo"
    = Done (s', "todo.md") /\
    fs s' !! "/ws/todo.md"
    = Some (FFile ("---" +:+ nl +:+ "title: x" +:+ nl +:+ "---" +:+ nl +:+ nl)) /\
    searchIndexer s' = Some fresh_indexer /\
    createFile sample_platform (clock_at "02" 2) [] [] s' "todo"
    = Throws (Message "File already exists").
Proof.
  destruct (createFile_creates_note sample_platform (clock_at "01" 1) [] []
              sample_store "/ws" "todo" "/ws/todo.md")
    as (_ & _ & Hnew); [reflexivity | reflexivity |].
  destruct Hnew as (s' & Hc & Hfile & _ & _ & Hix); [reflexivity|].
  exists s'. split_and!; [exact Hc | exact Hfile | exact Hix |].
  injection Hc as <-. reflexivity.
Defined.

(** X9: [createFolder] refuses the empty name and never replaces an
    entry: anything at the path makes it fail with "Folder already
    exists".  When the path is free the folder is there afterwards as a
    directory, every entry the workspace had is kept, and creating the
    same folder once more fails. *)
Theorem createFolder_creates_folder P s nd folderName folderPath :
  notesDir s = Some nd -> Path.isAbsolute nd = true ->
  folderName <> EmptyString ->
  resolveSafePath (cwd P) (Some nd) folderName false = Ok folderPath ->
  createFolder P s EmptyString = Throws (Message "Invalid folder name") /\
  (is_Some (fs s !! folderPath) ->
   createFolder P s folderName = Throws (Message "Folder already exists")) /\
  (access (fs (ensureNotesDir s)) folderPath = Throws (Thrown ENOENT) ->
   exists s',
     createFolder P s folderName = Done (s', folderName) /\
     fs s' !! folderPath = Some FDir /\
     (forall k v, fs s !! k = Some v -> fs s' !! k = Some v) /\
     createFolder P s' folderName = Throws (Message "Folder already exists")).
Proof.
  intros Hnd Habs Hname Hres.
  apply String.eqb_neq in Hname as Hname'. split_and!.
  - unfold createFolder. by rewrite Hnd.
  - intros [v Hv]. unfold createFolder. rewrite Hnd, Hname'.
    rewrite ensureNotesDir_notesDir, Hnd, Hres.
    by rewrite (access_exists _ _ v (ensureNotesDir_keeps _ _ _ Hv)).
  - intros Hacc.
    set (s' := buildIndex (set_fs (ensureNotesDir s)
                             (mkdir_p (fs (ensureNotesDir s)) folderPath))).
    assert (fs s' !! folderPath = Some FDir) as Hdir.
    { apply buildIndex_keeps. simpl. rewrite mkdir_p_lookup.
      apply access_free in Hacc as (Hfree & Hroot & _). rewrite Hfree.
      rewrite decide_True; [done|].
      apply resolveSafePath_resolve in Hres.
      by apply (resolved_in_own_inits (cwd P) nd (Path.normalize folderName)). }
    exists s'. split_and!.
    + unfold createFolder. rewrite Hnd, Hname'.
      by rewrite ensureNotesDir_notesDir, Hnd, Hres, Hacc.
    + done.
    + intros k v Hk. apply buildIndex_keeps. simpl.
      by apply mkdir_p_keeps, ensureNotesDir_keeps.
    + unfold createFolder.
      assert (notesDir s' = Some nd) as Hnd'.
      { subst s'. rewrite buildIndex_notesDir. simpl.
        by rewrite ensureNotesDir_notesDir. }
      rewrite Hnd', Hname', ensureNotesDir_notesDir, Hnd', Hres.
      by rewrite (access_exists _ _ _ (ensureNotesDir_keeps _ _ _ Hdir)).
Qed.

Lemma createFolder_creates_folder_witness :
  exists s',
    createFolder sample_platform sample_store "plans/2026"
    = Done (s', "plans/2026") /\
    fs s' !! "/ws/plans/2026" = Some FDir /\
    createFolder sample_platform s' "plans/2026"
    = Throws (Message "Folder already exists").
Proof.
  destruct (createFolder_creates_folder sample_platform sample_store "/ws"
              "plans/2026" "/ws/plans/2026")
    as (_ & _ & Hnew); [reflexivity | reflexivity | done | reflexivity |].
  destruct Hnew as (s' & Hc & Hdir & _ & Hagain); [reflexivity|].
  exists s'. split_and!; [exact Hc | exact Hdir | exact Hagain].
Defined.

Lemma indexFile_unrecognized P now ix filepath obs :
  recognized filepath = false -> indexFile P now ix filepath obs = (ix, false).
Proof.
  intros Hrec. unfold indexFile. destruct obs as [|size mtimeMs content]; [done|].
  unfold recognized in Hrec. by rewrite Hrec.
Qed.

(** what [moveFile] does once its checks have passed for a regular file *)
Lemma moveFile_file P t mtimeMs s nd sourcePath targetPath src tgt c :
  notesDir s = Some nd ->
  Path.isAbsolute sourcePath = false -> Path.isAbsolute targetPath = false ->
  resolveSafePath (cwd P) (Some nd) sourcePath false = Ok src ->
  resolveSafePath (cwd P) (Some nd) targetPath false = Ok tgt ->
  fs s !! src = Some (FFile c) ->
  access (fs s) tgt = Throws (Thrown ENOENT) ->
  let f' := <[tgt := FFile c]>
              (delete src (mkdir_p (fs s) (Path.dirname tgt))) in
  moveFile P t mtimeMs s sourcePath targetPath
  = Done (buildIndex
            (match searchIndexer s with
             | Some ix =>
                 set_searchIndexer (set_fs s f')
                   (Some (fst (indexFile P (epoch_ms t)
                                 (match removeFile P ix src with
                                  | Ok ix' => ix'
                                  | Err _ => ix
                                  end) tgt
                                 (Seen (N.of_nat (String.length c)) mtimeMs
                                    (Some c)))))
             | None => set_fs s f'
             end), Path.relative (cwd P) nd tgt).
Proof.
  intros Hnd Hs Ht Hsrc Htgt Hfile Hfree f'. unfold moveFile.
  rewrite Hnd, Hs, Ht, Hsrc, Htgt, (access_exists _ _ _ Hfile), Hfree.
  unfold rename. rewrite (mkdir_p_keeps _ _ _ _ Hfile). fold f'. simpl.
  destruct (searchIndexer s) as [ix|]; [|done].
  unfold observe. simpl. subst f'. by rewrite lookup_insert_eq.
Qed.

(** X10: [moveFile] on a regular file, both paths given relative to the
    workspace.  A missing source and an occupied target make it fail, so
    nothing is ever overwritten; otherwise the content is at the target,
    the source path is free, every other entry is kept, and the snapshot
    directories are what they were (the saved versions stay under the old
    name). *)
Theorem moveFile_moves_file P t mtimeMs s nd sourcePath targetPath src tgt :
  workspace_ready s nd = true ->
  Path.isAbsolute sourcePath = false -> Path.isAbsolute targetPath = false ->
  resolveSafePath (cwd P) (Some nd) sourcePath false = Ok src ->
  resolveSafePath (cwd P) (Some nd) targetPath false = Ok tgt ->
  (access (fs s) src <> Done tt ->
   moveFile P t mtimeMs s sourcePath targetPath
   = Throws (Message "Source file does not exist")) /\
  (is_Some (fs s !! src) -> is_Some (fs s !! tgt) ->
   moveFile P t mtimeMs s sourcePath targetPath
   = Throws (Message "Target file already exists")) /\
  (forall c,
     fs s !! src = Some (FFile c) ->
     access (fs s) tgt = Throws (Thrown ENOENT) ->
     exists s',
       moveFile P t mtimeMs s sourcePath targetPath
       = Done (s', Path.relative (cwd P) nd tgt) /\
       fs s' !! tgt = Some (FFile c) /\
       fs s' !! src = None /\
       (forall k v, k <> src -> fs s !! k = Some v -> fs s' !! k = Some v) /\
       meta_dirs s' = meta_dirs s).
Proof.
  intros [Hnd Hdirs]%workspace_ready_spec Hs Ht Hsrc Htgt. split_and!.
  - intros Hno. unfold moveFile. rewrite Hnd, Hs, Ht, Hsrc, Htgt.
    destruct (access (fs s) src) as [[]|e]; done.
  - intros [v Hv] [w Hw]. unfold moveFile. rewrite Hnd, Hs, Ht, Hsrc, Htgt.
    by rewrite (access_exists _ _ _ Hv), (access_exists _ _ _ Hw).
  - intros c Hfile Hfree.
    rewrite (moveFile_file P t mtimeMs s nd sourcePath targetPath src tgt c)
      by done.
    apply access_free in Hfree as (Hfree & _ & _).
    assert (src <> tgt) as Hne by congruence.
    eexists. split; [done|].
    set (f' := <[tgt := FFile c]>
                 (delete src (mkdir_p (fs s) (Path.dirname tgt)))).
    set (s2 := match searchIndexer s with Some _ => _ | None => _ end).
    assert (fs s2 = f' /\ notesDir s2 = Some nd /\ meta_dirs s2 = meta_dirs s)
      as (Hfs & Hnd2 & Hmeta) by (subst s2; by destruct (searchIndexer s)).
    split_and!.
    + apply buildIndex_keeps. rewrite Hfs. apply lookup_insert_eq.
    + rewrite (buildIndex_lookup s2 nd src Hnd2), Hfs. subst f'.
      rewrite lookup_insert_ne, lookup_delete_eq by done.
      case_decide as Hin; [|done]. specialize (Hdirs src Hin). congruence.
    + intros k v Hk Hv. apply buildIndex_keeps. rewrite Hfs. subst f'.
      rewrite lookup_insert_ne by congruence.
      rewrite lookup_delete_ne by done. by apply mkdir_p_keeps.
    + by rewrite buildIndex_meta_dirs.
Qed.


Lemma moveFile_moves_file_witness :
  exists s',
    moveFile sample_platform (clock_at "01" 1) 0 notes_store "a.md" "sub/c.md"
    = Done (s', "sub/c.md") /\
    fs s' !! "/ws/sub/c.md" = Some (FFile "alpha") /\
    fs s' !! "/ws/a.md" = None /\
    fs s' !! "/ws/b.md" = Some (FFile "beta").
Proof.
  destruct (moveFile_moves_file sample_platform (clock_at "01" 1) 0 notes_store
              "/ws" "a.md" "sub/c.md" "/ws/a.md" "/ws/sub/c.md")
    as (_ & _ & Hmove);
    [reflexivity | reflexivity | reflexivity | reflexivity | reflexivity |].
  destruct (Hmove "alpha") as (s' & Hm & Htgt & Hsrc & Hkeep & _);
    [reflexivity | reflexivity |].
  exists s'. split_and!; [exact Hm | exact Htgt | exact Hsrc |].
  apply Hkeep; [done | reflexivity].
Defined.



(** X12: what [writeFile] reports as the content written is what
    [readFile] returns for the same name afterwards, and what the
    [file:read] handler replies with; the handler turns a missing file
    into its [missing] reply and lets the other errors through. *)
Theorem readFile_after_writeFile P t sys usr s filename content s' written :
  writeFile P t sys usr s filename content = Ok (s', written) ->
  readFile P s' filename false = Done written /\
  handle_file_read P s' filename false = Done (Text written) /\
  (forall s0 name allowMeta,
     readFile P s0 name allowMeta = Throws (Thrown ENOENT) ->
     handle_file_read P s0 name allowMeta = Done MissingFile) /\
  (forall s0 name allowMeta e,
     readFile P s0 name allowMeta = Throws e -> e <> Thrown ENOENT ->
     handle_file_read P s0 name allowMeta = Throws e).
Proof.
  intros (filepath & pc & Hres & _ & Hnd & Hfs & _)%writeFile_Ok.
  assert (readFile P s' filename false = Done written) as Hread.
  { unfold readFile. rewrite Hnd, Hres. unfold read_path. by rewrite Hfs. }
  split_and!.
  - done.
  - unfold handle_file_read. by rewrite Hread.
  - intros s0 name allowMeta Hr. unfold handle_file_read. by rewrite Hr.
  - intros s0 name allowMeta e Hr Hne. unfold handle_file_read. rewrite Hr.
    destruct e as [[]| |]; done.
Qed.

Lemma readFile_after_writeFile_witness :
  readFile sample_platform sample_written_once "a.txt" false = Done "X" /\
  handle_file_read sample_platform sample_written_once "missing.txt" false
  = Done MissingFile.
Proof.
  destruct (readFile_after_writeFile sample_platform (clock_at "01" 1) [] []
              sample_store "a.txt" "X" sample_written_once "X")
    as (Hread & _ & Hmissing & _); [reflexivity|].
  split; [exact Hread | apply Hmissing; reflexivity].
Defined.

Lemma under_self dir : under dir dir = true.
Proof. unfold under. by rewrite String.eqb_refl. Qed.




(** ** Names of pasted images *)

Lemma edge_is_name_char c : is_edge_char c = true -> is_name_char c = true.
Proof.
  unfold is_edge_char.
  intros [->%Ascii.eqb_eq | ->%Ascii.eqb_eq]%orb_true_iff; reflexivity.
Qed.

Lemma dash_is_edge c : Ascii.eqb c "-"%char = true -> is_edge_char c = true.
Proof. unfold is_edge_char. by intros ->. Qed.

Lemma replace_others_chars s :
  forall b, all_name_chars (replace_others b s) = true.
Proof.
  induction s as [|c s IH]; intros b; simpl; [done|].
  destruct (is_name_char c) eqn:Hc; simpl.
  - by rewrite Hc, IH.
  - destruct b; [apply IH|]. simpl. apply IH.
Qed.

Lemma squeeze_dashes_chars s :
  all_name_chars s = true -> forall b, all_name_chars (squeeze_dashes b s) = true.
Proof.
  induction s as [|c s IH]; simpl; [done|].
  intros [Hc Hs]%andb_true_iff b.
  destruct (Ascii.eqb c "-"%char) eqn:Hd.
  - destruct b; [by apply IH|]. simpl. by apply IH.
  - simpl. by rewrite Hc, IH.
Qed.

Lemma strip_head_chars s :
  all_name_chars s = true -> all_name_chars (strip_head s) = true.
Proof.
  induction s as [|c s IH]; simpl; [done|].
  intros [Hc Hs]%andb_true_iff.
  destruct (is_edge_char c); [by apply IH|]. simpl. by rewrite Hc, Hs.
Qed.

Lemma strip_tail_chars s :
  all_name_chars s = true -> all_name_chars (strip_tail s) = true.
Proof.
  induction s as [|c s IH]; simpl; [done|].
  intros [Hc Hs]%andb_true_iff.
  destruct (_ && _); [done|]. simpl. by rewrite Hc, IH.
Qed.

Lemma starts_dash c s :
  startsWith (String c s) "-" = Ascii.eqb c "-"%char.
Proof.
  simpl. rewrite startsWith_empty, andb_true_r. apply Ascii.eqb_sym.
Qed.

Lemma occurs_pair c s :
  occurs "--" (String c s)
  = Ascii.eqb c "-"%char && startsWith s "-" || occurs "--" s.
Proof.
  simpl. by rewrite (Ascii.eqb_sym "-"%char c).
Qed.

Lemma squeeze_dashes_no_pair s :
  forall b,
    occurs "--" (squeeze_dashes b s) = false /\
    (b = true -> startsWith (squeeze_dashes b s) "-" = false).
Proof.
  induction s as [|c s IH]; intros b; [by destruct b|].
  simpl squeeze_dashes. destruct (Ascii.eqb c "-"%char) eqn:Hd.
  - destruct (IH true) as [Hp Hs]. destruct b; [by split; [|intros _; apply Hs]|].
    split; [|done]. rewrite occurs_pair, Hp, (Hs eq_refl). by rewrite andb_false_r.
  - destruct (IH false) as [Hp _]. split.
    + by rewrite occurs_pair, Hd, Hp.
    + intros _. by rewrite starts_dash.
Qed.

Lemma strip_head_no_pair s :
  occurs "--" s = false -> occurs "--" (strip_head s) = false.
Proof.
  induction s as [|c s IH]; [done|]. intros Hp.
  simpl strip_head. destruct (is_edge_char c); [|done].
  apply IH. rewrite occurs_pair in Hp. by apply orb_false_iff in Hp as [_ ?].
Qed.

Lemma strip_tail_prefix s : exists t, s = strip_tail s +:+ t.
Proof.
  induction s as [|c s [t IH]]; [by exists EmptyString|].
  simpl. destruct (_ && _).
  - by exists (String c s).
  - exists t. simpl. by rewrite <- IH.
Qed.

Lemma startsWith_app_l a t p :
  startsWith a p = true -> startsWith (a +:+ t) p = true.
Proof.
  intros [r ->]%startsWith_split. rewrite append_assoc.
  apply startsWith_refl_app.
Qed.

Lemma strip_tail_no_pair s :
  occurs "--" s = false -> occurs "--" (strip_tail s) = false.
Proof.
  induction s as [|c s IH]; [done|]. intros Hp.
  rewrite occurs_pair in Hp. apply orb_false_iff in Hp as [Hh Ht].
  simpl strip_tail.
  destruct (String.eqb (strip_tail s) EmptyString && is_edge_char c); [done|].
  rewrite occurs_pair, (IH Ht), orb_false_r.
  destruct (Ascii.eqb c "-"%char); [|done]. simpl in *.
  destruct (startsWith (strip_tail s) "-") eqn:Hs; [|done].
  destruct (strip_tail_prefix s) as [t Heq].
  rewrite Heq in Hh. by rewrite (startsWith_app_l _ t _ Hs) in Hh.
Qed.

Lemma strip_head_first s :
  strip_head s = EmptyString \/
  exists c, first_char (strip_head s) = Some c /\ is_edge_char c = false.
Proof.
  induction s as [|c s IH]; [by left|]. simpl.
  destruct (is_edge_char c) eqn:Hc; [done|]. right. by exists c.
Qed.

Lemma strip_tail_first s c :
  first_char s = Some c -> is_edge_char c = false ->
  first_char (strip_tail s) = Some c.
Proof.
  destruct s as [|d s]; [done|]. simpl. intros [= ->] Hc.
  by rewrite Hc, andb_false_r.
Qed.

Lemma strip_tail_last s :
  strip_tail s = EmptyString \/
  exists c, last_char (strip_tail s) = Some c /\ is_edge_char c = false.
Proof.
  induction s as [|c s IH]; [by left|]. simpl.
  destruct (String.eqb (strip_tail s) EmptyString) eqn:He.
  - apply String.eqb_eq in He. rewrite He. simpl.
    destruct (is_edge_char c) eqn:Hc; [by left|]. right. by exists c.
  - simpl. right. apply String.eqb_neq in He.
    destruct IH as [?|(d & Hd & Hed)]; [done|]. exists d. split; [|done].
    destruct (strip_tail s); done.
Qed.

Lemma replace_others_id s :
  all_name_chars s = true -> replace_others false s = s.
Proof.
  induction s as [|c s IH]; simpl; [done|].
  intros [Hc Hs]%andb_true_iff. by rewrite Hc, IH.
Qed.

Lemma squeeze_dashes_id s :
  occurs "--" s = false ->
  squeeze_dashes false s = s /\
  (startsWith s "-" = false -> squeeze_dashes true s = s).
Proof.
  induction s as [|c s IH]; [done|]. intros Hp.
  rewrite occurs_pair in Hp. apply orb_false_iff in Hp as [Hh Ht].
  destruct (IH Ht) as [IH1 IH2]. simpl squeeze_dashes.
  rewrite starts_dash. destruct (Ascii.eqb c "-"%char) eqn:Hd; simpl in *.
  - apply Ascii.eqb_eq in Hd. subst c. split; [|done]. by rewrite IH2.
  - by rewrite IH1.
Qed.

Lemma strip_head_id s c :
  first_char s = Some c -> is_edge_char c = false -> strip_head s = s.
Proof. destruct s as [|d s]; [done|]. simpl. by intros [= ->] ->. Qed.

Lemma strip_tail_id s c :
  last_char s = Some c -> is_edge_char c = false -> strip_tail s = s.
Proof.
  induction s as [|d s IH]; [done|]. intros Hl Hc.
  destruct s as [|e s'].
  - simpl in *. injection Hl as ->. by rewrite Hc.
  - assert (last_char (String e s') = Some c) as Hl' by exact Hl.
    specialize (IH Hl' Hc). simpl strip_tail in *. rewrite IH. done.
Qed.

Lemma name_chars_no_char (c : ascii) s :
  is_name_char c = false -> all_name_chars s = true -> has_char c s = false.
Proof.
  intros Hc. induction s as [|d s IH]; simpl; [done|].
  intros [Hd Hs]%andb_true_iff. rewrite (IH Hs), orb_false_r.
  destruct (Ascii.eqb d c) eqn:He; [|done].
  apply Ascii.eqb_eq in He. congruence.
Qed.

(** X14: [sanitizeFilename] always gives a usable file name: it is not
    empty, made of letters, digits, [-] and [_] only (so it has no
    separator and no dot), it begins and ends with a letter or a digit,
    it has no two dashes in a row, and sanitizing it again changes
    nothing. *)
Theorem sanitizeFilename_safe input :
  let name := sanitizeFilename input in
  name <> EmptyString /\
  all_name_chars name = true /\
  has_char chr_slash name = false /\ has_char chr_dot name = false /\
  (exists c1 c2, first_char name = Some c1 /\ last_char name = Some c2 /\
                 is_alnum c1 = true /\ is_alnum c2 = true) /\
  occurs "--" name = false /\
  sanitizeFilename name = name.
Proof.
  intros name.
  set (a := replace_others false input).
  set (b := squeeze_dashes false a).
  set (h := strip_head b).
  set (r := strip_tail h).
  assert (all_name_chars r = true) as Hchars.
  { apply strip_tail_chars, strip_head_chars, squeeze_dashes_chars,
      replace_others_chars. }
  assert (occurs "--" r = false) as Hpair.
  { apply strip_tail_no_pair, strip_head_no_pair, squeeze_dashes_no_pair. }
  assert (name = if String.eqb r EmptyString then "image" else r) as Hname
    by reflexivity.
  destruct (String.eqb r EmptyString) eqn:He.
  { rewrite Hname. split_and!; try reflexivity; [done|].
    exists "i"%char, "e"%char. by split_and!. }
  apply String.eqb_neq in He. rewrite Hname.
  assert (exists c1 c2, first_char r = Some c1 /\ last_char r = Some c2 /\
                        is_edge_char c1 = false /\ is_edge_char c2 = false)
    as (c1 & c2 & H1 & H2 & He1 & He2).
  { destruct (strip_head_first b) as [Hh|(c1 & Hc1 & He1)].
    { exfalso. apply He. subst r h. by rewrite Hh. }
    destruct (strip_tail_last h) as [?|(c2 & Hc2 & He2)]; [done|].
    exists c1, c2. split_and!; try done. by apply strip_tail_first. }
  assert (forall c, (first_char r = Some c \/ last_char r = Some c) ->
                    is_name_char c = true) as Hin.
  { clear -Hchars. induction r as [|d r IH]; [by intros c [?|?]|].
    simpl in Hchars. apply andb_true_iff in Hchars as [Hd Hr].
    intros c [Hc|Hc].
    - simpl in Hc. by injection Hc as <-.
    - destruct r as [|e r']; [simpl in Hc; by injection Hc as <-|].
      apply (IH Hr). by right. }
  split_and!; try done.
  - by apply name_chars_no_char.
  - by apply name_chars_no_char.
  - exists c1, c2. unfold is_alnum. rewrite He1, He2.
    rewrite (Hin c1 (or_introl H1)), (Hin c2 (or_intror H2)). done.
  - unfold sanitizeFilename.
    rewrite (replace_others_id r Hchars).
    destruct (squeeze_dashes_id r Hpair) as [-> _].
    rewrite (strip_head_id r c1 H1 He1), (strip_tail_id r c2 H2 He2).
    apply String.eqb_neq in He. by rewrite He.
Qed.

(** ** Stopping the watcher *)

(** X15: [stopWatcher] cancels the rebuild that a burst of events has
    scheduled: after the burst and the stop no timeout is pending, and
    however much time passes the index is not rebuilt. *)
Theorem stopWatcher_cancels_rebuild P a nd t0 f0 evs :
  notesDir (app_store a) = Some nd -> timers a = ∅ -> app_now a <= t0 ->
  qualifies P nd f0 = true -> burst P nd t0 evs = true ->
  let a' := stopWatcher (run_events P a ((t0, f0) :: evs)) in
  timers a' = ∅ /\ watcherTimer a' = None /\
  forall T, index_builds (app_store (advance a' T))
            = index_builds (app_store a).
Proof.
  intros Hnd Htimers Hnow Hq Hburst a'.
  destruct (deliver_first P a nd t0 f0 Hnd Htimers Hnow Hq) as [Harmed Hst].
  destruct (run_burst P nd evs (deliver P a (t0, f0)) t0) as [Harmed' Hst'];
    [by rewrite Hst | done | done |].
  change (run_events P (deliver P a (t0, f0)) evs)
    with (run_events P a ((t0, f0) :: evs)) in *.
  destruct Harmed' as (id & Ht & Hw & _).
  assert (timers a' = ∅ /\ watcherTimer a' = None /\
          app_store a' = app_store a) as (Ht' & Hw' & Hs').
  { subst a'. unfold stopWatcher. rewrite Hw. cbn [timers watcherTimer app_store].
    rewrite Ht, delete_singleton_eq. split_and!; try done.
    by rewrite Hst', Hst. }
  split_and!; try done.
  intros T. rewrite (advance_idle a' T Ht'). cbn [app_store]. by rewrite Hs'.
Qed.

Lemma stopWatcher_cancels_rebuild_witness :
  let a' := stopWatcher
              (run_events sample_platform idle_app
                 [(10, Some "a.md"); (100, Some "b.md")]) in
  timers a' = ∅ /\ index_builds (app_store (advance a' 5000)) = 0.
Proof.
  destruct (stopWatcher_cancels_rebuild sample_platform idle_app "/ws" 10
              (Some "a.md") [(100, Some "b.md")])
    as (Ht & _ & Hb); try reflexivity.
  - simpl. lia.
  - split; [exact Ht | apply (Hb 5000)].
Defined.

(** ** The file tree *)

#[local] Arguments child_path : simpl never.
#[local] Arguments folder_node : simpl never.

Lemma scanEntry_dir lc iH iM rel name es :
  scanEntry lc iH iM rel (DDir name (Some es))
  = if String.eqb name META_DIRNAME && negb iM then Done []
    else if negb iH && startsWith name "." then Done []
    else match scanEntries lc iH iM (child_path rel name) es with
         | Throws x => Throws x
         | Done children => Done [folder_node lc (child_path rel name) children]
         end.
Proof.
  cbn [scanEntry dirent_name].
  destruct (String.eqb name META_DIRNAME && negb iM); [done|].
  destruct (negb iH && startsWith name "."); [done|].
  match goal with
  | |- match ?f es with _ => _ end = _ =>
      assert (forall l, f l = scanEntries lc iH iM (child_path rel name) l)
        as Hfix
  end.
  { induction l as [|e l IH]; [done|]. cbn [scanEntries]. rewrite <- IH.
    reflexivity. }
  by rewrite Hfix.
Qed.

Lemma scanEntry_leaf lc iH iM rel e :
  (forall name entries, e <> DDir name entries) ->
  scanEntry lc iH iM rel e
  = if shown iH iM (dirent_name e)
    then Done [TFile (dirent_name e) (child_path rel (dirent_name e))]
    else Done [].
Proof.
  intros Hne. unfold shown.
  destruct e as [name size mtime content|name entries|name];
    [| by destruct (Hne name entries) |]; cbn [scanEntry dirent_name];
    destruct (String.eqb name META_DIRNAME && negb iM); try done;
    by destruct (negb iH && startsWith name ".").
Qed.

Lemma flattenFiles_folder name path children :
  flattenFiles (TFolder name path children) = flat_map node_files children.
Proof. reflexivity. Qed.

Lemma node_files_folder_node lc rel children :
  flat_map node_files [folder_node lc rel children]
  = flat_map node_files (sort_children (compare_children lc) children).
Proof. unfold folder_node. simpl. apply app_nil_r. Qed.

Lemma insert_child_perm cmp x l : Permutation (insert_child cmp x l) (x :: l).
Proof.
  induction l as [|y l IH]; simpl; [done|].
  destruct (cmp x y); try done.
  rewrite IH. apply perm_swap.
Qed.

Lemma sort_children_perm cmp l : Permutation (sort_children cmp l) l.
Proof.
  induction l as [|x l IH]; simpl; [done|].
  rewrite insert_child_perm. by constructor.
Qed.

Lemma hidden_chain_no_leaf iH iM e :
  forall rel dirs,
    forallb (shown iH iM) dirs = false ->
    List.filter (visible iH iM) (leaves rel dirs e) = [].
Proof.
  induction e as [name size mtime content|name es IH|name|name]
    using dirent_tree_ind; intros rel dirs Hd; simpl.
  - unfold visible. simpl. by rewrite forallb_app, Hd.
  - revert IH. generalize (child_path rel name). intros rel'.
    assert (forallb (shown iH iM) (dirs ++ [name]) = false) as Hd'
      by by rewrite forallb_app, Hd.
    induction es as [|e es IHes]; intros IH; simpl; [done|].
    apply Forall_cons in IH as [He Hes].
    rewrite List.filter_app, (He rel' _ Hd'), (IHes Hes). done.
  - done.
  - unfold visible. simpl. by rewrite forallb_app, Hd.
Qed.

Lemma hidden_dir_no_leaf iH iM rel dirs name es :
  shown iH iM name = false ->
  List.filter (visible iH iM) (leaves rel dirs (DDir name (Some es))) = [].
Proof.
  intros Hn. simpl. generalize (child_path rel name). intros rel'.
  assert (forallb (shown iH iM) (dirs ++ [name]) = false) as Hd.
  { rewrite forallb_app. simpl. rewrite Hn. by rewrite andb_false_r. }
  induction es as [|e es IH]; simpl; [done|].
  by rewrite List.filter_app, (hidden_chain_no_leaf iH iM e rel' _ Hd), IH.
Qed.

Lemma scanEntry_lists lc iH iM e :
  forall rel dirs nodes,
    forallb (shown iH iM) dirs = true ->
    scanEntry lc iH iM rel e = Done nodes ->
    Permutation (flat_map node_files nodes)
      (List.map l_path (List.filter (visible iH iM) (leaves rel dirs e))).
Proof.
  induction e as [name size mtime content|name es IH|name|name]
    using dirent_tree_ind; intros rel dirs nodes Hd.
  - rewrite scanEntry_leaf by done. simpl. unfold visible. simpl.
    rewrite forallb_app, Hd. simpl. rewrite andb_true_r.
    destruct (shown iH iM name); by intros [= <-].
  - rewrite scanEntry_dir.
    assert (shown iH iM name
            = negb (String.eqb name META_DIRNAME && negb iM)
              && negb (negb iH && startsWith name ".")) as Hshown by done.
    destruct (String.eqb name META_DIRNAME && negb iM) eqn:H1.
    { intros [= <-]. by rewrite hidden_dir_no_leaf. }
    destruct (negb iH && startsWith name ".") eqn:H2.
    { intros [= <-]. by rewrite hidden_dir_no_leaf. }
    simpl in Hshown.
    assert (forallb (shown iH iM) (dirs ++ [name]) = true) as Hd'.
    { rewrite forallb_app, Hd. simpl. by rewrite Hshown. }
    destruct (scanEntries lc iH iM (child_path rel name) es) as [children|]
      eqn:Hscan; [|done].
    intros [= <-]. rewrite node_files_folder_node.
    rewrite (Permutation_flat_map node_files (sort_children_perm _ children)).
    cbn [leaves].
    clear Hshown H1 H2. revert children Hscan IH.
    generalize (child_path rel name). intros rel'.
    induction es as [|e es IHes]; intros children Hscan IH.
    + simpl in Hscan. by injection Hscan as <-.
    + apply Forall_cons in IH as [He Hes]. simpl in Hscan.
      destruct (scanEntry lc iH iM rel' e) as [ns|] eqn:Hns; [|done].
      destruct (scanEntries lc iH iM rel' es) as [more|] eqn:Hmore; [|done].
      injection Hscan as <-. simpl.
      rewrite flat_map_app, List.filter_app, List.map_app.
      apply Permutation_app; [by apply He | by apply IHes].
  - cbn [scanEntry dirent_name leaves].
    destruct (String.eqb name META_DIRNAME && negb iM); [by intros [= <-]|].
    by destruct (negb iH && startsWith name "."); [intros [= <-]|].
  - rewrite scanEntry_leaf by done. simpl. unfold visible. simpl.
    rewrite forallb_app, Hd. simpl. rewrite andb_true_r.
    destruct (shown iH iM name); by intros [= <-].
Qed.

(** X16: the files that a scan lists are the entries that the options
    let through, each once: an entry that is no directory is listed
    exactly when its own name and the name of every directory on the way
    to it are let through (with the default options: none begins with a
    dot, none is the metadata directory), whatever the collation. *)
Theorem scanDir_lists_visible_entries lc iH iM rel es t :
  scanDir lc iH iM rel (Some es) = Done t ->
  Permutation (flattenFiles t)
    (List.map l_path
       (List.filter (visible iH iM) (flat_map (leaves rel []) es))).
Proof.
  unfold scanDir.
  destruct (scanEntries lc iH iM rel es) as [children|] eqn:Hscan; [|done].
  intros [= <-]. unfold folder_node. rewrite flattenFiles_folder.
  rewrite (Permutation_flat_map node_files (sort_children_perm _ children)).
  revert children Hscan. induction es as [|e es IH]; intros children Hscan.
  - simpl in Hscan. by injection Hscan as <-.
  - simpl in Hscan.
    destruct (scanEntry lc iH iM rel e) as [ns|] eqn:Hns; [|done].
    destruct (scanEntries lc iH iM rel es) as [more|] eqn:Hmore; [|done].
    injection Hscan as <-. simpl.
    rewrite flat_map_app, List.filter_app, List.map_app.
    apply Permutation_app; [|by apply IH].
    by apply (scanEntry_lists lc iH iM e rel []).
Qed.

Lemma scanDir_lists_visible_entries_witness :
  exists t,
    scanDir unit_order false false "" sample_root = Done t /\
    flattenFiles t = ["sub/b.txt"; "a.md"; "big.txt"; "photo.png"] /\
    Permutation (flattenFiles t) ["a.md"; "big.txt"; "photo.png"; "sub/b.txt"].
Proof.
  pose proof (scanDir_lists_visible_entries unit_order false false "" _ _
                (eq_refl : scanDir unit_order false false "" sample_root
                           = Done _)) as Hperm.
  eexists. split; [reflexivity|]. split; [reflexivity|]. exact Hperm.
Defined.

Lemma forallb_insert_child (p : tree -> bool) cmp x l :
  forallb p (insert_child cmp x l) = p x && forallb p l.
Proof.
  induction l as [|y l IH]; simpl; [done|].
  destruct (cmp x y); simpl; try done.
  rewrite IH. by destruct (p x), (p y).
Qed.

Lemma forallb_sort_children (p : tree -> bool) cmp l :
  forallb p (sort_children cmp l) = forallb p l.
Proof.
  induction l as [|x l IH]; simpl; [done|].
  by rewrite forallb_insert_child, IH.
Qed.

Lemma insert_child_folders_first lc x l :
  folders_first l = true ->
  folders_first (insert_child (compare_children lc) x l) = true.
Proof.
  induction l as [|y l IH]; simpl.
  - intros _. by rewrite orb_true_r.
  - intros [Hy Hl]%andb_true_iff.
    destruct (compare_children lc x y) eqn:Hc; simpl.
    + rewrite Hy, Hl, !andb_true_r.
      unfold compare_children in Hc.
      destruct (is_folder x) eqn:Hx; [done|]. simpl.
      destruct (is_folder y) eqn:Hfy; [done|]. done.
    + rewrite Hy, Hl, !andb_true_r.
      unfold compare_children in Hc.
      destruct (is_folder x) eqn:Hx; [done|]. simpl.
      destruct (is_folder y) eqn:Hfy; [done|]. done.
    + rewrite (IH Hl), andb_true_r.
      destruct (is_folder y) eqn:Hfy; [done|]. simpl in *.
      rewrite forallb_insert_child, Hy, andb_true_r.
      unfold compare_children in Hc. rewrite Hfy in Hc.
      by destruct (is_folder x).
Qed.

Lemma sort_children_folders_first lc l :
  folders_first (sort_children (compare_children lc) l) = true.
Proof.
  induction l as [|x l IH]; simpl; [done|].
  by apply insert_child_folders_first.
Qed.

Lemma folder_node_folders_first lc rel children :
  forallb all_folders_first children = true ->
  all_folders_first (folder_node lc rel children) = true.
Proof.
  intros Hc. unfold folder_node. simpl.
  by rewrite sort_children_folders_first, forallb_sort_children.
Qed.

Lemma scanEntries_folders_first lc iH iM es :
  Forall (fun e => forall rel nodes,
            scanEntry lc iH iM rel e = Done nodes ->
            forallb all_folders_first nodes = true) es ->
  forall rel children,
    scanEntries lc iH iM rel es = Done children ->
    forallb all_folders_first children = true.
Proof.
  induction es as [|e es IH]; intros Hall rel children Hscan.
  - simpl in Hscan. by injection Hscan as <-.
  - apply Forall_cons in Hall as [He Hes]. simpl in Hscan.
    destruct (scanEntry lc iH iM rel e) as [ns|] eqn:Hns; [|done].
    destruct (scanEntries lc iH iM rel es) as [more|] eqn:Hmore; [|done].
    injection Hscan as <-. rewrite forallb_app.
    by rewrite (He _ _ Hns), (IH Hes _ _ Hmore).
Qed.

Lemma scanEntry_folders_first lc iH iM e :
  forall rel nodes,
    scanEntry lc iH iM rel e = Done nodes ->
    forallb all_folders_first nodes = true.
Proof.
  induction e as [name size mtime content|name es IH|name|name]
    using dirent_tree_ind; intros rel nodes.
  - rewrite scanEntry_leaf by done.
    destruct (shown iH iM _); by intros [= <-].
  - rewrite scanEntry_dir.
    destruct (String.eqb name META_DIRNAME && negb iM); [by intros [= <-]|].
    destruct (negb iH && startsWith name "."); [by intros [= <-]|].
    destruct (scanEntries lc iH iM (child_path rel name) es) as [children|]
      eqn:Hscan; [|done].
    intros [= <-]. cbn [forallb]. rewrite andb_true_r.
    apply folder_node_folders_first.
    by apply (scanEntries_folders_first lc iH iM es IH _ _ Hscan).
  - cbn [scanEntry dirent_name].
    destruct (String.eqb name META_DIRNAME && negb iM); [by intros [= <-]|].
    by destruct (negb iH && startsWith name "."); [intros [= <-]|].
  - rewrite scanEntry_leaf by done.
    destruct (shown iH iM _); by intros [= <-].
Qed.

(** X17: in the tree that [scanDir] returns, at every level, the
    folders come before the files, whatever order the directory was read
    in and whatever collation compares the names. *)
Theorem scanDir_folders_first lc iH iM rel entries t :
  scanDir lc iH iM rel entries = Done t -> all_folders_first t = true.
Proof.
  unfold scanDir. destruct entries as [es|]; [|done].
  destruct (scanEntries lc iH iM rel es) as [children|] eqn:Hscan; [|done].
  intros [= <-]. apply folder_node_folders_first.
  apply (scanEntries_folders_first lc iH iM es) with (rel := rel); [|done].
  apply Forall_forall. intros e _. apply scanEntry_folders_first.
Qed.

Lemma scanDir_folders_first_witness :
  exists t,
    scanDir unit_order false false "" sample_root = Done t /\
    List.map tree_name
      (match t with TFolder _ _ children => children | TFile _ _ => [] end)
    = ["sub"; "a.md"; "big.txt"; "photo.png"] /\
    all_folders_first t = true.
Proof.
  eexists. split; [reflexivity|]. split; [reflexivity|].
  apply (scanDir_folders_first unit_order false false "" sample_root).
  reflexivity.
Defined.

Lemma scanEntries_ext lc iH iM iH' iM' es :
  Forall (fun e => forall rel,
            scanEntry lc iH iM rel e = scanEntry lc iH' iM' rel e) es ->
  forall rel, scanEntries lc iH iM rel es = scanEntries lc iH' iM' rel es.
Proof.
  induction es as [|e es IH]; intros Hall rel; [done|].
  apply Forall_cons in Hall as [He Hes]. simpl.
  by rewrite He, (IH Hes).
Qed.

Lemma meta_is_hidden name :
  String.eqb name META_DIRNAME = true -> startsWith name "." = true.
Proof. by intros ->%String.eqb_eq. Qed.

Lemma scanEntry_includeMeta_alone lc e :
  forall rel, scanEntry lc false true rel e = scanEntry lc false false rel e.
Proof.
  induction e as [name size mtime content|name es IH|name|name]
    using dirent_tree_ind; intros rel.
  - rewrite !scanEntry_leaf by done. unfold shown. simpl.
    destruct (String.eqb name META_DIRNAME) eqn:Hm; [|done].
    by rewrite (meta_is_hidden _ Hm).
  - rewrite !scanEntry_dir. simpl.
    destruct (String.eqb name META_DIRNAME) eqn:Hm; simpl.
    + by rewrite (meta_is_hidden _ Hm).
    + by rewrite (scanEntries_ext lc false true false false es IH).
  - cbn [scanEntry dirent_name]. simpl.
    destruct (String.eqb name META_DIRNAME) eqn:Hm; [|done].
    by rewrite (meta_is_hidden _ Hm).
  - rewrite !scanEntry_leaf by done. unfold shown. simpl.
    destruct (String.eqb name META_DIRNAME) eqn:Hm; [|done].
    by rewrite (meta_is_hidden _ Hm).
Qed.

(** X18: asking for the metadata directory alone shows nothing more:
    the name of the metadata directory begins with a dot, so with
    [includeMeta] and without [includeHidden] the scan returns what the
    default scan returns, tree and errors alike. *)
Theorem scanDir_includeMeta_alone lc rel entries :
  scanDir lc false true rel entries = scanDir lc false false rel entries.
Proof.
  unfold scanDir. destruct entries as [es|]; [|done].
  rewrite (scanEntries_ext lc false true false false es); [done|].
  apply Forall_forall. intros e _. apply scanEntry_includeMeta_alone.
Qed.

(** ** Undo, once more *)

Lemma includes_In xs x : includes xs x = true <-> In x xs.
Proof.
  unfold includes. rewrite existsb_exists. split.
  - intros (y & Hy & ->%String.eqb_eq). done.
  - intros Hin. exists x. by rewrite String.eqb_refl.
Qed.

(** [undoFile] when the snapshot directory has a latest entry and the
    document is a regular file *)
Lemma undoFile_latest P t s nd filename name restored filepath cur :
  notesDir s = Some nd ->
  let dir := previousDir_of nd filename in
  latest name (readdir_meta s dir) = true ->
  meta_dir s dir !! name = Some restored ->
  resolveSafePath (cwd P) (Some nd) filename false = Ok filepath ->
  fs s !! filepath = Some (FFile cur) ->
  exists s',
    undoFile P t s filename = Ok (s', restored) /\
    notesDir s' = Some nd /\
    fs s' !! filepath = Some (FFile restored) /\
    meta_dir s' dir
    = (if String.eqb cur restored then meta_dir s dir
       else <[dashed (iso t) +:+ "-redo.md" := cur]> (meta_dir s dir)).
Proof.
  intros Hnd dir Hlatest Hname Hres Hfile.
  apply andb_true_iff in Hlatest as [Hl1 Hall].
  apply andb_true_iff in Hl1 as [Hin Hmd].
  apply includes_In in Hin. rewrite forallb_forall in Hall.
  unfold undoFile.
  pose proof (getPreviousDir_path s filename nd Hnd) as Hpath.
  pose proof (getPreviousDir_meta_dir s filename) as Hsame.
  pose proof (getPreviousDir_notesDir s filename) as Hnd'.
  pose proof (getPreviousDir_keeps s filename _ _ Hfile) as Hfs'.
  destruct (getPreviousDir s filename) as [y o].
  cbn [fst snd] in Hpath, Hsame, Hnd', Hfs'. subst o. fold dir.
  assert (readdir_meta y dir = readdir_meta s dir) as Hrd
    by (unfold readdir_meta; by rewrite Hsame).
  rewrite Hrd.
  destruct (readdir_meta s dir) as [|e0 entries] eqn:Hentries; [done|].
  rewrite <- Hentries in *.
  set (mds := List.filter (fun e => endsWith e ".md") (readdir_meta s dir)).
  assert (In name mds) as Hin' by (subst mds; by apply filter_In).
  assert (js_sort mds <> []) as Hne.
  { intros Hnil. apply js_sort_In in Hin'. by rewrite Hnil in Hin'. }
  destruct (rev_head_last (js_sort mds) EmptyString Hne) as [rest Hrev].
  rewrite (js_sort_last name mds) in Hrev; [|done|].
  2:{ intros e [He Hemd]%filter_In. specialize (Hall e He).
      rewrite Hemd in Hall. simpl in Hall.
      apply orb_true_iff in Hall as [->%String.eqb_eq|?]; [by left | by right]. }
  rewrite Hrev, Hsame, Hname, Hnd', Hnd, Hres. simpl bind.
  unfold read_or_null. rewrite Hfs'. simpl bind.
  eexists. split; [reflexivity|]. split_and!.
  - rewrite buildIndex_notesDir. simpl.
    destruct (negb (String.eqb cur restored)); simpl; by rewrite Hnd', Hnd.
  - apply buildIndex_keeps. simpl. apply lookup_insert_eq.
  - rewrite (meta_dir_ext _ _ dir (buildIndex_meta_dirs _)).
    destruct (String.eqb cur restored); simpl.
    + apply Hsame.
    + change (meta_dir (write_meta y dir (dashed (iso t) +:+ "-redo.md") cur) dir
              = <[dashed (iso t) +:+ "-redo.md" := cur]> (meta_dir s dir)).
      rewrite write_meta_meta_dir, decide_True by done. by rewrite Hsame.
Qed.

Lemma endsWith_redo x : endsWith (x +:+ "-redo.md") ".md" = true.
Proof.
  change (x +:+ "-redo.md") with (x +:+ ("-redo" +:+ ".md")).
  rewrite <- append_assoc. apply endsWith_app.
Qed.

(** X19: undo is its own inverse.  When [undoFile] replaces a content by
    the latest snapshot and the clock has moved on since the snapshots
    were taken, a second [undoFile] brings back the content that the
    first one replaced: the second call restores the [-redo] snapshot of
    the first, and goes no further back in the history. *)
Theorem undoFile_twice_restores
    P t3 t4 s nd filename name restored filepath cur :
  notesDir s = Some nd ->
  let dir := previousDir_of nd filename in
  let redo := dashed (iso t3) +:+ "-redo.md" in
  latest name (readdir_meta s dir) = true ->
  meta_dir s dir !! name = Some restored ->
  resolveSafePath (cwd P) (Some nd) filename false = Ok filepath ->
  fs s !! filepath = Some (FFile cur) ->
  cur <> restored ->
  newest redo (readdir_meta s dir) = true ->
  exists s3 s4,
    undoFile P t3 s filename = Ok (s3, restored) /\
    fs s3 !! filepath = Some (FFile restored) /\
    meta_dir s3 dir !! redo = Some cur /\
    undoFile P t4 s3 filename = Ok (s4, cur) /\
    fs s4 !! filepath = Some (FFile cur).
Proof.
  intros Hnd dir redo Hlatest Hname Hres Hfile Hdiff Hnewest.
  destruct (undoFile_latest P t3 s nd filename name restored filepath cur
              Hnd Hlatest Hname Hres Hfile)
    as (s3 & Hundo & Hnd3 & Hfs3 & Hdir3).
  fold dir in Hdir3. apply String.eqb_neq in Hdiff as Hdiff'.
  rewrite Hdiff' in Hdir3. fold redo in Hdir3.
  assert (latest redo (readdir_meta s3 dir) = true) as Hlatest3.
  { unfold latest. apply andb_true_iff. split; [apply andb_true_iff; split|].
    - apply includes_In, readdir_meta_In. rewrite Hdir3, lookup_insert_eq.
      by eexists.
    - apply endsWith_redo.
    - apply forallb_forall. intros e He.
      destruct (String.eqb e redo) eqn:Heq; [by rewrite orb_true_r|].
      apply String.eqb_neq in Heq. rewrite orb_false_r.
      apply readdir_meta_In in He. rewrite Hdir3, lookup_insert_ne in He by done.
      apply readdir_meta_In in He.
      unfold newest in Hnewest. rewrite forallb_forall in Hnewest.
      apply (Hnewest e He). }
  destruct (undoFile_latest P t4 s3 nd filename redo cur filepath restored
              Hnd3 Hlatest3) as (s4 & Hundo4 & _ & Hfs4 & _); try done.
  { fold dir. by rewrite Hdir3, lookup_insert_eq. }
  exists s3, s4. split_and!; try done.
  by rewrite Hdir3, lookup_insert_eq.
Qed.

Lemma undoFile_twice_restores_witness :
  exists s3 s4,
    undoFile sample_platform (clock_at "03" 3) sample_written_twice "a.txt"
    = Ok (s3, "X") /\
    undoFile sample_platform (clock_at "04" 4) s3 "a.txt" = Ok (s4, "Y") /\
    fs s4 !! "/ws/a.txt" = Some (FFile "Y").
Proof.
  destruct (undoFile_twice_restores sample_platform (clock_at "03" 3)
              (clock_at "04" 4) sample_written_twice "/ws" "a.txt"
              "2026-01-01T00-00-02-000Z.md" "X" "/ws/a.txt" "Y")
    as (s3 & s4 & H1 & _ & _ & H2 & H3); try reflexivity; [done|].
  exists s3, s4. split_and!; [exact H1 | exact H2 | exact H3].
Defined.

(** X20: the first save of a note leaves nothing to undo.  [writeFile]
    on a path that has no file takes no snapshot, so when the note has no
    saved version from before, [undoFile] fails with "No previous
    versions" and the note stays as written. *)
Theorem undoFile_after_first_write
    P t t' sys usr s nd filename content s1 written filepath :
  notesDir s = Some nd ->
  resolveSafePath (cwd P) (Some nd) filename false = Ok filepath ->
  fs (ensureNotesDir s) !! filepath = None ->
  List.filter (fun e => endsWith e ".md")
    (readdir_meta s (previousDir_of nd filename)) = [] ->
  writeFile P t sys usr s filename content = Ok (s1, written) ->
  meta_dirs s1 = meta_dirs s /\
  undoFile P t' s1 filename = Err NoPreviousVersions.
Proof.
  intros Hnd Hres Hfree Hnone
         (filepath' & pc & Hres' & Hread & Hnd1 & Hfs1 & Hmeta)%writeFile_Ok.
  rewrite Hnd, Hres in Hres'. injection Hres' as <-.
  unfold read_or_null in Hread. rewrite Hfree in Hread. injection Hread as <-.
  simpl in Hmeta. rewrite ensureNotesDir_meta_dirs in Hmeta.
  split; [done|]. rewrite Hnd in Hnd1. unfold undoFile.
  pose proof (getPreviousDir_path s1 filename nd Hnd1) as Hpath.
  pose proof (getPreviousDir_meta_dir s1 filename) as Hsame.
  destruct (getPreviousDir s1 filename) as [y o].
  cbn [fst snd] in Hpath, Hsame. subst o.
  assert (readdir_meta y (previousDir_of nd filename)
          = readdir_meta s (previousDir_of nd filename)) as ->.
  { unfold readdir_meta. by rewrite Hsame, (meta_dir_ext _ _ _ Hmeta). }
  destruct (readdir_meta s (previousDir_of nd filename)); [done|].
  by rewrite Hnone.
Qed.

Lemma undoFile_after_first_write_witness :
  undoFile sample_platform (clock_at "02" 2) sample_written_once "a.txt"
  = Err NoPreviousVersions.
Proof.
  apply (undoFile_after_first_write sample_platform (clock_at "01" 1)
           (clock_at "02" 2) [] [] sample_store "/ws" "a.txt" "X"
           sample_written_once "X" "/ws/a.txt"); reflexivity.
Defined.

(** ** Chat sessions *)






















(** ** The front matter of a saved note *)






(** ** Free names *)




(** ** Paths made of plain names *)

Lemma split_nonnil sep s : split sep s <> [].
Proof.
  destruct s as [|c s]; simpl; [done|].
  destruct (Ascii.eqb c sep); [done|]. by destruct (split sep s).
Qed.

Lemma split_app sep a b :
  split sep (a +:+ String sep b) = split sep a ++ split sep b.
Proof.
  induction a as [|c a IH]; simpl.
  - by rewrite Ascii.eqb_refl.
  - destruct (Ascii.eqb c sep); [by rewrite IH|].
    rewrite IH. pose proof (split_nonnil sep a).
    by destruct (split sep a).
Qed.

Lemma plain_name_spec w :
  plain_name w = true ->
  w <> EmptyString /\ has_char chr_slash w = false /\ w <> "." /\ w <> "..".
Proof.
  unfold plain_name. intros H.
  apply andb_true_iff in H as [H H4]. apply andb_true_iff in H as [H H3].
  apply andb_true_iff in H as [H1 H2].
  apply negb_true_iff in H1, H2, H3, H4.
  apply String.eqb_neq in H1, H3, H4. done.
Qed.

Lemma step_plain allow stack w :
  plain_name w = true -> Path.step allow stack w = w :: stack.
Proof.
  intros (H1 & _ & H3 & H4)%plain_name_spec. unfold Path.step.
  apply String.eqb_neq in H1, H3, H4. by rewrite H1, H3, H4.
Qed.

Lemma fold_step_plain allow segs :
  Forall (fun w => w = EmptyString \/ plain_name w = true) segs ->
  forall acc,
    fold_left (Path.step allow) segs acc
    = List.rev (List.filter nonempty segs) ++ acc.
Proof.
  induction segs as [|w segs IH]; intros Hall acc; [done|].
  apply Forall_cons in Hall as [Hw Hall]. simpl. rewrite (IH Hall).
  destruct Hw as [->|Hw]; [done|].
  rewrite (step_plain _ _ _ Hw).
  destruct (plain_name_spec w Hw) as (Hne & _).
  unfold nonempty at 2. apply String.eqb_neq in Hne. rewrite Hne. simpl.
  by rewrite <- app_assoc.
Qed.

Lemma normalizeSegs_plain allow segs :
  Forall (fun w => w = EmptyString \/ plain_name w = true) segs ->
  Path.normalizeSegs allow segs = List.filter nonempty segs.
Proof.
  intros Hall. unfold Path.normalizeSegs.
  by rewrite (fold_step_plain allow segs Hall), app_nil_r, rev_involutive.
Qed.

Lemma filter_nonempty_plain (S : list string) :
  Forall (fun w => plain_name w = true) S -> List.filter nonempty S = S.
Proof.
  induction S as [|w S IH]; [done|]. intros [Hw HS]%Forall_cons. simpl.
  destruct (plain_name_spec w Hw) as (Hne & _).
  unfold nonempty at 1. apply String.eqb_neq in Hne. rewrite Hne. simpl.
  by rewrite IH.
Qed.

Lemma plain_no_slash (S : list string) :
  Forall (fun w => plain_name w = true) S ->
  Forall (fun w => has_char chr_slash w = false) S.
Proof.
  intros HS. eapply Forall_impl; [exact HS|].
  intros w Hw. by destruct (plain_name_spec w Hw) as (_ & ? & _).
Qed.

Lemma plain_seg_ok (S : list string) :
  Forall (fun w => plain_name w = true) S -> Forall seg_ok S.
Proof.
  intros HS. eapply Forall_impl; [exact HS|]. intros w. apply plain_name_seg_ok.
Qed.

(** the segments of a joined list of plain names, and of what follows *)
Lemma split_joined (S : list string) rest :
  Forall (fun w => plain_name w = true) S ->
  List.filter nonempty (split chr_slash (join "/" S +:+ String chr_slash rest))
  = S ++ List.filter nonempty (split chr_slash rest).
Proof.
  intros HS. rewrite split_app, List.filter_app. f_equal.
  destruct S as [|x S]; [done|].
  rewrite split_join; [by apply filter_nonempty_plain | done
                      | by apply plain_no_slash].
Qed.

Lemma split_joined_all (S : list string) rest :
  Forall (fun w => plain_name w = true) S ->
  Forall (fun w => w = EmptyString \/ plain_name w = true)
    (split chr_slash rest) ->
  Forall (fun w => w = EmptyString \/ plain_name w = true)
    (split chr_slash (join "/" S +:+ String chr_slash rest)).
Proof.
  intros HS Hrest. rewrite split_app. apply Forall_app. split; [|done].
  destruct S as [|x S]; [by constructor; [left|]|].
  rewrite split_join; [| done | by apply plain_no_slash].
  eapply Forall_impl; [exact HS|]. intros w Hw. by right.
Qed.

(** [normalizeString] on a rooted list of plain names followed by more *)
Lemma normalizeString_rooted allow (S names : list string) :
  Forall (fun w => plain_name w = true) S ->
  Forall (fun w => plain_name w = true) names ->
  Path.normalizeString
    (("/" +:+ join "/" S) +:+ String chr_slash (join "/" names
                                               +:+ String chr_slash EmptyString))
    allow
  = join "/" (S ++ names).
Proof.
  intros HS Hn. unfold Path.normalizeString. f_equal.
  change (("/" +:+ join "/" S)
          +:+ String chr_slash (join "/" names +:+ String chr_slash ""))
    with (EmptyString
          +:+ String chr_slash
                (join "/" S
                 +:+ String chr_slash (join "/" names +:+ String chr_slash ""))).
  assert (Forall (fun w => w = EmptyString \/ plain_name w = true)
            (split chr_slash (join "/" names +:+ String chr_slash "")))
    as Hrest.
  { apply split_joined_all; [done|]. by constructor; [left|]. }
  rewrite normalizeSegs_plain.
  - rewrite split_app, List.filter_app. simpl List.filter at 1.
    rewrite split_joined by done. rewrite split_joined by done. simpl.
    by rewrite app_nil_r.
  - rewrite split_app. apply Forall_app. split; [by constructor; [left|]|].
    by apply split_joined_all.
Qed.

Lemma rooted_nonempty (S : list string) : rooted S <> EmptyString.
Proof. done. Qed.

Lemma rooted_absolute (S : list string) : Path.isAbsolute (rooted S) = true.
Proof. apply (startsWith_refl_app "/"). Qed.

Lemma joined_nonempty (names : list string) :
  names <> [] -> Forall (fun w => plain_name w = true) names ->
  join "/" names <> EmptyString /\ Path.isAbsolute (join "/" names) = false.
Proof.
  destruct names as [|x names]; [done|]. intros _ [Hx _]%Forall_cons.
  destruct (plain_name_spec x Hx) as (Hne & Hslash & _).
  destruct x as [|c x]; [done|]. simpl in Hslash.
  apply orb_false_iff in Hslash as [Hc _].
  assert (exists r, join "/" (String c x :: names) = String c r) as [r ->].
  { destruct names; simpl; by eexists. }
  split; [done|]. unfold Path.isAbsolute. simpl.
  rewrite Ascii.eqb_sym. fold chr_slash. by rewrite Hc.
Qed.

Lemma resolve_plain cwd (S names : list string) :
  Forall (fun w => plain_name w = true) S ->
  Forall (fun w => plain_name w = true) names ->
  Path.resolve cwd [rooted S; join "/" names] = rooted (S ++ names).
Proof.
  intros HS Hn. unfold Path.resolve.
  change (List.rev [cwd; rooted S; join "/" names])
    with [join "/" names; rooted S; cwd].
  destruct names as [|x names].
  - change (join "/" []) with EmptyString. cbn [Path.resolve_acc String.eqb].
    assert (String.eqb (rooted S) "" = false) as -> by done.
    rewrite rooted_absolute. cbn [negb].
    change (rooted S +:+ "/" +:+ "")
      with (rooted S +:+ String chr_slash EmptyString).
    assert (Path.normalizeString (rooted S +:+ String chr_slash "") false
            = join "/" (S ++ [])) as ->.
    { unfold Path.normalizeString. f_equal.
      change (rooted S +:+ String chr_slash "")
        with (EmptyString +:+ String chr_slash
                (join "/" S +:+ String chr_slash "")).
      rewrite normalizeSegs_plain.
      - rewrite split_app, List.filter_app. simpl List.filter at 1.
        rewrite split_joined by done. simpl. by rewrite !app_nil_r.
      - rewrite split_app. apply Forall_app. split; [by constructor; [left|]|].
        apply split_joined_all; [done|]. by constructor; [left|]. }
    done.
  - destruct (joined_nonempty (x :: names)) as [Hne Hrel]; [done | done |].
    cbn [Path.resolve_acc]. apply String.eqb_neq in Hne. rewrite Hne, Hrel.
    assert (String.eqb (rooted S) "" = false) as -> by done.
    rewrite rooted_absolute. cbn [negb].
    change (rooted S +:+ "/" +:+ join "/" (x :: names) +:+ "/" +:+ "")
      with (("/" +:+ join "/" S)
            +:+ String chr_slash (join "/" (x :: names)
                                  +:+ String chr_slash EmptyString)).
    by rewrite normalizeString_rooted.
Qed.

Lemma resolve_rooted_self cwd (S : list string) :
  Forall (fun w => plain_name w = true) S ->
  Path.resolve cwd [rooted S] = rooted S.
Proof.
  intros HS. pose proof (resolve_plain cwd S [] HS (Forall_nil_2 _)) as H.
  rewrite app_nil_r in H. rewrite <- H at 2.
  unfold Path.resolve. reflexivity.
Qed.

Lemma endsWith_slash_last s :
  endsWith s "/" = true -> last_char s = Some chr_slash.
Proof.
  unfold endsWith. change (str_rev "/") with "/".
  induction s as [|c s IH]; [done|].
  rewrite str_rev_cons. destruct s as [|d s'].
  - change (str_rev "") with EmptyString. simpl. rewrite andb_true_r.
    intros Hc%Ascii.eqb_eq. by rewrite <- Hc.
  - intros Hs. change (last_char (String c (String d s')))
      with (last_char (String d s')). apply IH.
    destruct (str_rev (String d s')) as [|e r] eqn:Hr.
    + by apply str_rev_empty in Hr.
    + simpl in Hs. simpl. rewrite startsWith_empty in *. done.
Qed.

Lemma last_char_app a b :
  b <> EmptyString -> last_char (a +:+ b) = last_char b.
Proof.
  intros Hb. induction a as [|c a IH]; [done|].
  simpl. destruct (a +:+ b) eqn:Hab; [|done].
  destruct a; [simpl in Hab; congruence | done].
Qed.

Lemma last_char_has c s : last_char s = Some c -> has_char c s = true.
Proof.
  induction s as [|d s IH]; [done|]. destruct s as [|e s'].
  - simpl. intros [= ->]. by rewrite Ascii.eqb_refl.
  - intros H. change (has_char c (String d (String e s')))
      with (Ascii.eqb d c || has_char c (String e s')).
    rewrite (IH H). apply orb_true_r.
Qed.

Lemma joined_no_trailing_slash prefix (names : list string) :
  names <> [] -> Forall (fun w => plain_name w = true) names ->
  endsWith (prefix +:+ join "/" names) "/" = false.
Proof.
  intros Hne Hn. destruct (endsWith _ "/") eqn:He; [|done]. exfalso.
  apply endsWith_slash_last in He.
  revert prefix He. induction names as [|x names IH]; [done|].
  intros prefix He. apply Forall_cons in Hn as [Hx Hn].
  destruct (plain_name_spec x Hx) as (Hxne & Hslash & _).
  destruct names as [|y names].
  - change (join "/" [x]) with x in He.
    rewrite last_char_app in He by done.
    apply last_char_has in He. congruence.
  - rewrite join_cons2 in He.
    change (x +:+ String chr_slash (join "/" (y :: names)))
      with (x +:+ "/" +:+ join "/" (y :: names)) in He.
    rewrite <- !append_assoc in He. by apply (IH ltac:(done) Hn) in He.
Qed.

Lemma normalize_joined (names : list string) :
  names <> [] -> Forall (fun w => plain_name w = true) names ->
  Path.normalize (join "/" names) = join "/" names.
Proof.
  intros Hne Hn. destruct (joined_nonempty names Hne Hn) as [Hemp Hrel].
  unfold Path.normalize. apply String.eqb_neq in Hemp as Hemp'.
  rewrite Hemp', Hrel.
  pose proof (joined_no_trailing_slash EmptyString names Hne Hn) as Htr.
  simpl in Htr. rewrite Htr.
  assert (Path.normalizeString (join "/" names) (negb false) = join "/" names)
    as ->.
  { unfold Path.normalizeString. f_equal.
    rewrite split_join; [| done | by apply plain_no_slash].
    rewrite normalizeSegs_plain; [by apply filter_nonempty_plain|].
    eapply Forall_impl; [exact Hn|]. intros w Hw. by right. }
  by rewrite Hemp'.
Qed.

Lemma join_paths_rooted (S names : list string) :
  names <> [] ->
  Forall (fun w => plain_name w = true) S ->
  Forall (fun w => plain_name w = true) names ->
  Path.join_paths [rooted S; join "/" names] = rooted (S ++ names).
Proof.
  intros Hne HS Hn. destruct (joined_nonempty names Hne Hn) as [Hemp _].
  unfold Path.join_paths. apply String.eqb_neq in Hemp as Hemp'.
  cbn [List.filter]. rewrite Hemp'.
  assert (String.eqb (rooted S) "" = false) as -> by done. cbn [negb].
  change (join "/" [rooted S; join "/" names])
    with (rooted S +:+ "/" +:+ join "/" names).
  unfold Path.normalize.
  assert (String.eqb (rooted S +:+ "/" +:+ join "/" names) "" = false) as ->
    by done.
  assert (Path.isAbsolute (rooted S +:+ "/" +:+ join "/" names) = true) as ->.
  { unfold rooted. rewrite !append_assoc. apply (startsWith_refl_app "/"). }
  assert (endsWith (rooted S +:+ "/" +:+ join "/" names) "/" = false) as ->.
  { rewrite <- append_assoc. by apply joined_no_trailing_slash. }
  cbn [negb].
  assert (Path.normalizeString (rooted S +:+ "/" +:+ join "/" names) false
          = join "/" (S ++ names)) as ->.
  { unfold Path.normalizeString. f_equal.
    change (rooted S +:+ "/" +:+ join "/" names)
      with (EmptyString +:+ String chr_slash
              (join "/" S +:+ String chr_slash (join "/" names))).
    assert (split chr_slash (join "/" names) = names) as Hsplit
      by (apply split_join; [done | by apply plain_no_slash]).
    rewrite normalizeSegs_plain.
    - rewrite split_app, List.filter_app. simpl List.filter at 1.
      rewrite split_joined by done. rewrite Hsplit.
      by rewrite filter_nonempty_plain.
    - rewrite split_app. apply Forall_app. split; [by constructor; [left|]|].
      apply split_joined_all; [done|]. rewrite Hsplit.
      eapply Forall_impl; [exact Hn|]. intros w Hw. by right. }
  assert (String.eqb (join "/" (S ++ names)) "" = false) as ->.
  { apply String.eqb_neq.
    apply (joined_nonempty (S ++ names)); [by destruct S, names|].
    by apply Forall_app. }
  reflexivity.
Qed.

Lemma strip_common_prefix (S names : list string) :
  Path.strip_common S (S ++ names) = ([], names).
Proof.
  induction S as [|x S IH]; simpl; [by destruct names|].
  by rewrite String.eqb_refl.
Qed.

Lemma relative_below cwd (S names : list string) :
  names <> [] ->
  Forall (fun w => plain_name w = true) S ->
  Forall (fun w => plain_name w = true) names ->
  Path.relative cwd (rooted S) (rooted (S ++ names)) = join "/" names.
Proof.
  intros Hne HS Hn.
  assert (Forall (fun w => plain_name w = true) (S ++ names)) as HSn
    by by apply Forall_app.
  assert (rooted S <> rooted (S ++ names)) as Hdiff.
  { intros Heq. apply (f_equal Path.segments) in Heq.
    unfold rooted in Heq.
    rewrite !segments_rooted in Heq by by apply plain_seg_ok.
    apply (f_equal length) in Heq. rewrite length_app in Heq.
    destruct names; [done | simpl in Heq; lia]. }
  unfold Path.relative. apply String.eqb_neq in Hdiff as Hdiff'.
  rewrite Hdiff', !resolve_rooted_self, Hdiff' by done.
  unfold rooted. rewrite !segments_rooted by by apply plain_seg_ok.
  by rewrite strip_common_prefix.
Qed.

Lemma isMetaPath_below cwd (S names : list string) :
  names <> [] ->
  Forall (fun w => plain_name w = true) S ->
  Forall (fun w => plain_name w = true) names ->
  isMetaPath cwd (rooted S) (rooted (S ++ names)) = includes names META_DIRNAME.
Proof.
  intros Hne HS Hn. unfold isMetaPath. rewrite relative_below by done.
  by rewrite split_join; [| done | apply plain_no_slash].
Qed.

Lemma segs_prefix_app (S names : list string) : segs_prefix S (S ++ names) = true.
Proof.
  induction S as [|x S IH]; simpl; [done|]. by rewrite String.eqb_refl.
Qed.

Lemma normalized_root_plain nd :
  normalized_root nd = true ->
  nd = rooted (Path.segments nd) /\
  Forall (fun w => plain_name w = true) (Path.segments nd).
Proof.
  unfold normalized_root. intros [Heq Hall]%andb_true_iff.
  apply String.eqb_eq in Heq. split; [done|].
  apply Forall_forall. intros w Hw%list_elem_of_In.
  rewrite forallb_forall in Hall. by apply Hall.
Qed.

Lemma forallb_Forall_plain (names : list string) :
  forallb plain_name names = true ->
  Forall (fun w => plain_name w = true) names.
Proof.
  intros Hall. apply Forall_forall. intros w Hw%list_elem_of_In.
  rewrite forallb_forall in Hall. by apply Hall.
Qed.

(** X25: [resolveSafePath] on an ordinary relative path.  When the root
    is in normal form and the path is made of plain names (no empty
    name, no [.], no [..]), the path resolves to the root followed by
    these names; it is accepted exactly when none of the names is the
    metadata directory, or when access to the metadata is asked for, and
    refused as restricted otherwise. *)
Theorem resolveSafePath_plain_names cwd nd (names : list string) :
  normalized_root nd = true ->
  names <> [] -> forallb plain_name names = true ->
  let filename := join "/" names in
  let target := rooted (Path.segments nd ++ names) in
  descendant nd target = true /\
  resolveSafePath cwd (Some nd) filename true = Ok target /\
  resolveSafePath cwd (Some nd) filename false
  = (if includes names META_DIRNAME then Err RestrictedMeta else Ok target).
Proof.
  intros [Hnd HS]%normalized_root_plain Hne Hn%forallb_Forall_plain
         filename target.
  set (S := Path.segments nd) in *.
  assert (Path.resolve cwd [nd; Path.normalize filename] = target) as Hres.
  { subst filename. rewrite normalize_joined by done. rewrite Hnd.
    by apply resolve_plain. }
  assert (startsWith target nd = true) as Hstart.
  { subst target. rewrite Hnd. unfold rooted.
    rewrite (startsWith_cancel "/"). apply prefix_startsWith, segs_prefix_app. }
  assert (isMetaPath cwd nd target = includes names META_DIRNAME) as Hmeta.
  { subst target. rewrite Hnd. by apply isMetaPath_below. }
  split_and!.
  - unfold descendant. subst target. unfold rooted.
    rewrite segments_rooted by (apply plain_seg_ok; by apply Forall_app).
    apply segs_prefix_app.
  - unfold resolveSafePath. rewrite Hres, Hstart, Hmeta. simpl.
    by rewrite andb_false_r.
  - unfold resolveSafePath. rewrite Hres, Hstart, Hmeta. simpl.
    by rewrite andb_true_r.
Qed.

Lemma resolveSafePath_plain_names_witness :
  resolveSafePath "/" (Some "/home/u/notes") "projects/plan.md" false
  = Ok "/home/u/notes/projects/plan.md" /\
  resolveSafePath "/" (Some "/home/u/notes") "a/.x0v3rt/b" false
  = Err RestrictedMeta.
Proof.
  split.
  - apply (resolveSafePath_plain_names "/" "/home/u/notes"
             ["projects"; "plan.md"]); [reflexivity | done | reflexivity].
  - apply (resolveSafePath_plain_names "/" "/home/u/notes"
             ["a"; ".x0v3rt"; "b"]); [reflexivity | done | reflexivity].
Defined.

(** X26: which events the watcher acts on.  For a root in normal form
    and an event whose file name is a path of plain names, the listener
    schedules a rebuild exactly when none of the names is the metadata
    directory.  An event from inside the metadata directory, such as the
    one caused by the [index.json] that [buildIndex] writes, leaves
    everything as it is, so a rebuild does not bring about another. *)
Theorem watcher_ignores_metadata_events P a nd (names : list string) :
  normalized_root nd = true ->
  notesDir (app_store a) = Some nd ->
  names <> [] -> forallb plain_name names = true ->
  let filename := Some (join "/" names) in
  qualifies P nd filename = negb (includes names META_DIRNAME) /\
  (includes names META_DIRNAME = true ->
   on_watch_event P a filename = a /\
   forall t, deliver P a (t, filename) = advance a t).
Proof.
  intros Hroot Hnd Hne Hn filename.
  destruct (normalized_root_plain nd Hroot) as [Hshape HS].
  apply forallb_Forall_plain in Hn as Hn'.
  assert (qualifies P nd filename = negb (includes names META_DIRNAME)) as Hq.
  { unfold qualifies, filename.
    destruct (joined_nonempty names Hne Hn') as [Hemp _].
    apply String.eqb_neq in Hemp. rewrite Hemp. cbn [negb andb].
    rewrite Hshape at 1 2. rewrite join_paths_rooted by done.
    by rewrite isMetaPath_below. }
  split; [done|]. intros Hmeta. rewrite Hmeta in Hq. cbn [negb] in Hq.
  split.
  - by apply (on_watch_event_ignored P a nd).
  - intros t. unfold deliver. cbn [fst snd].
    apply (on_watch_event_ignored P _ nd); [|done].
    unfold advance. cbn [app_store].
    generalize (size (filter (fun kv => snd kv <= t) (timers a))). intros n.
    induction n as [|n IH]; [done|]. simpl. by rewrite buildIndex_notesDir.
Qed.

Lemma watcher_ignores_metadata_events_witness :
  index_builds
    (app_store
       (advance (deliver sample_platform idle_app
                   (10, Some ".x0v3rt/index.json")) 5000)) = 0.
Proof.
  destruct (watcher_ignores_metadata_events sample_platform idle_app "/ws"
              [".x0v3rt"; "index.json"]) as [_ Hignored];
    [reflexivity | reflexivity | done | reflexivity |].
  destruct Hignored as [_ Hdeliver]; [reflexivity|].
  change (Some (join "/" [".x0v3rt"; "index.json"]))
    with (Some ".x0v3rt/index.json") in Hdeliver.
  rewrite Hdeliver. reflexivity.
Defined.

(** ** Moving a folder, importing under a free name *)

Lemma set_db_same ix d : db ix = Some d -> set_db ix d = ix.
Proof. destruct ix as [w o]. simpl. by intros ->. Qed.

Lemma remove_statements_absent d rel :
  rel ∉ row_paths d -> remove_statements d rel = d.
Proof.
  intros Hnot. unfold remove_statements.
  destruct (find_by_path rel (files d)) as [r|] eqn:Hfind; [|done].
  apply find_by_path_Some in Hfind as [Hin Hp]. exfalso. apply Hnot.
  rewrite <- Hp. unfold row_paths.
  by apply list_elem_of_In, in_map, list_elem_of_In.
Qed.

(** X27: moving a folder does not move the records of the files in it.
    When [moveFile] renames a directory (whose own name has no indexed
    extension and no record, as folders do), the search index is exactly
    what it was: the notes below the folder stay recorded under their old
    paths, and nothing is recorded under the new ones. *)
Theorem moveFile_directory_index_unchanged
    P t mtimeMs s nd sourcePath targetPath src tgt ix d :
  notesDir s = Some nd ->
  Path.isAbsolute sourcePath = false -> Path.isAbsolute targetPath = false ->
  resolveSafePath (cwd P) (Some nd) sourcePath false = Ok src ->
  resolveSafePath (cwd P) (Some nd) targetPath false = Ok tgt ->
  fs s !! src = Some FDir ->
  access (fs s) tgt = Throws (Thrown ENOENT) ->
  under src tgt = false ->
  searchIndexer s = Some ix -> db ix = Some d ->
  Path.relative (cwd P) (workspaceDir ix) src ∉ row_paths d ->
  recognized tgt = false ->
  exists s',
    moveFile P t mtimeMs s sourcePath targetPath
    = Done (s', Path.relative (cwd P) nd tgt) /\
    searchIndexer s' = Some ix.
Proof.
  intros Hnd Hs Ht Hsrc Htgt Hdir Hfree Hunder Hix Hdb Hnot Hrec.
  unfold moveFile.
  rewrite Hnd, Hs, Ht, Hsrc, Htgt, (access_exists _ _ _ Hdir), Hfree.
  unfold rename. rewrite (mkdir_p_keeps _ _ _ _ Hdir), Hunder.
  eexists. split; [reflexivity|].
  rewrite buildIndex_searchIndexer. cbn [searchIndexer set_fs]. rewrite Hix.
  cbn [searchIndexer set_searchIndexer].
  unfold removeFile. rewrite Hdb, (remove_statements_absent _ _ Hnot).
  rewrite (set_db_same ix d Hdb).
  by rewrite (indexFile_unrecognized _ _ _ _ _ Hrec).
Qed.

Lemma moveFile_directory_index_unchanged_witness :
  exists s' ix' d',
    moveFile sample_platform (clock_at "02" 2) 0 folder_store "dir" "new"
    = Done (s', "new") /\
    fs s' !! "/ws/new/a.txt" = Some (FFile "secret") /\
    fs s' !! "/ws/dir/a.txt" = None /\
    searchIndexer s' = Some ix' /\ db ix' = Some d' /\
    row_paths d' = ["dir/a.txt"].
Proof.
  destruct (moveFile_directory_index_unchanged sample_platform
              (clock_at "02" 2) 0 folder_store "/ws" "dir" "new" "/ws/dir"
              "/ws/new" folder_indexer folder_database)
    as (s' & Hm & Hix); try reflexivity.
  - vm_compute. intros Hin%list_elem_of_singleton. discriminate.
  - exists s', folder_indexer, folder_database.
    split; [exact Hm|]. split_and!; try exact Hix; try reflexivity.
    + vm_compute in Hm. injection Hm as <-. reflexivity.
    + vm_compute in Hm. injection Hm as <-. reflexivity.
Defined.


